(** * docsify-tools: the sidebar generator and the markdown documenter

    A shallow embedding of

    - [docsify-auto-sidebar] (the sidebar generator with name normalisation,
      pruning of empty directories and folding of a directory with its
      same-named file), module [AutoSidebar];
    - [index.ts] (the earlier sidebar generator, without those three), module
      [Index];
    - [MarkdownDocumenter] (one markdown page per API item), module
      [MarkdownDocumenter];
    - [docsify-init] (the files of a new documentation site), module
      [DocsifyInit].

    Strings.  A JavaScript string is a sequence of UTF-16 code units.  The
    model takes [string], a sequence of 8-bit characters, and reads each
    character as the code unit of the same number: it covers the strings whose
    code units are all below 256.  Every string operation the programs use
    ([split], [join], [replace], the regular expressions, [path.basename],
    [toLowerCase], [Number]) works code unit by code unit, and is written out
    below for these strings. *)

From Stdlib Require Import ZArith Ascii String List Bool Lia DecimalString.
From stdpp Require Import base gmap list strings.

Set Warnings "-register-all".

(** ** JavaScript string primitives *)

Module JS.

Local Open Scope char_scope.

(** [s.split(sep)] for a separator of one character: never empty, the
    empty string gives one empty segment. *)
Fixpoint split (sep : ascii) (s : string) : list string :=
  match s with
  | EmptyString => [EmptyString]
  | String c s' =>
      if Ascii.eqb c sep then EmptyString :: split sep s'
      else match split sep s' with
           | [] => [String c EmptyString]
           | seg :: rest => String c seg :: rest
           end
  end.

(** [l.join(sep)]. *)
Fixpoint join (sep : string) (l : list string) : string :=
  match l with
  | [] => EmptyString
  | x :: rest =>
      match rest with
      | [] => x
      | _ :: _ => x +:+ sep +:+ join sep rest
      end
  end.

(** [s.replace(/c/g, by)] for a pattern of one literal character. *)
Fixpoint replaceAll (c : ascii) (by_ : string) (s : string) : string :=
  match s with
  | EmptyString => EmptyString
  | String a s' =>
      if Ascii.eqb a c then by_ +:+ replaceAll c by_ s'
      else String a (replaceAll c by_ s')
  end.

(** [s.startsWith(p)], the anchored alternative [^p] of a pattern. *)
Definition startsWith (p s : string) : bool := String.prefix p s.

(** An unanchored literal alternative of a pattern: [p] occurs in [s]. *)
Fixpoint includes (p s : string) : bool :=
  String.prefix p s ||
  match s with
  | EmptyString => false
  | String _ s' => includes p s'
  end.

(** The line terminators, which [.] does not match in a pattern (the two
    below 256). *)
Definition isLineTerminator (c : ascii) : bool :=
  Ascii.eqb c "010" || Ascii.eqb c "013".

(** [StrWhiteSpaceChar] of the language definition, below 256: TAB, LF, VT,
    FF, CR, SP and NBSP. *)
Definition isStrWhiteSpaceChar (c : ascii) : bool :=
  match c with
  | "009" | "010" | "011" | "012" | "013" | " " | "160" => true
  | _ => false
  end.

Definition isDecimalDigit (c : ascii) : bool :=
  match c with
  | "0" | "1" | "2" | "3" | "4" | "5" | "6" | "7" | "8" | "9" => true
  | _ => false
  end.

Definition isHexDigit (c : ascii) : bool :=
  isDecimalDigit c ||
  match c with
  | "a" | "b" | "c" | "d" | "e" | "f"
  | "A" | "B" | "C" | "D" | "E" | "F" => true
  | _ => false
  end.

Definition isOctalDigit (c : ascii) : bool :=
  match c with
  | "0" | "1" | "2" | "3" | "4" | "5" | "6" | "7" => true
  | _ => false
  end.

Definition isBinaryDigit (c : ascii) : bool :=
  match c with "0" | "1" => true | _ => false end.

Fixpoint dropWhile {A} (p : A -> bool) (l : list A) : list A :=
  match l with
  | [] => []
  | x :: l' => if p x then dropWhile p l' else l
  end.

Fixpoint takeWhile {A} (p : A -> bool) (l : list A) : list A :=
  match l with
  | [] => []
  | x :: l' => if p x then x :: takeWhile p l' else []
  end.

(** [StrWhiteSpace] removed at both ends. *)
Definition trimWhiteSpace (l : list ascii) : list ascii :=
  rev (dropWhile isStrWhiteSpaceChar (rev (dropWhile isStrWhiteSpaceChar l))).

Definition nonEmptyAll (p : ascii -> bool) (l : list ascii) : bool :=
  match l with
  | [] => false
  | _ :: _ => forallb p l
  end.

Definition dropSign (l : list ascii) : list ascii :=
  match l with
  | "+" :: l' => l'
  | "-" :: l' => l'
  | _ => l
  end.

(** [ExponentPart], optional. *)
Definition isExponentPartOpt (l : list ascii) : bool :=
  match l with
  | [] => true
  | "e" :: l' => nonEmptyAll isDecimalDigit (dropSign l')
  | "E" :: l' => nonEmptyAll isDecimalDigit (dropSign l')
  | _ :: _ => false
  end.

(** [StrUnsignedDecimalLiteral]:
    [Infinity], [digits . digits? exp?], [. digits exp?], [digits exp?]. *)
Definition isStrUnsignedDecimalLiteral (l : list ascii) : bool :=
  if String.eqb (string_of_list_ascii l) "Infinity"%string then true
  else
    let intPart := takeWhile isDecimalDigit l in
    let afterInt := dropWhile isDecimalDigit l in
    match afterInt with
    | "." :: l' =>
        let fracPart := takeWhile isDecimalDigit l' in
        let afterFrac := dropWhile isDecimalDigit l' in
        (negb (Nat.eqb (length intPart) 0) || negb (Nat.eqb (length fracPart) 0))
        && isExponentPartOpt afterFrac
    | _ => negb (Nat.eqb (length intPart) 0) && isExponentPartOpt afterInt
    end.

(** [StrNumericLiteral]: a signed decimal literal, or an unsigned
    hexadecimal, octal or binary integer literal. *)
Definition isStrNumericLiteral (l : list ascii) : bool :=
  match l with
  | "0" :: "x" :: l' | "0" :: "X" :: l' => nonEmptyAll isHexDigit l'
  | "0" :: "o" :: l' | "0" :: "O" :: l' => nonEmptyAll isOctalDigit l'
  | "0" :: "b" :: l' | "0" :: "B" :: l' => nonEmptyAll isBinaryDigit l'
  | _ => isStrUnsignedDecimalLiteral (dropSign l)
  end.

(** [Number.isNaN(Number(s))]: the conversion of a string gives [NaN]
    exactly when the string is not a [StringNumericLiteral], that is, when
    it is neither white space only nor a numeric literal between white
    space. *)
Definition isNaN_Number (s : string) : bool :=
  match trimWhiteSpace (list_ascii_of_string s) with
  | [] => false
  | l => negb (isStrNumericLiteral l)
  end.

(** [s.toLowerCase()] on code units below 256: the letters [A]-[Z] and the
    capital letters from 192 to 222, the multiplication sign 215 apart. *)
Definition toLowerChar (c : ascii) : ascii :=
  let n := nat_of_ascii c in
  if ((65 <=? n) && (n <=? 90))%nat
     || ((192 <=? n) && (n <=? 222) && negb (n =? 215))%nat
  then ascii_of_nat (n + 32) else c.

Fixpoint toLowerCase (s : string) : string :=
  match s with
  | EmptyString => EmptyString
  | String c s' => String (toLowerChar c) (toLowerCase s')
  end.

(** [s.indexOf(c) < 0]. *)
Fixpoint lacks (c : ascii) (s : string) : bool :=
  match s with
  | EmptyString => true
  | String a s' => negb (Ascii.eqb a c) && lacks c s'
  end.

End JS.

(** ** [path.basename] of the runtime's [path] module (POSIX flavour)

    The scan runs from the last character to the first, as the library's loop
    does; the list handed to the loop holds [path[i]], [path[i-1]], ...,
    [path[0]], so that the index [i] of its head is the length of its tail. *)

Module Path.

Local Open Scope Z_scope.

Record scan := mkScan {
  start : Z;
  end_ : Z;
  matchedSlash : bool;
  extIdx : Z;
  firstNonSlashEnd : Z
}.

Definition isSlash (code : ascii) : bool := Ascii.eqb code "/"%char.

(** The loop of the branch with a suffix.  A [break] is the return of the
    state without the recursive call. *)
Fixpoint basename_suffix_loop (suffix : string) (rpath : list ascii) (st : scan) : scan :=
  match rpath with
  | [] => st
  | code :: rest =>
      let i := Z.of_nat (length rest) in
      if isSlash code then
        if negb (matchedSlash st)
        then mkScan (i + 1) (end_ st) (matchedSlash st) (extIdx st) (firstNonSlashEnd st)
        else basename_suffix_loop suffix rest st
      else
        let st1 :=
          if firstNonSlashEnd st =? -1
          then mkScan (start st) (end_ st) false (extIdx st) (i + 1)
          else st in
        let st2 :=
          if 0 <=? extIdx st1 then
            if bool_decide (Some code = String.get (Z.to_nat (extIdx st1)) suffix) then
              let e := extIdx st1 - 1 in
              if e =? -1
              then mkScan (start st1) i (matchedSlash st1) e (firstNonSlashEnd st1)
              else mkScan (start st1) (end_ st1) (matchedSlash st1) e (firstNonSlashEnd st1)
            else
              mkScan (start st1) (firstNonSlashEnd st1) (matchedSlash st1) (-1)
                     (firstNonSlashEnd st1)
          else st1 in
        basename_suffix_loop suffix rest st2
  end.

(** The loop of the branch without a suffix (also taken when the suffix is
    longer than the path). *)
Fixpoint basename_plain_loop (rpath : list ascii) (st : scan) : scan :=
  match rpath with
  | [] => st
  | code :: rest =>
      let i := Z.of_nat (length rest) in
      if isSlash code then
        if negb (matchedSlash st)
        then mkScan (i + 1) (end_ st) (matchedSlash st) (extIdx st) (firstNonSlashEnd st)
        else basename_plain_loop rest st
      else if end_ st =? -1
        then basename_plain_loop rest
               (mkScan (start st) (i + 1) false (extIdx st) (firstNonSlashEnd st))
        else basename_plain_loop rest st
  end.

(** [path.slice(start, end)] for [0 <= start <= end]. *)
Definition slice (path : string) (from to : Z) : string :=
  String.substring (Z.to_nat from) (Z.to_nat (to - from)) path.

Definition basename (path suffix : string) : string :=
  let len := Z.of_nat (String.length path) in
  let slen := Z.of_nat (String.length suffix) in
  let rpath := rev (list_ascii_of_string path) in
  if (0 <? slen) && (slen <=? len) then
    if String.eqb suffix path then ""
    else
      let st := basename_suffix_loop suffix rpath (mkScan 0 (-1) true (slen - 1) (-1)) in
      let e :=
        if start st =? end_ st then firstNonSlashEnd st
        else if end_ st =? -1 then len
        else end_ st in
      slice path (start st) e
  else
    let st := basename_plain_loop rpath (mkScan 0 (-1) true (-1) (-1)) in
    if end_ st =? -1 then "" else slice path (start st) (end_ st).

End Path.

(** ** The file system as the tree builder sees it

    [fs.readdirSync(location)] gives the names of a directory's entries in
    the order of the listing, [fs.statSync(p).isDirectory()] tells a directory
    from anything else.  A location is modelled by the node found there;
    [path.join(location, item)] is the node of the entry [item]. *)

Inductive fsnode : Type :=
| File : fsnode
| Dir : list (string * fsnode) -> fsnode.

(** [type Entry = { name: string; path: string; children?: Entry[] }]:
    a missing [children] field is [None]. *)
Inductive Entry : Type :=
  mkEntry { name : string; path : string; children : option (list Entry) }.

Definition isLeaf (c : Entry) : bool :=
  match children c with None => true | Some _ => false end.

Definition isContainer (c : Entry) : bool := negb (isLeaf c).

(** The proper descendants of a node, in document order. *)
Fixpoint descendants (e : Entry) : list Entry :=
  match children e with
  | None => []
  | Some cs => flat_map (fun c => c :: descendants c) cs
  end.

(** The line feed, ['\n']. *)
Definition nl : string := String "010" "".

(** [new Set(l)] and [s.has(x)]. *)
Definition Set_ (l : list string) : gset string := list_to_set l.
Definition has (s : gset string) (x : string) : bool := bool_decide (x ∈ s).

(** ** The sidebar generator, [docsify-auto-sidebar] *)

Module AutoSidebar.

Import JS.

(** [/node_modules|^\.|_sidebar|_docsify/.test(item)] *)
Definition ignores (item : string) : bool :=
  includes "node_modules" item || startsWith "." item
  || includes "_sidebar" item || includes "_docsify" item.

(** [/.md$/.test(item)]: some character other than a line terminator,
    then [md], then the end of the string. *)
Definition isDoc (item : string) : bool :=
  match rev (list_ascii_of_string item) with
  | c3 :: c2 :: c1 :: _ =>
      negb (isLineTerminator c1) && Ascii.eqb c2 "m" && Ascii.eqb c3 "d"
  | _ => false
  end.

Definition niceName (name : string) : string :=
  let splitName := split "-" name in
  if isNaN_Number (hd "" splitName) then name
  else join " " (tl splitName).

(** The [for (let item of fs.readdirSync(location))] loop of [buildTree]:
    [children_] is the array the loop pushes to, [None] an exception.
    The recursive call is a variable here and is tied below. *)
Section ForItems.
Variable buildTree : fsnode -> string -> string -> option Entry.
Variable tPath : string.

Fixpoint forItems (items : list (string * fsnode)) (children_ : list Entry)
  : option (list Entry) :=
  match items with
  | [] => Some children_
  | (item, iLocation) :: rest =>
      if ignores item then forItems rest children_
      else
        let iPath := tPath +:+ "/" +:+ item in
        match iLocation with
        | Dir _ =>
            match buildTree iLocation item iPath with
            | None => None
            | Some sub =>
                if match children sub with
                   | Some l => negb (Nat.eqb (length l) 0)
                   | None => false
                   end
                then
                  match buildTree iLocation item iPath with
                  | None => None
                  | Some again => forItems rest (children_ ++ [again])
                  end
                else forItems rest children_
            end
        | File =>
            if isDoc item
            then forItems rest (children_ ++ [mkEntry item iPath None])
            else forItems rest children_
        end
  end.
End ForItems.

(** [buildTree(location, name = '', tPath = '')].  [None] is the exception
    of [readdirSync] at something that is not a directory. *)
Fixpoint buildTree (location : fsnode) (name tPath : string) : option Entry :=
  match location with
  | File => None
  | Dir listing =>
      match forItems buildTree tPath listing [] with
      | None => None
      | Some children_ => Some (mkEntry name tPath (Some children_))
      end
  end.

(** The label of a link: [niceName(path.basename(tree.name, '.md'))]. *)
Definition label (tree : Entry) : string :=
  niceName (Path.basename (name tree) ".md").

(** The target of a link: [tree.path.replace(/ /g, '%20')]. *)
Definition target (tree : Entry) : string :=
  replaceAll " " "%20" (path tree).

(** The two sets of a container's [renderToMd]. *)
Definition fileNames (cs : list Entry) : gset string :=
  Set_ (map name (List.filter (fun c => isLeaf c) cs)).

Definition dirNames (cs : list Entry) : gset string :=
  Set_ (map (fun c => name c +:+ ".md") (List.filter (fun c => isContainer c) cs)).

(** The predicate of [.filter], and the second argument of the recursive
    call in [.map]. *)
Definition kept (cs : list Entry) (c : Entry) : bool :=
  negb (has (fileNames cs) (name c)) || negb (has (dirNames cs) (name c)).

Definition linked (cs : list Entry) (c : Entry) : bool :=
  has (dirNames cs) (name c +:+ ".md") && has (fileNames cs) (name c +:+ ".md").

(** [.join('\n').split('\n').map(item => '  ' + item).join('\n')] *)
Definition indent (rendered : list string) : string :=
  join nl (map (fun item => "  " +:+ item) (split "010" (join nl rendered))).

(** [.filter(c => ...).map(c => renderToMd(c, ...))] in one pass over the
    children [cs] of a container; the recursive call is a variable. *)
Section FilterMap.
Variable renderToMd : Entry -> bool -> string.
Variable cs : list Entry.

Fixpoint filterMap (l : list Entry) : list string :=
  match l with
  | [] => []
  | c :: l' =>
      if kept cs c then renderToMd c (linked cs c) :: filterMap l'
      else filterMap l'
  end.
End FilterMap.

(** The heading line of a container. *)
Definition prefix (tree : Entry) (linkDir : bool) : string :=
  if String.eqb (name tree) "" then ""
  else if linkDir
    then "- [" +:+ label tree +:+ "](" +:+ target tree +:+ ")" +:+ nl
    else "- " +:+ niceName (name tree) +:+ nl.

(** [renderToMd(tree, linkDir = false)] *)
Fixpoint renderToMd (tree : Entry) (linkDir : bool) : string :=
  match children tree with
  | None => "- [" +:+ label tree +:+ "](" +:+ target tree +:+ ")"
  | Some cs =>
      let content := indent (filterMap renderToMd cs cs) in
      prefix tree linkDir +:+ content
  end.

(** The program: [renderToMd(buildTree(dir))], written to [_sidebar.md]. *)
Definition main (docs : fsnode) : option string :=
  match buildTree docs "" "" with
  | None => None
  | Some root => Some (renderToMd root false)
  end.

End AutoSidebar.

(** ** The earlier generator, [index.ts] *)

Module Index.

Import JS.

Definition ignores (item : string) : bool := AutoSidebar.ignores item.
Definition isDoc (item : string) : bool := AutoSidebar.isDoc item.

(** [buildTree] asks [fs.statSync] about [iPath], the path below the root
    of the tree, not about [iLocation]: the answer does not come from the
    directory that is listed.  [statSync_isDirectory p] is what the file
    system answers at the absolute path [p], [None] when the call throws. *)
Section ForItems.
Variable statSync_isDirectory : string -> option bool.
Variable buildTree : fsnode -> string -> string -> option Entry.
Variable tPath : string.

Fixpoint forItems (items : list (string * fsnode)) (children_ : list Entry)
  : option (list Entry) :=
  match items with
  | [] => Some children_
  | (item, iLocation) :: rest =>
      if ignores item then forItems rest children_
      else
        let iPath := tPath +:+ "/" +:+ item in
        match statSync_isDirectory iPath with
        | None => None
        | Some true =>
            match buildTree iLocation item iPath with
            | None => None
            | Some sub => forItems rest (children_ ++ [sub])
            end
        | Some false =>
            if isDoc item
            then forItems rest (children_ ++ [mkEntry item iPath None])
            else forItems rest children_
        end
  end.
End ForItems.

Section BuildTree.
Variable statSync_isDirectory : string -> option bool.

Fixpoint buildTree (location : fsnode) (name tPath : string) : option Entry :=
  match location with
  | File => None
  | Dir listing =>
      match forItems statSync_isDirectory buildTree tPath listing [] with
      | None => None
      | Some children_ => Some (mkEntry name tPath (Some children_))
      end
  end.
End BuildTree.

(** [renderToMd(tree)] *)
Fixpoint renderToMd (tree : Entry) : string :=
  match children tree with
  | None =>
      "- [" +:+ hd "" (split "." (name tree)) +:+ "]("
      +:+ replaceAll " " "%20" (path tree) +:+ ")"
  | Some cs =>
      let content := AutoSidebar.indent (map renderToMd cs) in
      let prefix := if String.eqb (name tree) "" then ""
                    else "- " +:+ name tree +:+ nl in
      prefix +:+ content
  end.

End Index.

(** ** The markdown documenter, [MarkdownDocumenter]

    The API model, the documentation comments and the document nodes belong
    to libraries; they are modelled by the data the documenter reads from
    them.  [_writeClassTables] is defined in the source and called nowhere;
    it is left out. *)

Module MarkdownDocumenter.

Import JS.

(** [ApiItemKind] of the API model. *)
Inductive ApiItemKind : Type :=
| KCallSignature | KClass | KConstructor | KConstructSignature | KEntryPoint
| KEnum | KEnumMember | KFunction | KIndexSignature | KInterface | KMethod
| KMethodSignature | KModel | KNamespace | KPackage | KProperty
| KPropertySignature | KTypeAlias | KVariable | KNone.

(** The value of the string enumeration, as [+] prints it. *)
Definition kindName (k : ApiItemKind) : string :=
  match k with
  | KCallSignature => "CallSignature" | KClass => "Class"
  | KConstructor => "Constructor" | KConstructSignature => "ConstructSignature"
  | KEntryPoint => "EntryPoint" | KEnum => "Enum" | KEnumMember => "EnumMember"
  | KFunction => "Function" | KIndexSignature => "IndexSignature"
  | KInterface => "Interface" | KMethod => "Method"
  | KMethodSignature => "MethodSignature" | KModel => "Model"
  | KNamespace => "Namespace" | KPackage => "Package" | KProperty => "Property"
  | KPropertySignature => "PropertySignature" | KTypeAlias => "TypeAlias"
  | KVariable => "Variable" | KNone => "None"
  end.

Inductive ReleaseTag : Type :=
| RNone | RInternal | RAlpha | RBeta | RPublic.

(** The destination of a link: a literal, or what
    [path.relative(path.dirname(fromFilename), toFilename)] gives. *)
Inductive Url : Type :=
| Literal (url : string)
| Relative (fromFilename toFilename : string).

(** The document nodes the documenter builds or copies from a comment.
    A heading without a [level] is [None]. *)
Inductive DocNode : Type :=
| DocPlainText (text : string)
| DocCodeSpan (code : string)
| DocFencedCode (code language : string)
| DocLinkTag (linkText : string) (urlDestination : Url)
| DocEmphasisSpan (bold italic : bool) (nodes : list DocNode)
| DocParagraph (nodes : list DocNode)
| DocHeading (title : string) (level : option nat)
| DocNoteBox (nodes : list DocNode)
| DocTable (headerTitles : list string) (rows : list (list (list DocNode)))
| DocOther (kind text : string).

Definition DocSection : Type := list DocNode.
Definition DocTableCell : Type := list DocNode.
Definition DocTableRow : Type := list DocTableCell.

(** [DocSection.appendNodeInParagraph]: into the last node when it is a
    paragraph, into a new paragraph otherwise. *)
Definition appendNodeInParagraph (section : DocSection) (node : DocNode) : DocSection :=
  match last section with
  | Some (DocParagraph nodes) => removelast section ++ [DocParagraph (nodes ++ [node])]
  | _ => section ++ [DocParagraph [node]]
  end.

Definition appendNodesInParagraph (section : DocSection) (nodes : list DocNode)
  : DocSection :=
  fold_left appendNodeInParagraph nodes section.

(** A block tag of a comment with its content. *)
Record DocBlock : Type := mkDocBlock {
  tagNameWithUpperCase : string;
  content : DocSection
}.

Record DocComment : Type := mkDocComment {
  summarySection : DocSection;
  deprecatedBlock : option DocSection;
  remarksBlock : option DocSection;
  returnsBlock : option DocSection;
  customBlocks : list DocBlock
}.

Record ApiParameter : Type := mkApiParameter {
  parameterName : string;
  parameterTypeExcerpt : string;
  tsdocParamBlock : option DocSection
}.

(** An item of the API model.  A field of a mixin or of a subclass is
    [None] where the item is not of that class:
    [overloadIndex] for [ApiParameterListMixin],
    [returnTypeExcerpt] for [ApiReturnTypeMixin],
    [releaseTag] for [ApiReleaseTagMixin],
    [tsdocComment] for [ApiDocumentedItem] with a comment,
    [excerpt] (its text) for [ApiDeclaredItem],
    [propertyTypeExcerpt] for [ApiPropertyItem],
    [initializerExcerpt] for an enumeration member that has one.
    [scopedNameWithinPackage], [excerptWithModifiers] and
    [conciseSignature] are what [getScopedNameWithinPackage()],
    [getExcerptWithModifiers()] and [Utilities.getConciseSignature] give
    for the item.  The members of a package are its entry points. *)
Inductive ApiItem : Type := mkApiItem {
  kind : ApiItemKind;
  displayName : string;
  members : list ApiItem;
  overloadIndex : option nat;
  parameters : list ApiParameter;
  returnTypeExcerpt : option string;
  releaseTag : option ReleaseTag;
  tsdocComment : option DocComment;
  excerpt : option string;
  excerptWithModifiers : string;
  propertyTypeExcerpt : option string;
  isEventProperty : bool;
  initializerExcerpt : option string;
  scopedNameWithinPackage : string;
  conciseSignature : string
}.

(** What the documenter reads of an item of [getHierarchy()]. *)
Record HierarchyItem : Type := mkHierarchyItem {
  hKind : ApiItemKind;
  hDisplayName : string;
  hOverloadIndex : option nat
}.

Definition hierarchyItem (apiItem : ApiItem) : HierarchyItem :=
  mkHierarchyItem (kind apiItem) (displayName apiItem) (overloadIndex apiItem).

(** [internalKinds.includes(kind)] *)
Definition isInternalKind (k : ApiItemKind) : bool :=
  match k with
  | KMethod | KMethodSignature | KProperty | KPropertySignature => true
  | _ => false
  end.

(** [PackageName.getUnscopedName] for a valid package name: the name
    without its scope [@scope/]. *)
Fixpoint afterSlash (s : string) : string :=
  match s with
  | EmptyString => EmptyString
  | String c s' => if Ascii.eqb c "/" then s' else afterSlash s'
  end.

Definition getUnscopedName (packageName : string) : string :=
  if startsWith "@" packageName then afterSlash packageName else packageName.

(** A number in a template literal. *)
Definition decimal (n : nat) : string :=
  NilZero.string_of_uint (Nat.to_uint n).

(** The name with the suffix of an overload. *)
Definition qualifiedName (h : HierarchyItem) : string :=
  match hOverloadIndex h with
  | Some n => if (0 <? n)%nat then hDisplayName h +:+ "_" +:+ decimal n
              else hDisplayName h
  | None => hDisplayName h
  end.

(** One round of the loop of [_getFilenameForApiItem]. *)
Definition addHierarchyItem (baseName : string) (h : HierarchyItem) : string :=
  match hKind h with
  | KModel | KEntryPoint => baseName
  | KPackage => getUnscopedName (hDisplayName h)
  | KMethod | KMethodSignature | KProperty | KPropertySignature =>
      baseName +:+ ".md#" +:+ toLowerCase (hDisplayName h)
  | _ => baseName +:+ "/" +:+ qualifiedName h
  end.

Definition baseNameOf (hierarchy : list HierarchyItem) : string :=
  fold_left addHierarchyItem hierarchy "".

(** [_getFilenameForApiItem(apiItem)], on [apiItem.getHierarchy()]. *)
Definition getFilenameForApiItem (hierarchy : list HierarchyItem) : string :=
  let baseName := baseNameOf hierarchy in
  if lacks "#" baseName then baseName +:+ ".md" else baseName.

(** [_getLinkFilenameForApiItem(apiItem, fromApiItem)] *)
Definition getLinkFilenameForApiItem (hierarchy fromHierarchy : list HierarchyItem)
  : Url :=
  Relative (getFilenameForApiItem fromHierarchy) (getFilenameForApiItem hierarchy).

(** *** Effects: the files written so far, and exceptions *)

Record OutputFile : Type := mkOutputFile {
  filename : string;        (* below the output folder *)
  page : DocSection         (* what the markdown emitter is given *)
}.

Inductive result (A : Type) : Type :=
| Done (written : list OutputFile) (value : A)
| Thrown (written : list OutputFile) (message : string).
Arguments Done {A} written value.
Arguments Thrown {A} written message.

Definition ret {A} (a : A) : result A := Done [] a.
Definition throw {A} (message : string) : result A := Thrown [] message.
Definition writeFile (name : string) (p : DocSection) : result unit :=
  Done [mkOutputFile name p] tt.

Definition bind {A B} (m : result A) (k : A -> result B) : result B :=
  match m with
  | Done w a =>
      match k a with
      | Done w' b => Done (w ++ w') b
      | Thrown w' e => Thrown (w ++ w') e
      end
  | Thrown w e => Thrown w e
  end.

Notation "'let*' x ':=' m 'in' k" := (bind m (fun x => k))
  (at level 10, x name, m at level 100, k at level 200).

Definition writtenBy {A} (r : result A) : list OutputFile :=
  match r with Done w _ => w | Thrown w _ => w end.

(** The [TypeError] of a property read on [undefined]. *)
Definition TypeError (property : string) : string :=
  "Cannot read property '" +:+ property +:+ "' of undefined".

(** *** Cells *)

Definition createTitleCell (apiItem : ApiItem)
    (hierarchy originalHierarchy : list HierarchyItem) : DocTableCell :=
  [DocParagraph
     [DocLinkTag (conciseSignature apiItem)
        (getLinkFilenameForApiItem hierarchy originalHierarchy)]].

Definition appendAndMergeSection (output docSection : DocSection) : DocSection :=
  match docSection with
  | DocParagraph childNodes :: rest => appendNodesInParagraph output childNodes ++ rest
  | _ => output ++ docSection
  end.

Definition createDescriptionCell (apiItem : ApiItem) : DocTableCell :=
  let section : DocSection := [] in
  let section :=
    match releaseTag apiItem with
    | Some RBeta =>
        appendNodesInParagraph section
          [DocEmphasisSpan true true [DocPlainText "(BETA)"]; DocPlainText " "]
    | _ => section
    end in
  match tsdocComment apiItem with
  | Some comment => appendAndMergeSection section (summarySection comment)
  | None => section
  end.

Definition createPropertyTypeCell (apiItem : ApiItem) : DocTableCell :=
  match propertyTypeExcerpt apiItem with
  | Some text => appendNodeInParagraph [] (DocCodeSpan text)
  | None => []
  end.

(** *** The breadcrumb *)

(** The loop over [apiItem.getHierarchy()]: [before] are the items
    already passed, so that [before ++ [h]] is the hierarchy of [h]. *)
Fixpoint breadcrumbLoop (hierarchy before rest : list HierarchyItem)
    (output : DocSection) : DocSection :=
  match rest with
  | [] => output
  | h :: rest' =>
      match hKind h with
      | KModel | KEntryPoint => breadcrumbLoop hierarchy (before ++ [h]) rest' output
      | _ =>
          breadcrumbLoop hierarchy (before ++ [h]) rest'
            (appendNodesInParagraph output
               [DocPlainText " > ";
                DocLinkTag (hDisplayName h)
                  (getLinkFilenameForApiItem (before ++ [h]) hierarchy)])
      end
  end.

Definition writeBreadcrumb (output : DocSection) (hierarchy : list HierarchyItem)
  : DocSection :=
  breadcrumbLoop hierarchy [] hierarchy
    (appendNodeInParagraph output (DocLinkTag "Home" (Literal "/"))).

(** *** The parts of [_writeApiItem] that do not recurse *)

Definition unsupported {A} (k : ApiItemKind) : result A :=
  throw ("Unsupported API item kind: " +:+ kindName k).

(** The first [switch]: the heading. *)
Definition writeHeading (apiItem : ApiItem) (output : DocSection) : result DocSection :=
  let baseLevel := if isInternalKind (kind apiItem) then 3 else 1 in
  let scopedName := scopedNameWithinPackage apiItem in
  match kind apiItem with
  | KClass => ret (output ++ [DocHeading (scopedName +:+ " class") None])
  | KEnum => ret (output ++ [DocHeading (scopedName +:+ " enum") None])
  | KInterface => ret (output ++ [DocHeading (scopedName +:+ " interface") None])
  | KMethod | KMethodSignature =>
      ret (output ++ [DocHeading (displayName apiItem) (Some baseLevel)])
  | KFunction => ret (output ++ [DocHeading (scopedName +:+ " function") None])
  | KNamespace => ret (output ++ [DocHeading (scopedName +:+ " namespace") None])
  | KPackage =>
      let unscopedPackageName := getUnscopedName (displayName apiItem) in
      ret (output ++ [DocHeading (unscopedPackageName +:+ " package") None])
  | KProperty | KPropertySignature =>
      ret (output ++ [DocHeading (displayName apiItem) (Some 3)])
  | KTypeAlias => ret (output ++ [DocHeading (scopedName +:+ " type") None])
  | KVariable => ret (output ++ [DocHeading (scopedName +:+ " variable") None])
  | _ => unsupported (kind apiItem)
  end.

Definition betaWarning : string :=
  "This API is provided as a preview for developers and may change"
  +:+ " based on feedback that we receive.  Do not use this API in a production environment.".

Definition writeBetaWarning (output : DocSection) : DocSection :=
  output ++ [DocNoteBox [DocParagraph [DocPlainText betaWarning]]].

(** Between the two [switch]es: the warnings, the summary, the remarks and
    the signature. *)
Definition writeDescription (apiItem : ApiItem) (output : DocSection) : DocSection :=
  let output :=
    match releaseTag apiItem with
    | Some RBeta => writeBetaWarning output
    | _ => output
    end in
  let output :=
    match tsdocComment apiItem with
    | Some comment =>
        let output :=
          match deprecatedBlock comment with
          | Some nodes =>
              output ++
              [DocNoteBox
                 (DocParagraph [DocPlainText "Warning: This API is now obsolete. "]
                  :: nodes)]
          | None => output
          end in
        output ++ summarySection comment
    | None => output
    end in
  let output :=
    match tsdocComment apiItem with
    | Some comment =>
        match remarksBlock comment with
        | Some nodes => (output ++ [DocHeading "Remarks" (Some 4)]) ++ nodes
        | None => output
        end
    | None => output
    end in
  match excerpt apiItem with
  | Some text =>
      if (0 <? String.length text)%nat then
        output ++
        [DocParagraph [DocEmphasisSpan true false [DocPlainText "Signature:"]];
         DocFencedCode (excerptWithModifiers apiItem) "typescript"]
      else output
  | None => output
  end.

(** After the second [switch]: the example blocks. *)
Fixpoint exampleLoop (many : bool) (exampleBlocks : list DocBlock) (exampleNumber : nat)
    (output : DocSection) : DocSection :=
  match exampleBlocks with
  | [] => output
  | exampleBlock :: rest =>
      let heading := if many then "Example " +:+ decimal exampleNumber else "Example" in
      exampleLoop many rest (S exampleNumber)
        ((output ++ [DocHeading heading (Some 4)]) ++ content exampleBlock)
  end.

Definition writeExamples (apiItem : ApiItem) (output : DocSection) : DocSection :=
  match tsdocComment apiItem with
  | Some comment =>
      let exampleBlocks :=
        List.filter (fun x => String.eqb (tagNameWithUpperCase x) "@EXAMPLE")
                    (customBlocks comment) in
      exampleLoop (1 <? length exampleBlocks)%nat exampleBlocks 1 output
  | None => output
  end.

(** *** GENERATE PAGE: ENUM *)

Fixpoint enumMembersLoop (apiMembers : list ApiItem) (rows : list DocTableRow)
  : result (list DocTableRow) :=
  match apiMembers with
  | [] => ret rows
  | apiEnumMember :: rest =>
      match initializerExcerpt apiEnumMember with
      | None => throw (TypeError "text")
      | Some text =>
          enumMembersLoop rest
            (rows ++
             [[ [DocParagraph [DocPlainText (conciseSignature apiEnumMember)]];
                [DocParagraph [DocCodeSpan text]];
                createDescriptionCell apiEnumMember ]])
      end
  end.

Definition writeEnumTables (output : DocSection) (apiEnum : ApiItem) : result DocSection :=
  let* rows := enumMembersLoop (members apiEnum) [] in
  if (0 <? length rows)%nat then
    ret ((output ++ [DocHeading "Enumeration Members" None])
         ++ [DocTable ["Member"; "Value"; "Description"] rows])
  else ret output.

(** *** GENERATE PAGE: FUNCTION-LIKE *)

Definition parameterRow (apiParameter : ApiParameter) : DocTableRow :=
  let parameterDescription : DocSection :=
    match tsdocParamBlock apiParameter with
    | Some nodes => nodes
    | None => []
    end in
  [ [DocParagraph [DocPlainText (parameterName apiParameter)]];
    [DocParagraph [DocCodeSpan (parameterTypeExcerpt apiParameter)]];
    parameterDescription ].

(** [s.trim()] *)
Definition trim (s : string) : string :=
  string_of_list_ascii (trimWhiteSpace (list_ascii_of_string s)).

Definition writeParameterTables (output : DocSection) (apiItem : ApiItem) : DocSection :=
  let rows := map parameterRow (parameters apiItem) in
  let output :=
    if (0 <? length rows)%nat then
      (output ++ [DocHeading "Parameters" (Some 4)])
      ++ [DocTable ["Parameter"; "Type"; "Description"] rows]
    else output in
  match returnTypeExcerpt apiItem with
  | Some text =>
      let output :=
        output ++ [DocParagraph [DocEmphasisSpan true false [DocPlainText "Returns:"]]] in
      let output :=
        output ++
        [DocParagraph
           [DocCodeSpan (if String.eqb (trim text) "" then "(not declared)" else trim text)]] in
      match tsdocComment apiItem with
      | Some comment =>
          match returnsBlock comment with
          | Some nodes => output ++ nodes
          | None => output
          end
      | None => output
      end
  | None => output
  end.

(** *** The parts that recurse: pages and member tables

    [writeApiItem] is a variable in this section and is tied below.  An
    item travels with [hierarchy], what [getHierarchy()] gives for it, the
    item itself last. *)

Record PackageTables : Type := mkPackageTables {
  classesTable : list DocTableRow;
  enumerationsTable : list DocTableRow;
  functionsTable : list DocTableRow;
  interfacesTable : list DocTableRow;
  namespacesTable : list DocTableRow;
  variablesTable : list DocTableRow;
  typeAliasesTable : list DocTableRow
}.

Record InterfaceTables : Type := mkInterfaceTables {
  eventsTable : list DocTableRow;
  propertiesTable : list DocTableRow;
  methodsTable : list DocTableRow
}.

Definition isMethodKind (k : ApiItemKind) : bool :=
  match k with KMethodSignature | KMethod => true | _ => false end.

Definition isPropertyKind (k : ApiItemKind) : bool :=
  match k with KPropertySignature | KProperty => true | _ => false end.

(** The members the loop of [_writeInterfaceTables] pushes to [events],
    to [properties] and to [methods]. *)
Definition isEvent (m : ApiItem) : bool := isPropertyKind (kind m) && isEventProperty m.
Definition isProperty (m : ApiItem) : bool :=
  isPropertyKind (kind m) && negb (isEventProperty m).
Definition isMethod (m : ApiItem) : bool := isMethodKind (kind m).

(** A table with its heading, when it has a row. *)
Definition appendTable (output : DocSection) (title : string)
    (headerTitles : list string) (rows : list DocTableRow) : DocSection :=
  if (0 <? length rows)%nat
  then (output ++ [DocHeading title None]) ++ [DocTable headerTitles rows]
  else output.

Section Recursion.
Variable writeApiItem : list HierarchyItem -> ApiItem -> DocSection -> result DocSection.

(** [_writeApiItemPage(apiItem)] *)
Definition writeApiItemPage (hierarchy : list HierarchyItem) (apiItem : ApiItem)
  : result unit :=
  let output := writeBreadcrumb [] hierarchy in
  let* output := writeApiItem hierarchy apiItem output in
  let name := getFilenameForApiItem hierarchy in
  if negb (isInternalKind (kind apiItem)) then writeFile name output
  else ret tt.

(** The loop of [_writePackageOrNamespaceTables] over [apiMembers];
    [parents] is the hierarchy of the members' parent. *)
Fixpoint packageMembersLoop (containerHierarchy parents : list HierarchyItem)
    (apiMembers : list ApiItem) (t : PackageTables) : result PackageTables :=
  match apiMembers with
  | [] => ret t
  | apiMember :: rest =>
      let hierarchy := parents ++ [hierarchyItem apiMember] in
      let row : DocTableRow :=
        [createTitleCell apiMember hierarchy containerHierarchy;
         createDescriptionCell apiMember] in
      match kind apiMember with
      | KClass =>
          let* _ := writeApiItemPage hierarchy apiMember in
          packageMembersLoop containerHierarchy parents rest
            (mkPackageTables (classesTable t ++ [row]) (enumerationsTable t)
               (functionsTable t) (interfacesTable t) (namespacesTable t)
               (variablesTable t) (typeAliasesTable t))
      | KEnum =>
          let* _ := writeApiItemPage hierarchy apiMember in
          packageMembersLoop containerHierarchy parents rest
            (mkPackageTables (classesTable t) (enumerationsTable t ++ [row])
               (functionsTable t) (interfacesTable t) (namespacesTable t)
               (variablesTable t) (typeAliasesTable t))
      | KInterface =>
          let* _ := writeApiItemPage hierarchy apiMember in
          packageMembersLoop containerHierarchy parents rest
            (mkPackageTables (classesTable t) (enumerationsTable t)
               (functionsTable t) (interfacesTable t ++ [row]) (namespacesTable t)
               (variablesTable t) (typeAliasesTable t))
      | KNamespace =>
          let* _ := writeApiItemPage hierarchy apiMember in
          packageMembersLoop containerHierarchy parents rest
            (mkPackageTables (classesTable t) (enumerationsTable t)
               (functionsTable t) (interfacesTable t) (namespacesTable t ++ [row])
               (variablesTable t) (typeAliasesTable t))
      | KFunction =>
          let* _ := writeApiItemPage hierarchy apiMember in
          packageMembersLoop containerHierarchy parents rest
            (mkPackageTables (classesTable t) (enumerationsTable t)
               (functionsTable t ++ [row]) (interfacesTable t) (namespacesTable t)
               (variablesTable t) (typeAliasesTable t))
      | KTypeAlias =>
          let* _ := writeApiItemPage hierarchy apiMember in
          packageMembersLoop containerHierarchy parents rest
            (mkPackageTables (classesTable t) (enumerationsTable t)
               (functionsTable t) (interfacesTable t) (namespacesTable t)
               (variablesTable t) (typeAliasesTable t ++ [row]))
      | KVariable =>
          let* _ := writeApiItemPage hierarchy apiMember in
          packageMembersLoop containerHierarchy parents rest
            (mkPackageTables (classesTable t) (enumerationsTable t)
               (functionsTable t) (interfacesTable t) (namespacesTable t)
               (variablesTable t ++ [row]) (typeAliasesTable t))
      | _ => packageMembersLoop containerHierarchy parents rest t
      end
  end.

Definition appendPackageTables (output : DocSection) (t : PackageTables) : DocSection :=
  let output := appendTable output "Classes" ["Class"; "Description"] (classesTable t) in
  let output :=
    appendTable output "Enumerations" ["Enumeration"; "Description"]
      (enumerationsTable t) in
  let output :=
    appendTable output "Functions" ["Function"; "Description"] (functionsTable t) in
  let output :=
    appendTable output "Interfaces" ["Interface"; "Description"] (interfacesTable t) in
  let output :=
    appendTable output "Namespaces" ["Namespace"; "Description"] (namespacesTable t) in
  let output :=
    appendTable output "Variables" ["Variable"; "Description"] (variablesTable t) in
  appendTable output "Type Aliases" ["Type Alias"; "Description"] (typeAliasesTable t).

Definition noPackageTables : PackageTables := mkPackageTables [] [] [] [] [] [] [].

(** [_writePackageOrNamespaceTables(output, apiContainer)]: the members
    of a package are those of its first entry point. *)
Definition writePackageOrNamespaceTables (output : DocSection)
    (hierarchy : list HierarchyItem) (apiContainer : ApiItem) : result DocSection :=
  match kind apiContainer with
  | KPackage =>
      match members apiContainer with
      | [] => throw (TypeError "members")
      | entryPoint :: _ =>
          let* t :=
            packageMembersLoop hierarchy (hierarchy ++ [hierarchyItem entryPoint])
              (members entryPoint) noPackageTables in
          ret (appendPackageTables output t)
      end
  | _ =>
      let* t := packageMembersLoop hierarchy hierarchy (members apiContainer)
             noPackageTables in
      ret (appendPackageTables output t)
  end.

(** The first loop of [_writeInterfaceTables]. *)
Fixpoint interfaceMembersLoop (classHierarchy : list HierarchyItem)
    (apiMembers : list ApiItem) (t : InterfaceTables) : result InterfaceTables :=
  match apiMembers with
  | [] => ret t
  | apiMember :: rest =>
      let hierarchy := classHierarchy ++ [hierarchyItem apiMember] in
      match kind apiMember with
      | KMethodSignature | KMethod =>
          let row : DocTableRow :=
            [createTitleCell apiMember hierarchy classHierarchy;
             createDescriptionCell apiMember] in
          let* _ := writeApiItemPage hierarchy apiMember in
          interfaceMembersLoop classHierarchy rest
            (mkInterfaceTables (eventsTable t) (propertiesTable t)
               (methodsTable t ++ [row]))
      | KPropertySignature | KProperty =>
          let row : DocTableRow :=
            [createTitleCell apiMember hierarchy classHierarchy;
             createPropertyTypeCell apiMember;
             createDescriptionCell apiMember] in
          let t' :=
            if isEventProperty apiMember
            then mkInterfaceTables (eventsTable t ++ [row]) (propertiesTable t)
                   (methodsTable t)
            else mkInterfaceTables (eventsTable t) (propertiesTable t ++ [row])
                   (methodsTable t) in
          let* _ := writeApiItemPage hierarchy apiMember in
          interfaceMembersLoop classHierarchy rest t'
      | _ => interfaceMembersLoop classHierarchy rest t
      end
  end.

(** [for (let item of items) this._writeApiItem(item, output)], where
    [items] holds the members with [pushed], in their order. *)
Fixpoint inlineLoop (pushed : ApiItem -> bool) (classHierarchy : list HierarchyItem)
    (apiMembers : list ApiItem) (output : DocSection) : result DocSection :=
  match apiMembers with
  | [] => ret output
  | item :: rest =>
      if pushed item then
        let* output :=
          writeApiItem (classHierarchy ++ [hierarchyItem item]) item output in
        inlineLoop pushed classHierarchy rest output
      else inlineLoop pushed classHierarchy rest output
  end.

(** [_writeInterfaceTables(output, apiClass)] *)
Definition writeInterfaceTables (output : DocSection)
    (hierarchy : list HierarchyItem) (apiClass : ApiItem) : result DocSection :=
  let* t := interfaceMembersLoop hierarchy (members apiClass)
         (mkInterfaceTables [] [] []) in
  let* output :=
    (if (0 <? length (eventsTable t))%nat then
       inlineLoop isEvent hierarchy (members apiClass)
         ((output ++ [DocHeading "Events" None])
          ++ [DocTable ["Property"; "Type"; "Description"] (eventsTable t)])
     else ret output) in
  let* output :=
    (if (0 <? length (propertiesTable t))%nat then
       inlineLoop isProperty hierarchy (members apiClass)
         ((output ++ [DocHeading "Properties" None])
          ++ [DocTable ["Property"; "Type"; "Description"] (propertiesTable t)])
     else ret output) in
  if (0 <? length (methodsTable t))%nat then
    inlineLoop isMethod hierarchy (members apiClass)
      ((output ++ [DocHeading "Methods" None])
       ++ [DocTable ["Method"; "Description"] (methodsTable t)])
  else ret output.

(** The second [switch] of [_writeApiItem]. *)
Definition writeTables (hierarchy : list HierarchyItem) (apiItem : ApiItem)
    (output : DocSection) : result DocSection :=
  match kind apiItem with
  | KClass => writeInterfaceTables output hierarchy apiItem
  | KEnum => writeEnumTables output apiItem
  | KInterface => writeInterfaceTables output hierarchy apiItem
  | KMethod | KMethodSignature | KFunction => ret (writeParameterTables output apiItem)
  | KNamespace => writePackageOrNamespaceTables output hierarchy apiItem
  | KPackage => writePackageOrNamespaceTables output hierarchy apiItem
  | KProperty | KPropertySignature => ret output
  | KTypeAlias => ret output
  | KVariable => ret output
  | _ => unsupported (kind apiItem)
  end.
End Recursion.

(** [_writeApiItem(apiItem, output)] *)
Fixpoint writeApiItem (hierarchy : list HierarchyItem) (apiItem : ApiItem)
    (output : DocSection) {struct apiItem} : result DocSection :=
  let* output := writeHeading apiItem output in
  let output := writeDescription apiItem output in
  let* output := writeTables writeApiItem hierarchy apiItem output in
  ret (writeExamples apiItem output).

(** [generateFiles(outputFolder)], after the output folder is emptied:
    one page per package of the model. *)
Fixpoint packagesLoop (modelHierarchy : list HierarchyItem) (packages : list ApiItem)
  : result unit :=
  match packages with
  | [] => ret tt
  | apiPackage :: rest =>
      let* _ := writeApiItemPage writeApiItem
             (modelHierarchy ++ [hierarchyItem apiPackage]) apiPackage in
      packagesLoop modelHierarchy rest
  end.

Definition generateFiles (apiModel : ApiItem) : result unit :=
  packagesLoop [hierarchyItem apiModel] (members apiModel).

End MarkdownDocumenter.

(** ** The site initializer, [docsify-init]

    The documentation directory is a finite map from the paths below it to
    the contents of the files; [mkdirp] makes no file and is left out.  The
    output of [git config --get remote.origin.url], the template
    [index.html.tpl] and the contents of the vendor files are arguments. *)

Module DocsifyInit.

Import JS.

(** [url.replace(':', '/')]: a pattern that is a string replaces its first
    occurrence only. *)
Fixpoint replaceFirst (c : ascii) (by_ : string) (s : string) : string :=
  match s with
  | EmptyString => EmptyString
  | String a s' =>
      if Ascii.eqb a c then by_ +:+ s' else String a (replaceFirst c by_ s')
  end.

Fixpoint dropString (n : nat) (s : string) : string :=
  match n, s with
  | O, _ => s
  | S _, EmptyString => EmptyString
  | S n', String _ s' => dropString n' s'
  end.

(** [url.replace(/^git@/, 'https://')] *)
Definition replaceGitAt (url : string) : string :=
  if startsWith "git@" url then "https://" +:+ dropString 4 url else url.

(** [url.replace(/.git$/, '')]: a character other than a line terminator,
    then [git], then the end of the string. *)
Definition stripGit (url : string) : string :=
  match rev (list_ascii_of_string url) with
  | c4 :: c3 :: c2 :: c1 :: rest =>
      if negb (isLineTerminator c1) && Ascii.eqb c2 "g" && Ascii.eqb c3 "i"
         && Ascii.eqb c4 "t"
      then string_of_list_ascii (rev rest)
      else url
  | _ => url
  end.

Definition repoToHttpsUrl (url : string) : string :=
  let url := if startsWith "git@" url then replaceFirst ":" "/" url else url in
  stripGit (replaceGitAt url).

(** [repo.substr(repo.lastIndexOf('/') + 1)]: the whole string when it holds
    no [/]. *)
Definition repoName (repo : string) : string :=
  string_of_list_ascii
    (rev (takeWhile (fun c => negb (Ascii.eqb c "/")) (rev (list_ascii_of_string repo)))).

(** [[_A-Z]] *)
Definition isNameChar (c : ascii) : bool :=
  Ascii.eqb c "_" || ((65 <=? nat_of_ascii c) && (nat_of_ascii c <=? 90))%nat.

(** A match of [/\{\{([_A-Z]+)\}\}/] at the head of the text: the name and
    the length of the match.  The name is the longest run of name
    characters: a shorter one is followed by a name character, not by [}]. *)
Definition matchPlaceholder (l : list ascii) : option (list ascii * nat) :=
  match l with
  | a :: b :: l' =>
      if Ascii.eqb a "{" && Ascii.eqb b "{" then
        match takeWhile isNameChar l', dropWhile isNameChar l' with
        | n :: name, c :: d :: _ =>
            if Ascii.eqb c "}" && Ascii.eqb d "}"
            then Some (n :: name, length (n :: name) + 4)%nat
            else None
        | _, _ => None
        end
      else None
  | _ => None
  end.

(** [tpl.replace(/\{\{([_A-Z]+)\}\}/g, (_m, name) => vars[name])]: the
    matches from left to right, none overlapping; [skip] counts the
    characters of a match that are still to be passed over. *)
Fixpoint replacePlaceholders (vars : string -> string) (l : list ascii) (skip : nat)
  : list ascii :=
  match l with
  | [] => []
  | c :: l' =>
      match skip with
      | S k => replacePlaceholders vars l' k
      | O =>
          match matchPlaceholder l with
          | Some (name, n) =>
              list_ascii_of_string (vars (string_of_list_ascii name))
              ++ replacePlaceholders vars l' (n - 1)
          | None => c :: replacePlaceholders vars l' 0
          end
      end
  end.

(** [vars[name]] for the object with the keys [REPO_URL] and [REPO_NAME];
    a missing key gives [undefined], which [replace] writes as a string. *)
Definition vars (repo : string) (name : string) : string :=
  if String.eqb name "REPO_URL" then repo
  else if String.eqb name "REPO_NAME" then repoName repo
  else "undefined".

Definition html (tpl repo : string) : string :=
  string_of_list_ascii (replacePlaceholders (vars repo) (list_ascii_of_string tpl) 0).

Definition staticFiles : list string :=
  ["docsify.js"; "edit-on-github.js"; "search.min.js"; "theme.css"].

Definition welcome : string :=
  "# Welcome page" +:+ nl +:+ nl +:+ "Please add some content.".

(** The writes of the program, in their order, for the output [gitOutput]
    of [git config --get remote.origin.url]. *)
Definition init (tpl : string) (vendor : string -> string) (gitOutput : string)
    (docs : gmap string string) : gmap string string :=
  let repo := repoToHttpsUrl (MarkdownDocumenter.trim gitOutput) in
  let docs := <["index.html" := html tpl repo]> docs in
  let docs := <[".nojekyll" := ""]> docs in
  let docs :=
    if bool_decide (is_Some (docs !! "README.md")) then docs
    else <["README.md" := welcome]> docs in
  foldl (fun d f => <["_docsify/" +:+ f := vendor f]> d) docs staticFiles.

(** The program.  [execSync] throws when [git config] fails, as it does in
    a repository without a remote: [None], before anything is written. *)
Definition main (tpl : string) (vendor : string -> string) (git : option string)
    (docs : gmap string string) : option (gmap string string) :=
  match git with
  | None => None
  | Some gitOutput => Some (init tpl vendor gitOutput docs)
  end.

End DocsifyInit.

(** * Specification-side definitions *)

Import JS.
Import MarkdownDocumenter.

(** The reading of "parses as a number": the conversion does not give [NaN]. *)
Definition parsesAsNumber (s : string) : bool := negb (isNaN_Number s).

(** A directory holds a qualifying document: a file that passes [isDoc],
    reached through entries that are not ignored. *)
Fixpoint hasDocs (location : fsnode) : bool :=
  match location with
  | File => false
  | Dir listing =>
      existsb
        (fun e =>
           negb (AutoSidebar.ignores e.1) &&
           match e.2 with
           | File => AutoSidebar.isDoc e.1
           | Dir _ => hasDocs e.2
           end)
        listing
  end.

(** A container has a child; no container below a node is empty. *)
Definition nonEmptyContainer (e : Entry) : Prop :=
  forall cs, children e = Some cs -> cs <> [].

Definition noEmptyContainerBelow (root : Entry) : Prop :=
  forall d, d ∈ descendants root -> nonEmptyContainer d.

(** The name without a trailing [.md]. *)
Definition stripMd (name : string) : string :=
  match rev (list_ascii_of_string name) with
  | c3 :: c2 :: c1 :: rest =>
      if Ascii.eqb c3 "d" && Ascii.eqb c2 "m" && Ascii.eqb c1 "."
      then string_of_list_ascii (rev rest)
      else name
  | _ => name
  end.

(** The names of all the entries below a directory. *)
Fixpoint entryNames (location : fsnode) : list string :=
  match location with
  | File => []
  | Dir listing => flat_map (fun e => e.1 :: entryNames e.2) listing
  end.

(** A node that comes from an entry of the directory; a leaf comes from an
    entry that is not ignored and passes [isDoc]. *)
Definition fromListing (location : fsnode) (d : Entry) : Prop :=
  In (name d) (entryNames location) /\
  (isLeaf d = true ->
   AutoSidebar.ignores (name d) = false /\ AutoSidebar.isDoc (name d) = true).

(** A child that is not an empty container and has none below it. *)
Definition goodChild (c : Entry) : Prop :=
  nonEmptyContainer c /\ noEmptyContainerBelow c.

(** An entry of a listing that [buildTree] turns into a child. *)
Definition qualifies (e : string * fsnode) : bool :=
  negb (AutoSidebar.ignores e.1) &&
  match e.2 with
  | File => AutoSidebar.isDoc e.1
  | Dir _ => hasDocs e.2
  end.

(** What is proved of [buildTree] at a location, by induction on it. *)
Definition builds (location : fsnode) : Prop :=
  forall name tPath,
    match location with
    | File => AutoSidebar.buildTree location name tPath = None
    | Dir _ =>
        exists cs,
          AutoSidebar.buildTree location name tPath = Some (mkEntry name tPath (Some cs))
          /\ (cs = [] <-> hasDocs location = false)
          /\ Forall goodChild cs
    end.

(** What a container renders below its heading line. *)
Definition content (cs : list Entry) : string :=
  AutoSidebar.indent
    (map (fun c => AutoSidebar.renderToMd c (AutoSidebar.linked cs c))
         (List.filter (AutoSidebar.kept cs) cs)).

(** The kinds that get a path segment of their own: neither a root-level
    container, nor a package, nor a member rendered on its parent's page. *)
Definition getsSegment (k : ApiItemKind) : bool :=
  match k with
  | KModel | KEntryPoint | KPackage
  | KMethod | KMethodSignature | KProperty | KPropertySignature => false
  | _ => true
  end.

(** The hierarchy of the example: package [acme], class [Widget]. *)
Definition acmeWidget : list HierarchyItem :=
  [mkHierarchyItem KModel "" None; mkHierarchyItem KPackage "acme" None;
   mkHierarchyItem KEntryPoint "" None; mkHierarchyItem KClass "Widget" None].

(** An output that keeps what was there and appends to it. *)
Definition extends (output output' : DocSection) : Prop :=
  exists appended, output' = output ++ appended.

(** The heading of a member that is rendered on its parent's page. *)
Definition memberHeading (m : ApiItem) : DocNode :=
  DocHeading (displayName m) (Some 3%nat).

(** The example model: package [acme] with the class [Widget] (a
    constructor, two overloads of the method [render], the property [size]),
    the interface [Shape] and two overloads of the function [make].
    [plainItem] is an item without a parameter list, [callableItem] one with
    a parameter list and an overload index. *)
Definition plainItem (k : ApiItemKind) (n : string) (ms : list ApiItem) : ApiItem :=
  mkApiItem k n ms None [] None None None None "" None false None n n.

Definition callableItem (k : ApiItemKind) (n : string) (index : nat) : ApiItem :=
  mkApiItem k n [] (Some index) [] (Some "void") None None (Some (n +:+ "(): void"))
    (n +:+ "(): void") None false None n (n +:+ "()").

Definition widgetClass : ApiItem :=
  plainItem KClass "Widget"
    [callableItem KConstructor "(constructor)" 0;
     callableItem KMethod "render" 0;
     callableItem KMethod "render" 1;
     plainItem KProperty "size" []].

Definition acmeModel : ApiItem :=
  plainItem KModel ""
    [plainItem KPackage "acme"
       [plainItem KEntryPoint ""
          [widgetClass;
           plainItem KInterface "Shape" [callableItem KMethodSignature "area" 0];
           callableItem KFunction "make" 0;
           callableItem KFunction "make" 1]]].

(** The page written under a file name, if any. *)
Definition pageOf (name : string) (files : list OutputFile) : option DocSection :=
  option_map page (find (fun f => String.eqb (filename f) name) files).

(** The kinds that the two [switch]es of [_writeApiItem] name. *)
Definition isSupportedKind (k : ApiItemKind) : bool :=
  match k with
  | KPackage | KNamespace | KClass | KInterface | KEnum | KFunction | KMethod
  | KMethodSignature | KProperty | KPropertySignature | KTypeAlias | KVariable => true
  | _ => false
  end.

(** The item with other members. *)
Definition withMembers (apiItem : ApiItem) (ms : list ApiItem) : ApiItem :=
  mkApiItem (kind apiItem) (displayName apiItem) ms (overloadIndex apiItem)
    (parameters apiItem) (returnTypeExcerpt apiItem) (releaseTag apiItem)
    (tsdocComment apiItem) (excerpt apiItem) (excerptWithModifiers apiItem)
    (propertyTypeExcerpt apiItem) (isEventProperty apiItem)
    (initializerExcerpt apiItem) (scopedNameWithinPackage apiItem)
    (conciseSignature apiItem).

(** ** Definitions for the further properties *)

(** The path of every child is the path of its parent, a [/] and the name
    of the child. *)
Definition joined (n : Entry) : Prop :=
  forall cs c, children n = Some cs -> In c cs ->
    path c = path n +:+ "/" +:+ name c.

(** The node is a document, or a document lies below it. *)
Definition leadsToDoc (d : Entry) : Prop :=
  exists l, (l = d \/ In l (descendants d)) /\
            isLeaf l = true /\ AutoSidebar.isDoc (name l) = true.

(** The child that [buildTree] makes of a qualifying entry of the directory
    at [tPath]. *)
Definition childOf (tPath : string) (e : string * fsnode) (c : Entry) : Prop :=
  match e.2 with
  | File => c = mkEntry e.1 (tPath +:+ "/" +:+ e.1) None
  | Dir _ => AutoSidebar.buildTree e.2 e.1 (tPath +:+ "/" +:+ e.1) = Some c
  end.

(** What [statSync(p).isDirectory()] gives at a node. *)
Definition isDirectory (location : fsnode) : bool :=
  match location with File => false | Dir _ => true end.

(** [statSync] answers at every path that the earlier generator asks about
    as the node there is: the case of a tree that is rooted at [/]. *)
Fixpoint agrees (stat : string -> option bool) (location : fsnode) (tPath : string)
  : bool :=
  match location with
  | File => true
  | Dir listing =>
      forallb
        (fun e =>
           Index.ignores e.1 ||
           (bool_decide (stat (tPath +:+ "/" +:+ e.1) = Some (isDirectory e.2))
            && agrees stat e.2 (tPath +:+ "/" +:+ e.1)))
        listing
  end.

(** A child that is kept: a leaf, or a container with a child. *)
Definition keepsChild (c : Entry) : bool :=
  match children c with
  | Some [] => false
  | _ => true
  end.

(** The tree without its empty containers, from the leaves up. *)
Fixpoint prune (e : Entry) : Entry :=
  match children e with
  | None => e
  | Some cs => mkEntry (name e) (path e) (Some (List.filter keepsChild (map prune cs)))
  end.

(** The kinds the breadcrumb passes over. *)
Definition isRootKind (k : ApiItemKind) : bool :=
  match k with KModel | KEntryPoint => true | _ => false end.

(** The two nodes of the breadcrumb for the item at depth [n] of the
    hierarchy: the separator and the link to the page of that item. *)
Definition crumb (hierarchy : list HierarchyItem) (n : nat) : list DocNode :=
  match nth_error hierarchy n with
  | Some h =>
      if isRootKind (hKind h) then []
      else [DocPlainText " > ";
            DocLinkTag (hDisplayName h)
              (Relative (getFilenameForApiItem hierarchy)
                        (getFilenameForApiItem (firstn (S n) hierarchy)))]
  | None => []
  end.

(** The heading and the content of the [n]-th example of [count]. *)
Definition exampleSection (count : nat) (numbered : nat * DocBlock) : list DocNode :=
  DocHeading (if (1 <? count)%nat then "Example " +:+ decimal numbered.1 else "Example")
             (Some 4%nat)
  :: MarkdownDocumenter.content numbered.2.

(** The predicate of the [filter] on the custom blocks. *)
Definition isExample (x : DocBlock) : bool :=
  String.eqb (tagNameWithUpperCase x) "@EXAMPLE".

(** [apiItem.releaseTag === ReleaseTag.Beta] *)
Definition isBeta (apiItem : ApiItem) : bool :=
  match releaseTag apiItem with Some RBeta => true | _ => false end.

(** The nodes that mark a description as beta. *)
Definition betaMark : list DocNode :=
  [DocEmphasisSpan true true [DocPlainText "(BETA)"]; DocPlainText " "].

(** Two kinds are the same: the values of the enumeration are their names. *)
Definition kindEqb (k1 k2 : ApiItemKind) : bool :=
  String.eqb (kindName k1) (kindName k2).

(** The members of one kind. *)
Definition ofKind (k : ApiItemKind) (apiMembers : list ApiItem) : list ApiItem :=
  List.filter (fun m => kindEqb (kind m) k) apiMembers.

(** The members that [_writePackageOrNamespaceTables] writes a page for. *)
Definition hasOwnPage (m : ApiItem) : bool :=
  match kind m with
  | KClass | KEnum | KInterface | KNamespace | KFunction | KTypeAlias | KVariable => true
  | _ => false
  end.

(** The row of a member in a table of a package or a namespace. *)
Definition packageRow (containerHierarchy parents : list HierarchyItem) (m : ApiItem)
  : DocTableRow :=
  [createTitleCell m (parents ++ [hierarchyItem m]) containerHierarchy;
   createDescriptionCell m].

(** The enumeration member has an initializer. *)
Definition hasInitializer (m : ApiItem) : bool :=
  match initializerExcerpt m with Some _ => true | None => false end.

(** An item and all the items below it. *)
Fixpoint subItems (apiItem : ApiItem) : list ApiItem :=
  apiItem :: flat_map subItems (members apiItem).

(** The items that [generateFiles] calls [_writeApiItemPage] for, each with
    what [getHierarchy()] gives for it: the members of the model; the members
    of a namespace and of the first entry point of a package that are of one
    of the seven kinds with a page. *)
Inductive pageAt (apiModel : ApiItem) : list HierarchyItem -> ApiItem -> Prop :=
| pageAt_package apiPackage :
    In apiPackage (members apiModel) ->
    pageAt apiModel [hierarchyItem apiModel; hierarchyItem apiPackage] apiPackage
| pageAt_namespace hierarchy apiNamespace m :
    pageAt apiModel hierarchy apiNamespace ->
    kind apiNamespace = KNamespace ->
    In m (members apiNamespace) -> hasOwnPage m = true ->
    pageAt apiModel (hierarchy ++ [hierarchyItem m]) m
| pageAt_entryPoint hierarchy apiPackage entryPoint others m :
    pageAt apiModel hierarchy apiPackage ->
    kind apiPackage = KPackage ->
    members apiPackage = entryPoint :: others ->
    In m (members entryPoint) -> hasOwnPage m = true ->
    pageAt apiModel ((hierarchy ++ [hierarchyItem entryPoint]) ++ [hierarchyItem m]) m.

(** The file is the page of an item that [generateFiles] visits, under the
    file name of that item. *)
Definition isPageOf (apiModel : ApiItem) (f : OutputFile) : Prop :=
  exists hierarchy apiItem w,
    pageAt apiModel hierarchy apiItem /\
    isInternalKind (kind apiItem) = false /\
    filename f = getFilenameForApiItem hierarchy /\
    writeApiItem hierarchy apiItem (writeBreadcrumb [] hierarchy) = Done w (page f).

(** The names are fit for file names: no item has a [#] in its name, and
    the first member of a package, its entry point, is not of a kind that is
    rendered on its parent's page. *)
Definition fitForFileNames (apiItem : ApiItem) : Prop :=
  lacks "#" (displayName apiItem) = true /\
  (kind apiItem = KPackage ->
   match members apiItem with
   | entryPoint :: _ => isInternalKind (kind entryPoint) = false
   | [] => True
   end).

(** A hierarchy whose file name holds no anchor. *)
Definition hierarchyOk (hierarchy : list HierarchyItem) : Prop :=
  Forall (fun h => isInternalKind (hKind h) = false
                   /\ lacks "#" (hDisplayName h) = true) hierarchy.

(** A table whose rows have as many cells as it has header titles. *)
Definition wellFormedNode (node : DocNode) : Prop :=
  match node with
  | DocTable headerTitles rows =>
      Forall (fun row => length row = length headerTitles) rows
  | _ => True
  end.

(** The tables on the top level of a section are well formed. *)
Definition wellFormed (section : DocSection) : Prop := Forall wellFormedNode section.

(** The same for a block that may be missing. *)
Definition wellFormedBlock (block : option DocSection) : Prop :=
  match block with Some nodes => wellFormed nodes | None => True end.

(** The sections of the comment of an item that the documenter copies to a
    page hold well-formed tables only. *)
Definition wellFormedComment (apiItem : ApiItem) : Prop :=
  match tsdocComment apiItem with
  | Some comment =>
      wellFormed (summarySection comment) /\
      wellFormedBlock (remarksBlock comment) /\
      wellFormedBlock (returnsBlock comment) /\
      Forall (fun block => wellFormed (MarkdownDocumenter.content block))
        (customBlocks comment)
  | None => True
  end.

(** Rows of [n] cells. *)
Definition width (n : nat) (rows : list DocTableRow) : Prop :=
  Forall (fun row => length row = n) rows.

(** The paths that [init] writes to. *)
Definition initPaths : list string :=
  ["index.html"; ".nojekyll"; "README.md"]
  ++ map (fun f => "_docsify/" +:+ f) DocsifyInit.staticFiles.

(** The entry point and the package of the example model. *)
Definition acmeEntryPoint : ApiItem :=
  plainItem KEntryPoint ""
    [widgetClass;
     plainItem KInterface "Shape" [callableItem KMethodSignature "area" 0];
     callableItem KFunction "make" 0;
     callableItem KFunction "make" 1].

Definition acmePackage : ApiItem := plainItem KPackage "acme" [acmeEntryPoint].

(** [k] levels of indentation. *)
Fixpoint indentation (k : nat) : string :=
  match k with
  | O => ""
  | S k' => "  " +:+ indentation k'
  end.

(** The node [d] lies [k] levels below [tree], and every node on the way
    from [tree] to [d], [d] included, passes the filter of its parent. *)
Inductive shownAt : nat -> Entry -> Entry -> Prop :=
| shown_child tree cs c :
    children tree = Some cs -> In c cs -> AutoSidebar.kept cs c = true ->
    shownAt 1 tree c
| shown_below k tree cs c d :
    children tree = Some cs -> In c cs -> AutoSidebar.kept cs c = true ->
    shownAt k c d ->
    shownAt (S k) tree d.

(** The rows of a member in the tables of a class or an interface. *)
Definition propertyRow (classHierarchy : list HierarchyItem) (m : ApiItem) : DocTableRow :=
  [createTitleCell m (classHierarchy ++ [hierarchyItem m]) classHierarchy;
   createPropertyTypeCell m;
   createDescriptionCell m].

Definition methodRow (classHierarchy : list HierarchyItem) (m : ApiItem) : DocTableRow :=
  [createTitleCell m (classHierarchy ++ [hierarchyItem m]) classHierarchy;
   createDescriptionCell m].

(** What [_writeApiItem] appends for a member of a class or an interface. *)
Definition memberSection (classHierarchy : list HierarchyItem) (m : ApiItem) : DocSection :=
  match writeApiItem (classHierarchy ++ [hierarchyItem m]) m [] with
  | Done _ output => output
  | Thrown _ _ => []
  end.

(** A group of members on the page of a class or an interface: nothing for
    no member; else the heading, the table and the sections of the members. *)
Definition memberGroup (title : string) (headerTitles : list string)
    (rowOf : ApiItem -> DocTableRow) (classHierarchy : list HierarchyItem)
    (group : list ApiItem) : DocSection :=
  match group with
  | [] => []
  | _ :: _ =>
      DocHeading title None
      :: DocTable headerTitles (map rowOf group)
      :: flat_map (memberSection classHierarchy) group
  end.

(** * Facts about the string primitives *)

Lemma split_not_nil sep s : split sep s <> [].
Proof.
  destruct s as [|c s]; simpl; [discriminate|].
  destruct (Ascii.eqb c sep); [discriminate|].
  destruct (split sep s); discriminate.
Qed.

Lemma split_lacks sep s : lacks sep s = true -> split sep s = [s].
Proof.
  induction s as [|c s IH]; simpl; [reflexivity|].
  intros H. apply andb_true_iff in H as [Hc Hs].
  apply negb_true_iff in Hc. rewrite Hc, (IH Hs). reflexivity.
Qed.

Lemma split_first sep first rest :
  lacks sep first = true ->
  split sep (first +:+ String sep rest) = first :: split sep rest.
Proof.
  induction first as [|c s IH]; simpl; intros H.
  - rewrite Ascii.eqb_refl. reflexivity.
  - apply andb_true_iff in H as [Hc Hs]. apply negb_true_iff in Hc.
    rewrite Hc, (IH Hs). reflexivity.
Qed.

Lemma join_split_replaceAll c d s :
  join (String d "") (split c s) = replaceAll c (String d "") s.
Proof.
  induction s as [|a s IH]; simpl; [reflexivity|].
  destruct (Ascii.eqb a c) eqn:E.
  - pose proof (split_not_nil c s) as Hn.
    destruct (split c s) as [|x l] eqn:Es; [contradiction|].
    rewrite <- IH. reflexivity.
  - pose proof (split_not_nil c s) as Hn.
    destruct (split c s) as [|x l] eqn:Es; [contradiction|].
    rewrite <- IH. destruct l; reflexivity.
Qed.

(** * The name normaliser *)

(** C7.  [niceName] splits the name at its dashes.  When the segment before
    the first dash parses as a number, the result is the remaining segments
    joined by single spaces, which is the text after the first dash with
    each dash turned into a space (and the empty string when the name has no
    dash); when that segment does not parse as a number, the result is the
    name unchanged.  So ["1-Guides"] gives ["Guides"], ["2-API"] gives
    ["API"], ["Guides"] stays and ["10-My-Section"] gives ["My Section"]. *)
Theorem niceName_spec :
  (forall name first rest,
      split "-" name = first :: rest ->
      (parsesAsNumber first = true -> AutoSidebar.niceName name = join " " rest) /\
      (parsesAsNumber first = false -> AutoSidebar.niceName name = name)) /\
  (forall first rest,
      lacks "-" first = true -> parsesAsNumber first = true ->
      AutoSidebar.niceName (first +:+ "-" +:+ rest) = replaceAll "-" " " rest) /\
  (forall name,
      lacks "-" name = true -> parsesAsNumber name = true ->
      AutoSidebar.niceName name = "") /\
  AutoSidebar.niceName "1-Guides" = "Guides" /\
  AutoSidebar.niceName "2-API" = "API" /\
  AutoSidebar.niceName "Guides" = "Guides" /\
  AutoSidebar.niceName "10-My-Section" = "My Section".
Proof.
  split; [|split; [|split; [|repeat split; reflexivity]]].
  - intros name first rest H. unfold AutoSidebar.niceName, parsesAsNumber.
    rewrite H. simpl. split; intros Hnum.
    + apply negb_true_iff in Hnum. rewrite Hnum. reflexivity.
    + apply negb_false_iff in Hnum. rewrite Hnum. reflexivity.
  - intros first rest Hdash Hnum. unfold AutoSidebar.niceName.
    change ("-" +:+ rest) with (String "-" rest).
    rewrite (split_first "-" first rest Hdash). simpl hd. simpl tl.
    unfold parsesAsNumber in Hnum. apply negb_true_iff in Hnum.
    rewrite Hnum. apply (join_split_replaceAll "-" " " rest).
  - intros name Hdash Hnum. unfold AutoSidebar.niceName.
    rewrite (split_lacks "-" name Hdash). simpl.
    unfold parsesAsNumber in Hnum. apply negb_true_iff in Hnum.
    rewrite Hnum. reflexivity.
Qed.

Lemma niceName_spec_witness :
  split "-" "10-My-Section" = ["10"; "My"; "Section"] /\
  parsesAsNumber "10" = true /\
  AutoSidebar.niceName "10-My-Section" = join " " ["My"; "Section"] /\
  lacks "-" "10" = true /\
  AutoSidebar.niceName ("10" +:+ "-" +:+ "My-Section") = replaceAll "-" " " "My-Section" /\
  split "-" "Guides" = ["Guides"] /\
  parsesAsNumber "Guides" = false /\
  AutoSidebar.niceName "Guides" = "Guides" /\
  lacks "-" "2020" = true /\ parsesAsNumber "2020" = true /\
  AutoSidebar.niceName "2020" = "".
Proof.
  split; [reflexivity|]. split; [reflexivity|].
  split; [apply (proj1 niceName_spec "10-My-Section" "10" ["My"; "Section"]); reflexivity|].
  split; [reflexivity|].
  split; [apply (proj1 (proj2 niceName_spec) "10" "My-Section"); reflexivity|].
  split; [reflexivity|]. split; [reflexivity|].
  split; [apply (proj1 niceName_spec "Guides" "Guides" []); reflexivity|].
  split; [reflexivity|]. split; [reflexivity|].
  apply (proj1 (proj2 (proj2 niceName_spec)) "2020"); reflexivity.
Defined.

(** * [path.basename] on a name without a separator *)

Lemma length_list_ascii_of_string s :
  length (list_ascii_of_string s) = String.length s.
Proof. induction s; simpl; congruence. Qed.

Lemma lacks_Forall c s :
  lacks c s = true ->
  Forall (fun a => Ascii.eqb a c = false) (list_ascii_of_string s).
Proof.
  induction s as [|a s IH]; simpl; intros H; constructor.
  - apply andb_true_iff in H as [H _]. now apply negb_true_iff in H.
  - apply IH. now apply andb_true_iff in H as [_ H].
Qed.

Lemma substring_0_app l1 l2 :
  String.substring 0 (length l1) (string_of_list_ascii (l1 ++ l2))
  = string_of_list_ascii l1.
Proof. induction l1 as [|a l1 IH]; simpl; [now destruct l2| now rewrite IH]. Qed.

Lemma substring_0_all s : String.substring 0 (String.length s) s = s.
Proof. induction s; simpl; congruence. Qed.

Lemma suffix_loop_idle suffix rest st :
  Forall (fun a => Path.isSlash a = false) rest ->
  (Path.extIdx st < 0)%Z -> Path.firstNonSlashEnd st <> (-1)%Z ->
  Path.basename_suffix_loop suffix rest st = st.
Proof.
  intros Hs He Hf. induction Hs as [|c rest Hc Hs IH]; simpl; [reflexivity|].
  rewrite Hc.
  destruct (Z.eqb_spec (Path.firstNonSlashEnd st) (-1)); [contradiction|].
  destruct (Z.leb_spec 0 (Path.extIdx st)); [lia|]. exact IH.
Qed.

Lemma plain_loop_idle rest st :
  Forall (fun a => Path.isSlash a = false) rest ->
  Path.end_ st <> (-1)%Z ->
  Path.basename_plain_loop rest st = st.
Proof.
  intros Hs He. induction Hs as [|c rest Hc Hs IH]; simpl; [reflexivity|].
  rewrite Hc. destruct (Z.eqb_spec (Path.end_ st) (-1)); [contradiction|]. exact IH.
Qed.

Ltac scan_arith :=
  change (Z.of_nat 0) with 0%Z; change (Z.of_nat 1) with 1%Z;
  change (Z.of_nat 2) with 2%Z;
  change (Z.to_nat 0) with 0%nat; change (Z.to_nat 1) with 1%nat;
  change (Z.to_nat 2) with 2%nat;
  change (0 - 1)%Z with (-1)%Z; change (1 - 1)%Z with 0%Z;
  change (2 - 1)%Z with 1%Z;
  change (-1 =? -1)%Z with true; change (0 =? -1)%Z with false;
  change (1 =? -1)%Z with false;
  change (0 <=? 0)%Z with true; change (0 <=? 1)%Z with true;
  change (0 <=? 2)%Z with true.

Lemma suffix_loop_step (k : nat) (x c : ascii) rest e f (first : bool) :
  Path.isSlash c = false ->
  String.get k ".md" = Some x ->
  (if first then f = (-1)%Z else f <> (-1)%Z) ->
  Path.basename_suffix_loop ".md" (c :: rest)
    (Path.mkScan 0 e first (Z.of_nat k) f)
  = let i := Z.of_nat (length rest) in
    let f' := if first then (i + 1)%Z else f in
    Path.basename_suffix_loop ".md" rest
      (if Ascii.eqb c x
       then if (k =? 0)%nat
            then Path.mkScan 0 i false (-1) f'
            else Path.mkScan 0 e false (Z.of_nat k - 1) f'
       else Path.mkScan 0 f' false (-1) f').
Proof.
  intros Hc Hx Hf. cbn [Path.basename_suffix_loop]. rewrite Hc.
  destruct k as [|[|[|k]]]; simpl in Hx; try discriminate; injection Hx as <-;
    (destruct first; [subst f | ]);
    simpl; scan_arith; simpl;
    try (destruct (Z.eqb_spec f (-1)); [contradiction|]);
    simpl; scan_arith; simpl;
    match goal with
    | |- context [bool_decide (Some c = Some ?x)] =>
        destruct (Ascii.eqb_spec c x) as [->|N];
        [rewrite bool_decide_eq_true_2 by reflexivity
        |rewrite bool_decide_eq_false_2 by congruence]
    end; simpl; scan_arith; reflexivity.
Qed.

Lemma suffix_loop_md c3 c2 c1 rest :
  Path.isSlash c3 = false -> Path.isSlash c2 = false -> Path.isSlash c1 = false ->
  Forall (fun a => Path.isSlash a = false) rest ->
  Path.basename_suffix_loop ".md" (c3 :: c2 :: c1 :: rest)
    (Path.mkScan 0 (-1) true 2 (-1))
  = if Ascii.eqb c3 "d" && Ascii.eqb c2 "m" && Ascii.eqb c1 "."
    then Path.mkScan 0 (Z.of_nat (length rest)) false (-1) (Z.of_nat (length rest) + 3)
    else Path.mkScan 0 (Z.of_nat (length rest) + 3) false (-1)
           (Z.of_nat (length rest) + 3).
Proof.
  intros H3 H2 H1 Hr.
  assert (Hidle : forall l e f,
             Forall (fun a => Path.isSlash a = false) l -> (f <> -1)%Z ->
             Path.basename_suffix_loop ".md" l (Path.mkScan 0 e false (-1) f)
             = Path.mkScan 0 e false (-1) f).
  { intros l e f Hl Hf. apply suffix_loop_idle; simpl; [exact Hl | lia | exact Hf]. }
  change 2%Z with (Z.of_nat 2).
  rewrite (suffix_loop_step 2 "d" c3 (c2 :: c1 :: rest) (-1) (-1) true H3 eq_refl eq_refl).
  cbv zeta. cbn [Nat.eqb length].
  replace (Z.of_nat (S (S (length rest))) + 1)%Z
    with (Z.of_nat (length rest) + 3)%Z by lia.
  destruct (Ascii.eqb c3 "d"); cbn [andb].
  2:{ apply Hidle; [repeat constructor; assumption | lia]. }
  change (Z.of_nat 2 - 1)%Z with (Z.of_nat 1).
  rewrite (suffix_loop_step 1 "m" c2 (c1 :: rest) (-1) (Z.of_nat (length rest) + 3)
             false H2 eq_refl) by lia.
  cbv zeta. cbn [Nat.eqb].
  destruct (Ascii.eqb c2 "m"); cbn [andb].
  2:{ apply Hidle; [repeat constructor; assumption | lia]. }
  change (Z.of_nat 1 - 1)%Z with (Z.of_nat 0).
  rewrite (suffix_loop_step 0 "." c1 rest (-1) (Z.of_nat (length rest) + 3)
             false H1 eq_refl) by lia.
  cbv zeta. cbn [Nat.eqb].
  destruct (Ascii.eqb c1 "."); apply Hidle; (assumption || lia).
Qed.

Lemma basename_md_noslash name :
  lacks "/" name = true -> Path.basename name ".md" = stripMd name.
Proof.
  intros Hl. apply lacks_Forall in Hl. apply Forall_rev in Hl.
  unfold Path.basename, stripMd.
  pose proof (length_list_ascii_of_string name) as Hlen.
  rewrite <- length_rev in Hlen.
  pose proof (string_of_list_ascii_of_string name) as Hname.
  rewrite <- (rev_involutive (list_ascii_of_string name)) in Hname.
  destruct (rev (list_ascii_of_string name)) as [|c3 [|c2 [|c1 rest]]].
  - simpl in Hname. subst name. reflexivity.
  - simpl in Hname. subst name. simpl.
    inversion Hl as [|? ? H3 _]; subst. unfold Path.isSlash. rewrite H3. reflexivity.
  - simpl in Hname. subst name. simpl.
    inversion Hl as [|? ? H3 Hl']; subst. inversion Hl' as [|? ? H2 _]; subst.
    unfold Path.isSlash. rewrite H3, H2. reflexivity.
  - apply Forall_cons in Hl as [H3 Hl]. apply Forall_cons in Hl as [H2 Hl].
    apply Forall_cons in Hl as [H1 Hl1].
    simpl length in Hlen.
    change (Z.of_nat (String.length ".md") - 1)%Z with 2%Z.
    rewrite (suffix_loop_md c3 c2 c1 rest H3 H2 H1 Hl1).
    change (Z.of_nat (String.length ".md")) with 3%Z.
    replace ((0 <? 3)%Z && (3 <=? Z.of_nat (String.length name))%Z) with true
      by (symmetry; apply andb_true_iff; split; [reflexivity | apply Z.leb_le; lia]).
    assert (Hsplit : name = string_of_list_ascii (rev rest ++ [c1; c2; c3])).
    { rewrite <- Hname. simpl. now rewrite <- !app_assoc. }
    destruct (String.eqb_spec ".md" name) as [E|N].
    + assert (El : rev rest ++ [c1; c2; c3] = ["."; "m"; "d"]%char).
      { rewrite Hsplit in E. apply (f_equal list_ascii_of_string) in E.
        rewrite list_ascii_of_string_of_list_ascii in E. now rewrite <- E. }
      assert (rest = []) as ->.
      { apply (f_equal (@length ascii)) in El. rewrite length_app, length_rev in El.
        simpl in El. destruct rest; [reflexivity | simpl in El; lia]. }
      simpl in El. injection El as -> -> ->. reflexivity.
    + destruct (Ascii.eqb c3 "d" && Ascii.eqb c2 "m" && Ascii.eqb c1 ".") eqn:Em;
        cbn [Path.start Path.end_ Path.firstNonSlashEnd].
      * destruct (Z.eqb_spec 0 (Z.of_nat (length rest))) as [E0|N0].
        { exfalso. apply N. destruct rest; [|simpl in E0; lia].
          apply andb_true_iff in Em as [Em E1]. apply andb_true_iff in Em as [E3 E2].
          apply Ascii.eqb_eq in E1, E2, E3. subst. reflexivity. }
        destruct (Z.eqb_spec (Z.of_nat (length rest)) (-1)); [lia|].
        unfold Path.slice. rewrite Z.sub_0_r, Nat2Z.id.
        change (Z.to_nat 0) with 0%nat.
        rewrite Hsplit, <- (length_rev rest). apply substring_0_app.
      * destruct (Z.eqb_spec 0 (Z.of_nat (length rest) + 3)); [lia|].
        destruct (Z.eqb_spec (Z.of_nat (length rest) + 3) (-1)); [lia|].
        unfold Path.slice. rewrite Z.sub_0_r. change (Z.to_nat 0) with 0%nat.
        replace (Z.to_nat (Z.of_nat (length rest) + 3)) with (String.length name)
          by (rewrite <- Hlen; lia).
        apply substring_0_all.
Qed.

Lemma list_ascii_of_string_app s t :
  list_ascii_of_string (s +:+ t) = list_ascii_of_string s ++ list_ascii_of_string t.
Proof. induction s as [|a s IH]; simpl; [reflexivity | now rewrite IH]. Qed.

Lemma string_of_list_ascii_app l1 l2 :
  string_of_list_ascii (l1 ++ l2) = string_of_list_ascii l1 +:+ string_of_list_ascii l2.
Proof. induction l1 as [|a l1 IH]; simpl; [reflexivity | now rewrite IH]. Qed.



Lemma append_assoc (a b c : string) : (a +:+ b) +:+ c = a +:+ (b +:+ c).
Proof.
  induction a as [|x a IH]; [reflexivity|].
  change (String x ((a +:+ b) +:+ c) = String x (a +:+ (b +:+ c))).
  now rewrite IH.
Qed.


Lemma lacks_app c a b : lacks c (a +:+ b) = lacks c a && lacks c b.
Proof.
  induction a as [|x a IH]; simpl; [reflexivity|].
  rewrite IH. now rewrite andb_assoc.
Qed.

Lemma lacks_replaceAll c d by_ s :
  lacks c s = true -> lacks c by_ = true -> lacks c (replaceAll d by_ s) = true.
Proof.
  intros Hs Hb. induction s as [|x s IH]; simpl; [reflexivity|].
  simpl in Hs. apply andb_true_iff in Hs as [Hx Hs].
  destruct (Ascii.eqb x d).
  - rewrite lacks_app, Hb. now apply IH.
  - simpl. rewrite Hx. now apply IH.
Qed.

Lemma lacks_split c sep s :
  lacks c s = true -> Forall (fun x => lacks c x = true) (split sep s).
Proof.
  induction s as [|a s IH]; simpl; intros H.
  - now constructor.
  - apply andb_true_iff in H as [Ha Hs]. specialize (IH Hs).
    destruct (Ascii.eqb a sep).
    + now constructor.
    + destruct (split sep s) as [|x l]; [repeat constructor; simpl; now rewrite Ha|].
      apply Forall_cons in IH as [Hx Hl]. constructor; [|exact Hl].
      simpl. now rewrite Ha.
Qed.

Lemma lacks_join c sep l :
  lacks c sep = true -> Forall (fun x => lacks c x = true) l ->
  lacks c (join sep l) = true.
Proof.
  intros Hsep H. induction H as [|x l Hx Hl IH]; simpl; [reflexivity|].
  destruct l; [exact Hx|]. rewrite !lacks_app, Hx, Hsep. exact IH.
Qed.

Lemma lacks_niceName c name :
  lacks c " " = true -> lacks c name = true -> lacks c (AutoSidebar.niceName name) = true.
Proof.
  intros Hsp H. unfold AutoSidebar.niceName.
  destruct (isNaN_Number _); [exact H|].
  apply lacks_join; [exact Hsp|].
  pose proof (lacks_split c "-" name H) as Hf.
  destruct (split "-" name); [constructor|]. now apply Forall_cons in Hf as [_ Hf].
Qed.

Lemma lacks_stripMd c name : lacks c name = true -> lacks c (stripMd name) = true.
Proof.
  intros H. unfold stripMd.
  pose proof (string_of_list_ascii_of_string name) as Hname.
  rewrite <- (rev_involutive (list_ascii_of_string name)) in Hname.
  destruct (rev (list_ascii_of_string name)) as [|c3 [|c2 [|c1 rest]]]; try exact H.
  destruct (_ && _); [|exact H].
  rewrite <- Hname in H. simpl in H. rewrite <- !app_assoc in H.
  rewrite string_of_list_ascii_app, lacks_app in H.
  now apply andb_true_iff in H as [H _].
Qed.

(** * The tree builder *)

Lemma fsnode_nested_ind (P : fsnode -> Prop) :
  P File ->
  (forall listing, Forall (fun e => P e.2) listing -> P (Dir listing)) ->
  forall location, P location.
Proof.
  intros HF HD. fix IH 1. intros [|listing]; [exact HF|].
  apply HD. induction listing as [|[item node] listing IHl]; constructor.
  - apply IH.
  - exact IHl.
Qed.

Lemma noEmptyContainerBelow_children n p cs :
  noEmptyContainerBelow (mkEntry n p (Some cs)) <-> Forall goodChild cs.
Proof.
  unfold noEmptyContainerBelow, goodChild. simpl. rewrite Forall_forall. split.
  - intros H c Hc. split.
    + apply H. apply list_elem_of_In, in_flat_map. exists c. split.
      * now apply list_elem_of_In.
      * now left.
    + intros d Hd. apply H. apply list_elem_of_In, in_flat_map. exists c. split.
      * now apply list_elem_of_In.
      * right. now apply list_elem_of_In.
  - intros H d Hd. apply list_elem_of_In, in_flat_map in Hd as [c [Hc Hd]].
    apply list_elem_of_In in Hc. destruct (H c Hc) as [H1 H2].
    destruct Hd as [<-|Hd]; [exact H1|]. apply H2. now apply list_elem_of_In.
Qed.

Lemma forItems_builds tPath items :
  Forall (fun e => builds e.2) items ->
  forall acc, exists added,
    AutoSidebar.forItems AutoSidebar.buildTree tPath items acc = Some (acc ++ added)
    /\ (added = [] <-> existsb qualifies items = false)
    /\ Forall goodChild added.
Proof.
  induction 1 as [|[item loc] items Hloc _ IH]; intros acc.
  - exists []. rewrite app_nil_r. repeat split; constructor.
  - cbn [AutoSidebar.forItems existsb]. unfold qualifies at 1. cbn [fst snd].
    destruct (AutoSidebar.ignores item); cbn [negb andb orb]; [apply IH|].
    destruct loc as [|listing].
    + destruct (AutoSidebar.isDoc item); cbn [orb]; [|apply IH].
      destruct (IH (acc ++ [mkEntry item (tPath +:+ "/" +:+ item) None]))
        as [added [E [_ G]]].
      exists (mkEntry item (tPath +:+ "/" +:+ item) None :: added).
      rewrite E, <- app_assoc. repeat split; try discriminate.
      constructor; [|exact G]. split.
      * intros cs Hcs. discriminate.
      * intros d Hd. simpl in Hd. inversion Hd.
    + cbn [snd] in Hloc.
      destruct (Hloc item (tPath +:+ "/" +:+ item)) as [cs [E [Hnil G]]].
      rewrite E. cbn [children].
      destruct cs as [|c cs].
      * cbn [length Nat.eqb negb]. destruct Hnil as [Hnil _].
        rewrite (Hnil eq_refl). apply IH.
      * cbn [length Nat.eqb negb].
        destruct (hasDocs (Dir listing)) eqn:Ed.
        2:{ destruct Hnil as [_ Hnil]. discriminate (Hnil eq_refl). }
        cbn [orb].
        destruct (IH (acc ++ [mkEntry item (tPath +:+ "/" +:+ item) (Some (c :: cs))]))
          as [added [E' [_ G']]].
        exists (mkEntry item (tPath +:+ "/" +:+ item) (Some (c :: cs)) :: added).
        rewrite E', <- app_assoc. repeat split; try discriminate.
        constructor; [|exact G']. split.
        -- intros cs' Hcs'. injection Hcs' as <-. discriminate.
        -- now apply noEmptyContainerBelow_children.
Qed.

Lemma buildTree_builds location : builds location.
Proof.
  induction location as [|listing IH] using fsnode_nested_ind; intros name tPath.
  - reflexivity.
  - destruct (forItems_builds tPath listing IH []) as [cs [E [Hnil G]]].
    exists cs. cbn [AutoSidebar.buildTree]. rewrite E. cbn [app].
    repeat split; try exact G; apply Hnil.
Qed.


Lemma entryNames_sub item sub listing n :
  In (item, sub) listing -> In n (entryNames sub) -> In n (entryNames (Dir listing)).
Proof.
  intros Hin Hn. cbn [entryNames]. apply in_flat_map.
  exists (item, sub). split; [exact Hin | now right].
Qed.

Lemma entryNames_own item sub listing :
  In (item, sub) listing -> In item (entryNames (Dir listing)).
Proof.
  intros Hin. cbn [entryNames]. apply in_flat_map.
  exists (item, sub). split; [exact Hin | now left].
Qed.

Lemma forItems_fromListing listing tPath items :
  (forall e, In e items -> In e listing) ->
  Forall (fun e => forall name tPath root,
              AutoSidebar.buildTree e.2 name tPath = Some root ->
              Forall (fromListing e.2) (descendants root)) items ->
  forall acc cs,
    Forall (fun c => fromListing (Dir listing) c
                     /\ Forall (fromListing (Dir listing)) (descendants c)) acc ->
    AutoSidebar.forItems AutoSidebar.buildTree tPath items acc = Some cs ->
    Forall (fun c => fromListing (Dir listing) c
                     /\ Forall (fromListing (Dir listing)) (descendants c)) cs.
Proof.
  intros Hsub H. induction H as [|[item loc] items Hloc _ IH]; intros acc cs Hacc E.
  - cbn in E. now injection E as <-.
  - assert (Hin : In (item, loc) listing) by (apply Hsub; now left).
    assert (Hsub' : forall e, In e items -> In e listing)
      by (intros e He; apply Hsub; now right).
    specialize (IH Hsub').
    cbn [AutoSidebar.forItems] in E.
    destruct (AutoSidebar.ignores item) eqn:Ei; [now apply (IH acc)|].
    destruct loc as [|sub].
    + destruct (AutoSidebar.isDoc item) eqn:Ed; [|now apply (IH acc)].
      apply (IH _ cs) in E; [exact E|].
      apply Forall_app. split; [exact Hacc|]. constructor; [|constructor].
      split; [|constructor]. split.
      * apply (entryNames_own item File listing Hin).
      * intros _. cbn [name]. now split.
    + cbn [snd] in Hloc.
      destruct (AutoSidebar.buildTree (Dir sub) item (tPath +:+ "/" +:+ item))
        as [built|] eqn:Eb; [|discriminate].
      specialize (Hloc item (tPath +:+ "/" +:+ item) built Eb).
      assert (Hname : name built = item /\ isLeaf built = false).
      { cbn [AutoSidebar.buildTree] in Eb.
        destruct (AutoSidebar.forItems _ _ _ _); [|discriminate].
        now injection Eb as <-. }
      destruct (match children built with
                | Some l => negb (length l =? 0)
                | None => false
                end); [|now apply (IH acc)].
      apply (IH _ cs) in E; [exact E|].
      apply Forall_app. split; [exact Hacc|]. constructor; [|constructor].
      destruct Hname as [Hn Hl]. split.
      * split; [rewrite Hn; apply (entryNames_own item (Dir sub) listing Hin)|].
        rewrite Hl. discriminate.
      * eapply Forall_impl; [exact Hloc|].
        intros d [Hd1 Hd2]. split; [|exact Hd2].
        apply (entryNames_sub item (Dir sub) listing _ Hin Hd1).
Qed.

(** Every node below the root of a built tree comes from an entry of the
    directory, and every leaf from an entry that passes [isDoc]. *)
Lemma built_descendants location :
  forall name tPath root,
    AutoSidebar.buildTree location name tPath = Some root ->
    Forall (fromListing location) (descendants root).
Proof.
  induction location as [|listing IH] using fsnode_nested_ind;
    intros name tPath root E; [discriminate|].
  cbn [AutoSidebar.buildTree] in E.
  destruct (AutoSidebar.forItems AutoSidebar.buildTree tPath listing []) as [cs|] eqn:Ef;
    [|discriminate].
  injection E as <-.
  pose proof (forItems_fromListing listing tPath listing (fun e H => H) IH [] cs
                (List.Forall_nil _) Ef) as H.
  cbn [descendants children]. clear Ef IH.
  induction H as [|c cs [Hc Hd] _ IHcs]; cbn [flat_map]; [constructor|].
  constructor; [exact Hc|]. apply Forall_app. split; [exact Hd | exact IHcs].
Qed.



Lemma forItems_app tPath l1 l2 :
  forall acc,
    AutoSidebar.forItems AutoSidebar.buildTree tPath (l1 ++ l2) acc
    = match AutoSidebar.forItems AutoSidebar.buildTree tPath l1 acc with
      | None => None
      | Some acc' => AutoSidebar.forItems AutoSidebar.buildTree tPath l2 acc'
      end.
Proof.
  induction l1 as [|[item loc] l1 IH]; intros acc; [reflexivity|].
  cbn [app AutoSidebar.forItems].
  destruct (AutoSidebar.ignores item); [apply IH|].
  destruct loc as [|sub].
  - destruct (AutoSidebar.isDoc item); apply IH.
  - destruct (AutoSidebar.buildTree (Dir sub) item (tPath +:+ "/" +:+ item))
      as [built|]; [|reflexivity].
    destruct (match children built with
              | Some l => negb (length l =? 0)
              | None => false
              end); apply IH.
Qed.

Lemma all_build (listing : list (string * fsnode)) :
  Forall (fun e => builds e.2) listing.
Proof. apply Forall_forall. intros e _. apply buildTree_builds. Qed.

(** C6.  A file that is not ignored becomes a leaf exactly when its name
    passes [isDoc], and every name that ends in [.md] passes it.  But the
    pattern of [isDoc] is [/.md$/], whose dot stands for any character: the
    file [cmd], whose name does not end in [.md], passes it as well and
    becomes a leaf. *)
Theorem buildTree_leaf_without_md_suffix :
  (forall before item after rootName tPath,
      AutoSidebar.ignores item = false -> AutoSidebar.isDoc item = true ->
      exists cs,
        AutoSidebar.buildTree (Dir (before ++ (item, File) :: after)) rootName tPath
        = Some (mkEntry rootName tPath (Some cs))
        /\ In (mkEntry item (tPath +:+ "/" +:+ item) None) cs) /\
  (forall location rootName tPath root d,
      AutoSidebar.buildTree location rootName tPath = Some root ->
      In d (descendants root) -> isLeaf d = true ->
      AutoSidebar.ignores (name d) = false /\ AutoSidebar.isDoc (name d) = true) /\
  (forall pre, AutoSidebar.isDoc (pre +:+ ".md") = true) /\
  AutoSidebar.ignores "cmd" = false /\
  AutoSidebar.isDoc "cmd" = true /\
  (forall pre, "cmd" <> pre +:+ ".md") /\
  AutoSidebar.buildTree (Dir [("cmd", File)]) "" ""
  = Some (mkEntry "" "" (Some [mkEntry "cmd" "/cmd" None])).
Proof.
  split; [|split; [|split; [|split; [|split; [|split]]]]]; try reflexivity.
  - intros before item after rootName tPath Hi Hd.
    cbn [AutoSidebar.buildTree]. rewrite forItems_app.
    destruct (forItems_builds tPath before (all_build before) []) as [acc [E _]].
    rewrite E. cbn [app AutoSidebar.forItems]. rewrite Hi, Hd.
    destruct (forItems_builds tPath after (all_build after)
                (acc ++ [mkEntry item (tPath +:+ "/" +:+ item) None]))
      as [added [E' _]].
    rewrite E'. eexists. split; [reflexivity|].
    apply in_or_app. left. apply in_or_app. right. now left.
  - intros location rootName tPath root d E Hd Hleaf.
    pose proof (built_descendants location rootName tPath root E) as H.
    rewrite Forall_forall in H. apply list_elem_of_In in Hd.
    destruct (H d Hd) as [_ Hl]. now apply Hl.
  - intros pre. unfold AutoSidebar.isDoc. rewrite list_ascii_of_string_app.
    simpl list_ascii_of_string at 2. rewrite rev_app_distr. reflexivity.
  - intros pre E. apply (f_equal (fun s => rev (list_ascii_of_string s))) in E.
    rewrite list_ascii_of_string_app, rev_app_distr in E. discriminate E.
Qed.

Lemma buildTree_leaf_without_md_suffix_witness :
  AutoSidebar.ignores "cmd" = false /\ AutoSidebar.isDoc "cmd" = true /\
  (exists cs,
      AutoSidebar.buildTree (Dir ([("a.md", File)] ++ ("cmd", File) :: [])) "" ""
      = Some (mkEntry "" "" (Some cs))
      /\ In (mkEntry "cmd" ("" +:+ "/" +:+ "cmd") None) cs) /\
  AutoSidebar.isDoc (name (mkEntry "cmd" "/cmd" None)) = true.
Proof.
  split; [reflexivity|]. split; [reflexivity|]. split.
  - exact (proj1 buildTree_leaf_without_md_suffix [("a.md", File)] "cmd" [] "" ""
             eq_refl eq_refl).
  - apply (proj1 (proj2 buildTree_leaf_without_md_suffix) (Dir [("cmd", File)]) "" ""
             (mkEntry "" "" (Some [mkEntry "cmd" "/cmd" None]))
             (mkEntry "cmd" "/cmd" None) eq_refl); [now left | reflexivity].
Defined.

(** * The line of a leaf *)



(** * The root *)

(** C10.  The root that [buildTree] returns always has a [children] field,
    in the sidebar generator and in the earlier one; it is empty exactly
    when the directory holds no qualifying document, and the root is built
    all the same.  The text rendered for such a root is not empty: it is the
    indent of two spaces, which [map] puts before the one empty line that
    [split] makes of the empty join. *)
Theorem buildTree_root_is_container :
  (forall listing name tPath,
      exists cs,
        AutoSidebar.buildTree (Dir listing) name tPath
        = Some (mkEntry name tPath (Some cs))
        /\ (cs = [] <-> hasDocs (Dir listing) = false)) /\
  (forall location name tPath root,
      AutoSidebar.buildTree location name tPath = Some root ->
      isContainer root = true) /\
  (forall statSync_isDirectory location name tPath root,
      Index.buildTree statSync_isDirectory location name tPath = Some root ->
      isContainer root = true) /\
  (forall listing,
      hasDocs (Dir listing) = false ->
      AutoSidebar.buildTree (Dir listing) "" "" = Some (mkEntry "" "" (Some [])) /\
      AutoSidebar.main (Dir listing) = Some "  ") /\
  Index.renderToMd (mkEntry "" "" (Some [])) = "  ".
Proof.
  split; [|split; [|split; [|split]]]; try reflexivity.
  - intros listing name tPath.
    destruct (buildTree_builds (Dir listing) name tPath) as [cs [E [Hnil _]]]. eauto.
  - intros location name tPath root H.
    pose proof (buildTree_builds location name tPath) as B.
    destruct location as [|listing]; [congruence|].
    destruct B as [cs [E _]]. rewrite E in H. now injection H as <-.
  - intros stat location name tPath root H.
    destruct location as [|listing]; [discriminate|].
    cbn [Index.buildTree] in H.
    destruct (Index.forItems _ _ _ _ _); [|discriminate]. now injection H as <-.
  - intros listing Hd.
    destruct (buildTree_builds (Dir listing) "" "") as [cs [E [Hnil _]]].
    apply Hnil in Hd. subst cs. split; [exact E|].
    unfold AutoSidebar.main. rewrite E. reflexivity.
Qed.

Lemma buildTree_root_is_container_witness :
  AutoSidebar.buildTree (Dir []) "" "" = Some (mkEntry "" "" (Some [])) /\
  isContainer (mkEntry "" "" (Some [])) = true /\
  Index.buildTree (fun _ => Some false) (Dir [("logo.png", File)]) "docs" ""
  = Some (mkEntry "docs" "" (Some [])) /\
  isContainer (mkEntry "docs" "" (Some [])) = true /\
  hasDocs (Dir [("2-API", Dir []); ("logo.png", File)]) = false /\
  AutoSidebar.buildTree (Dir [("2-API", Dir []); ("logo.png", File)]) "" ""
  = Some (mkEntry "" "" (Some [])) /\
  AutoSidebar.main (Dir [("2-API", Dir []); ("logo.png", File)]) = Some "  ".
Proof.
  split; [reflexivity|]. split.
  { apply (proj1 (proj2 buildTree_root_is_container) (Dir []) "" ""). reflexivity. }
  split; [reflexivity|]. split.
  { apply (proj1 (proj2 (proj2 buildTree_root_is_container))
             (fun _ => Some false) (Dir [("logo.png", File)]) "docs" "").
    reflexivity. }
  split; [reflexivity|].
  apply (proj1 (proj2 (proj2 (proj2 buildTree_root_is_container)))
           [("2-API", Dir []); ("logo.png", File)]).
  reflexivity.
Defined.

(** The text rendered for a root without a child is not the empty text. *)
Lemma empty_root_renders_two_spaces :
  exists root,
    AutoSidebar.buildTree (Dir []) "" "" = Some root /\
    children root = Some [] /\
    AutoSidebar.renderToMd root false = "  " /\
    AutoSidebar.renderToMd root false <> "".
Proof.
  exists (mkEntry "" "" (Some [])). repeat split. discriminate.
Qed.

(** * Rendering the same tree twice *)

Lemma forItems_ignored tPath item loc before after :
  AutoSidebar.ignores item = true ->
  forall acc,
    AutoSidebar.forItems AutoSidebar.buildTree tPath (before ++ (item, loc) :: after) acc
    = AutoSidebar.forItems AutoSidebar.buildTree tPath (before ++ after) acc.
Proof.
  intros Hi acc. rewrite !forItems_app.
  destruct (AutoSidebar.forItems AutoSidebar.buildTree tPath before acc); [|reflexivity].
  cbn [AutoSidebar.forItems]. now rewrite Hi.
Qed.


(** * Folding a directory with its same-named file *)

Lemma has_Set_ l x : has (Set_ l) x = true <-> In x l.
Proof.
  unfold has, Set_. rewrite bool_decide_eq_true, elem_of_list_to_set.
  apply list_elem_of_In.
Qed.

Lemma has_Set_false l x : has (Set_ l) x = false <-> ~ In x l.
Proof.
  rewrite <- has_Set_. destruct (has (Set_ l) x); split; congruence.
Qed.



Lemma filterMap_spec render cs l :
  AutoSidebar.filterMap render cs l
  = map (fun c => render c (AutoSidebar.linked cs c))
        (List.filter (AutoSidebar.kept cs) l).
Proof.
  induction l as [|c l IH]; simpl; [reflexivity|].
  destruct (AutoSidebar.kept cs c); simpl; now rewrite IH.
Qed.

Lemma renderToMd_container tree cs linkDir :
  children tree = Some cs ->
  AutoSidebar.renderToMd tree linkDir = AutoSidebar.prefix tree linkDir +:+ content cs.
Proof.
  intros H. destruct tree as [n p ch]. simpl in H. subst ch.
  cbn [AutoSidebar.renderToMd children]. now rewrite filterMap_spec.
Qed.




(** * The file name of an API item *)

Lemma baseNameOf_snoc hierarchy h :
  baseNameOf (hierarchy ++ [h]) = addHierarchyItem (baseNameOf hierarchy) h.
Proof. unfold baseNameOf. now rewrite fold_left_app. Qed.

Lemma lacks_afterSlash c s : lacks c s = true -> lacks c (afterSlash s) = true.
Proof.
  induction s as [|a s IH]; simpl; [reflexivity|].
  intros H. apply andb_true_iff in H as [_ H].
  destruct (Ascii.eqb a "/"); [exact H | now apply IH].
Qed.

Lemma lacks_getUnscopedName c s :
  lacks c s = true -> lacks c (getUnscopedName s) = true.
Proof.
  intros H. unfold getUnscopedName.
  destruct (startsWith "@" s); [now apply lacks_afterSlash | exact H].
Qed.

Lemma lacks_decimal n : lacks "#" (decimal n) = true.
Proof.
  unfold decimal, NilZero.string_of_uint.
  assert (H : forall d, lacks "#" (NilEmpty.string_of_uint d) = true).
  { induction d; simpl; auto. }
  destruct (Nat.to_uint n); try apply H. reflexivity.
Qed.

Lemma lacks_qualifiedName h :
  lacks "#" (hDisplayName h) = true -> lacks "#" (qualifiedName h) = true.
Proof.
  intros H. unfold qualifiedName.
  destruct (hOverloadIndex h) as [n|]; [|exact H].
  destruct (0 <? n)%nat; [|exact H].
  now rewrite !lacks_app, H, lacks_decimal.
Qed.

Lemma lacks_baseNameOf hierarchy :
  Forall (fun h => isInternalKind (hKind h) = false
                   /\ lacks "#" (hDisplayName h) = true) hierarchy ->
  lacks "#" (baseNameOf hierarchy) = true.
Proof.
  induction hierarchy as [|h hierarchy IH] using rev_ind; intros H; [reflexivity|].
  apply Forall_app in H as [H Hh]. apply Forall_cons in Hh as [[Hk Hn] _].
  specialize (IH H). rewrite baseNameOf_snoc. unfold addHierarchyItem.
  destruct (hKind h); try discriminate Hk; try exact IH;
    try (rewrite !lacks_app, IH, lacks_qualifiedName by exact Hn; reflexivity).
  now apply lacks_getUnscopedName.
Qed.




(** * The pages of the documenter *)

Lemma bind_Done_nil {A B} (a : A) (k : A -> result B) : bind (Done [] a) k = k a.
Proof. unfold bind. destruct (k a); reflexivity. Qed.

Lemma writeApiItem_eq hierarchy apiItem output :
  writeApiItem hierarchy apiItem output
  = bind (writeHeading apiItem output) (fun output =>
      let output := writeDescription apiItem output in
      bind (writeTables writeApiItem hierarchy apiItem output) (fun output =>
        ret (writeExamples apiItem output))).
Proof. destruct apiItem; reflexivity. Qed.

Lemma extends_refl output : extends output output.
Proof. exists []. now rewrite app_nil_r. Qed.

Lemma extends_app output l : extends output (output ++ l).
Proof. now exists l. Qed.

Lemma extends_trans o1 o2 o3 : extends o1 o2 -> extends o2 o3 -> extends o1 o3.
Proof. intros [l1 ->] [l2 ->]. exists (l1 ++ l2). now rewrite app_assoc. Qed.

Lemma extends_In o1 o2 (x : DocNode) : extends o1 o2 -> In x o1 -> In x o2.
Proof. intros [l ->] H. apply in_or_app. now left. Qed.

Lemma writeDescription_extends apiItem output :
  extends output (writeDescription apiItem output).
Proof.
  unfold writeDescription.
  repeat match goal with
         | |- extends _ (match ?x with _ => _ end) => destruct x
         | |- extends _ (if ?x then _ else _) => destruct x
         | |- extends ?o (?o' ++ _) =>
             apply (extends_trans o o'); [|apply extends_app]
         | |- extends ?o (writeBetaWarning ?o') =>
             apply (extends_trans o o'); [|apply extends_app]
         | |- extends ?o ?o => apply extends_refl
         end.
Qed.

Lemma exampleLoop_extends many blocks number output :
  extends output (exampleLoop many blocks number output).
Proof.
  revert number output. induction blocks as [|b blocks IH]; intros number output; simpl.
  - apply extends_refl.
  - eapply extends_trans; [|apply IH].
    eapply extends_trans; apply extends_app.
Qed.

Lemma writeExamples_extends apiItem output :
  extends output (writeExamples apiItem output).
Proof.
  unfold writeExamples. destruct (tsdocComment apiItem);
    [apply exampleLoop_extends | apply extends_refl].
Qed.

Lemma writeParameterTables_extends apiItem output :
  extends output (writeParameterTables output apiItem).
Proof.
  unfold writeParameterTables.
  repeat match goal with
         | |- extends _ (match ?x with _ => _ end) => destruct x
         | |- extends _ (if ?x then _ else _) => destruct x
         | |- extends ?o (?o' ++ _) =>
             apply (extends_trans o o'); [|apply extends_app]
         | |- extends ?o ?o => apply extends_refl
         end.
Qed.

(** A method or property-like item is rendered without a file and without
    an exception; its heading of level 3 is appended. *)
Lemma writeApiItem_internal hierarchy m output :
  isInternalKind (kind m) = true ->
  exists output',
    writeApiItem hierarchy m output = Done [] output'
    /\ extends (output ++ [memberHeading m]) output'.
Proof.
  intros Hk. rewrite writeApiItem_eq. unfold writeHeading, writeTables, memberHeading.
  destruct (kind m); try discriminate Hk; cbn [isInternalKind];
    unfold ret; rewrite !bind_Done_nil; cbv zeta; rewrite ?bind_Done_nil;
    eexists; (split; [reflexivity|]);
    repeat first
      [ apply extends_refl
      | eapply extends_trans; [|apply writeExamples_extends]
      | eapply extends_trans; [|apply writeParameterTables_extends]
      | eapply extends_trans; [|apply writeDescription_extends] ].
Qed.

Lemma writeApiItemPage_internal hierarchy m :
  isInternalKind (kind m) = true ->
  writeApiItemPage writeApiItem hierarchy m = Done [] tt.
Proof.
  intros Hk. unfold writeApiItemPage.
  destruct (writeApiItem_internal hierarchy m (writeBreadcrumb [] hierarchy) Hk)
    as [output' [E _]].
  rewrite E, bind_Done_nil, Hk. reflexivity.
Qed.

Lemma internal_cases m :
  isInternalKind (kind m) = true ->
  isEvent m = true \/ isProperty m = true \/ isMethod m = true.
Proof.
  unfold isEvent, isProperty, isMethod.
  destruct (kind m); try discriminate; intros _; cbn;
    destruct (isEventProperty m); auto.
Qed.

Lemma pushed_internal m :
  isEvent m = true \/ isProperty m = true \/ isMethod m = true ->
  isInternalKind (kind m) = true.
Proof.
  unfold isEvent, isProperty, isMethod.
  destruct (kind m); cbn; intros [H|[H|H]]; try discriminate; reflexivity.
Qed.

Lemma filter_length_pos {A} (p : A -> bool) l x :
  In x l -> p x = true -> (0 <? length (List.filter p l))%nat = true.
Proof.
  intros Hin Hp. apply Nat.ltb_lt.
  assert (H : In x (List.filter p l)) by (apply filter_In; auto).
  destruct (List.filter p l); [contradiction | simpl; lia].
Qed.

Lemma interfaceMembersLoop_done classHierarchy apiMembers t :
  exists t',
    interfaceMembersLoop writeApiItem classHierarchy apiMembers t = Done [] t'
    /\ length (eventsTable t')
       = (length (eventsTable t) + length (List.filter isEvent apiMembers))%nat
    /\ length (propertiesTable t')
       = (length (propertiesTable t) + length (List.filter isProperty apiMembers))%nat
    /\ length (methodsTable t')
       = (length (methodsTable t) + length (List.filter isMethod apiMembers))%nat.
Proof.
  revert t. induction apiMembers as [|m ms IH]; intros t.
  - exists t. cbn. repeat split; lia.
  - cbn [interfaceMembersLoop List.filter].
    assert (Hev : isEvent m = isPropertyKind (kind m) && isEventProperty m)
      by reflexivity.
    assert (Hpr : isProperty m = isPropertyKind (kind m) && negb (isEventProperty m))
      by reflexivity.
    assert (Hme : isMethod m = isMethodKind (kind m)) by reflexivity.
    destruct (kind m) eqn:Ek; cbn [isPropertyKind isMethodKind andb] in Hev, Hpr, Hme;
      rewrite Hev, Hpr, Hme;
      try (destruct (IH t) as [t' [E [H1 [H2 H3]]]]; exists t';
           now repeat split);
      rewrite writeApiItemPage_internal by (rewrite Ek; reflexivity);
      rewrite bind_Done_nil;
      match goal with
      | |- context [interfaceMembersLoop _ _ ms ?t0] =>
          destruct (IH t0) as [t' [E [H1 [H2 H3]]]]
      end;
      exists t'; destruct (isEventProperty m);
      cbn [eventsTable propertiesTable methodsTable negb] in H1, H2, H3;
      (split; [exact E|]);
      repeat match goal with
             | H : context [length (_ ++ _)] |- _ => rewrite length_app in H
             end;
      cbn [length negb] in *; repeat split; lia.
Qed.

Lemma inlineLoop_done pushed classHierarchy apiMembers output :
  (forall m, pushed m = true -> isInternalKind (kind m) = true) ->
  exists output',
    inlineLoop writeApiItem pushed classHierarchy apiMembers output = Done [] output'
    /\ extends output output'
    /\ forall m, In m apiMembers -> pushed m = true -> In (memberHeading m) output'.
Proof.
  intros Hp. revert output.
  induction apiMembers as [|m ms IH]; intros output.
  - exists output. repeat split; [apply extends_refl | contradiction].
  - cbn [inlineLoop]. destruct (pushed m) eqn:Em.
    + destruct (writeApiItem_internal (classHierarchy ++ [hierarchyItem m]) m output
                  (Hp m Em)) as [o1 [E1 X1]].
      rewrite E1, bind_Done_nil.
      destruct (IH o1) as [o2 [E2 [X2 H2]]].
      exists o2. split; [exact E2|]. split.
      * eapply extends_trans; [|exact X2].
        eapply extends_trans; [apply extends_app | exact X1].
      * intros m' [<-|Hin] Hm'; [|now apply H2].
        apply (extends_In o1 o2 _ X2). apply (extends_In _ o1 _ X1).
        apply in_or_app. right. now left.
    + destruct (IH output) as [o2 [E2 [X2 H2]]].
      exists o2. repeat split; try assumption.
      intros m' [<-|Hin] Hm'; [congruence | now apply H2].
Qed.

Lemma writeInterfaceTables_done output hierarchy apiClass :
  exists output',
    writeInterfaceTables writeApiItem output hierarchy apiClass = Done [] output'
    /\ extends output output'
    /\ forall m, In m (members apiClass) -> isInternalKind (kind m) = true ->
                 In (memberHeading m) output'.
Proof.
  unfold writeInterfaceTables.
  destruct (interfaceMembersLoop_done hierarchy (members apiClass)
              (mkInterfaceTables [] [] [])) as [t [E [He [Hp Hm]]]].
  rewrite E, bind_Done_nil. cbn in He, Hp, Hm.
  (* events *)
  assert (S1 : exists o1,
             (if (0 <? length (eventsTable t))%nat
              then inlineLoop writeApiItem isEvent hierarchy (members apiClass)
                     ((output ++ [DocHeading "Events" None])
                      ++ [DocTable ["Property"; "Type"; "Description"] (eventsTable t)])
              else ret output) = Done [] o1
             /\ extends output o1
             /\ forall m, In m (members apiClass) -> isEvent m = true ->
                          In (memberHeading m) o1).
  { destruct (0 <? length (eventsTable t))%nat eqn:E0.
    - destruct (inlineLoop_done isEvent hierarchy (members apiClass)
                  ((output ++ [DocHeading "Events" None])
                   ++ [DocTable ["Property"; "Type"; "Description"] (eventsTable t)]))
        as [o1 [E1 [X1 H1]]].
      { intros m H. apply pushed_internal. auto. }
      exists o1. repeat split; try assumption.
      eapply extends_trans; [|exact X1].
      eapply extends_trans; apply extends_app.
    - exists output. repeat split; [apply extends_refl|].
      intros m Hin Hev. rewrite He, (filter_length_pos isEvent _ m Hin Hev) in E0.
      discriminate. }
  destruct S1 as [o1 [E1 [X1 H1]]]. rewrite E1, bind_Done_nil.
  (* properties *)
  assert (S2 : exists o2,
             (if (0 <? length (propertiesTable t))%nat
              then inlineLoop writeApiItem isProperty hierarchy (members apiClass)
                     ((o1 ++ [DocHeading "Properties" None])
                      ++ [DocTable ["Property"; "Type"; "Description"]
                            (propertiesTable t)])
              else ret o1) = Done [] o2
             /\ extends o1 o2
             /\ forall m, In m (members apiClass) -> isProperty m = true ->
                          In (memberHeading m) o2).
  { destruct (0 <? length (propertiesTable t))%nat eqn:E0.
    - destruct (inlineLoop_done isProperty hierarchy (members apiClass)
                  ((o1 ++ [DocHeading "Properties" None])
                   ++ [DocTable ["Property"; "Type"; "Description"]
                         (propertiesTable t)]))
        as [o2 [E2 [X2 H2]]].
      { intros m H. apply pushed_internal. auto. }
      exists o2. repeat split; try assumption.
      eapply extends_trans; [|exact X2].
      eapply extends_trans; apply extends_app.
    - exists o1. repeat split; [apply extends_refl|].
      intros m Hin Hev. rewrite Hp, (filter_length_pos isProperty _ m Hin Hev) in E0.
      discriminate. }
  destruct S2 as [o2 [E2 [X2 H2]]]. rewrite E2, bind_Done_nil.
  (* methods *)
  assert (S3 : exists o3,
             (if (0 <? length (methodsTable t))%nat
              then inlineLoop writeApiItem isMethod hierarchy (members apiClass)
                     ((o2 ++ [DocHeading "Methods" None])
                      ++ [DocTable ["Method"; "Description"] (methodsTable t)])
              else ret o2) = Done [] o3
             /\ extends o2 o3
             /\ forall m, In m (members apiClass) -> isMethod m = true ->
                          In (memberHeading m) o3).
  { destruct (0 <? length (methodsTable t))%nat eqn:E0.
    - destruct (inlineLoop_done isMethod hierarchy (members apiClass)
                  ((o2 ++ [DocHeading "Methods" None])
                   ++ [DocTable ["Method"; "Description"] (methodsTable t)]))
        as [o3 [E3 [X3 H3]]].
      { intros m H. apply pushed_internal. auto. }
      exists o3. repeat split; try assumption.
      eapply extends_trans; [|exact X3].
      eapply extends_trans; apply extends_app.
    - exists o2. repeat split; [apply extends_refl|].
      intros m Hin Hev. rewrite Hm, (filter_length_pos isMethod _ m Hin Hev) in E0.
      discriminate. }
  destruct S3 as [o3 [E3 [X3 H3]]].
  exists o3. split; [exact E3|]. split.
  - eapply extends_trans; [exact X1|]. eapply extends_trans; [exact X2 | exact X3].
  - intros m Hin Hk. destruct (internal_cases m Hk) as [Hc|[Hc|Hc]].
    + apply (extends_In o2 o3 _ X3), (extends_In o1 o2 _ X2). now apply H1.
    + apply (extends_In o2 o3 _ X3). now apply H2.
    + now apply H3.
Qed.

(** C2, as the code has it.  A class and an interface go through the same
    [_writeInterfaceTables].  The page of either is written as one file and
    nothing else is: a method or property-like member is rendered for a page
    of its own, but no file is written for it, and the member is rendered
    once more on the page of the class or interface, where its heading of
    level 3 stands.  The run on the example model writes the pages of the
    class, of the interface, of the two functions and of the package; on
    the page of the interface [Shape], the method [area] follows the table
    of the methods. *)
Theorem class_and_interface_pages (hierarchy : list HierarchyItem) (apiItem : ApiItem) :
  kind apiItem = KClass \/ kind apiItem = KInterface ->
  (forall output,
      writeTables writeApiItem hierarchy apiItem output
      = writeInterfaceTables writeApiItem output hierarchy apiItem) /\
  (exists page,
      writeApiItemPage writeApiItem hierarchy apiItem
      = Done [mkOutputFile (getFilenameForApiItem hierarchy) page] tt
      /\ forall m,
          In m (members apiItem) -> isInternalKind (kind m) = true ->
          In (DocHeading (displayName m) (Some 3%nat)) page
          /\ writeApiItemPage writeApiItem (hierarchy ++ [hierarchyItem m]) m
             = Done [] tt) /\
  map filename (writtenBy (generateFiles acmeModel))
  = ["acme/Widget.md"; "acme/Shape.md"; "acme/make.md"; "acme/make_1.md"; "acme.md"] /\
  pageOf "acme/Shape.md" (writtenBy (generateFiles acmeModel))
  = Some
      [DocParagraph
         [DocLinkTag "Home" (Literal "/"); DocPlainText " > ";
          DocLinkTag "acme" (Relative "acme/Shape.md" "acme.md");
          DocPlainText " > ";
          DocLinkTag "Shape" (Relative "acme/Shape.md" "acme/Shape.md")];
       DocHeading "Shape interface" None;
       DocHeading "Methods" None;
       DocTable ["Method"; "Description"]
         [[[DocParagraph
              [DocLinkTag "area()" (Relative "acme/Shape.md" "acme/Shape.md#area")]];
           []]];
       DocHeading "area" (Some 3%nat);
       DocParagraph [DocEmphasisSpan true false [DocPlainText "Signature:"]];
       DocFencedCode "area(): void" "typescript";
       DocParagraph [DocEmphasisSpan true false [DocPlainText "Returns:"]];
       DocParagraph [DocCodeSpan "void"]].
Proof.
  intros Hk. split; [|split; [|split; reflexivity]].
  - intros output. unfold writeTables. destruct Hk as [-> | ->]; reflexivity.
  - unfold writeApiItemPage. rewrite writeApiItem_eq.
    assert (Hh : exists title,
               writeHeading apiItem (writeBreadcrumb [] hierarchy)
               = Done [] (writeBreadcrumb [] hierarchy ++ [DocHeading title None])).
    { unfold writeHeading. destruct Hk as [-> | ->]; eexists; reflexivity. }
    destruct Hh as [title ->]. rewrite bind_Done_nil. cbv zeta.
    assert (Ht : forall output,
               writeTables writeApiItem hierarchy apiItem output
               = writeInterfaceTables writeApiItem output hierarchy apiItem).
    { intros output. unfold writeTables. destruct Hk as [-> | ->]; reflexivity. }
    rewrite Ht.
    destruct (writeInterfaceTables_done
                (writeDescription apiItem
                   (writeBreadcrumb [] hierarchy ++ [DocHeading title None]))
                hierarchy apiItem) as [o [E [_ Hm]]].
    rewrite E, !bind_Done_nil.
    replace (negb (isInternalKind (kind apiItem))) with true
      by (destruct Hk as [-> | ->]; reflexivity).
    exists (writeExamples apiItem o). split; [reflexivity|].
    intros m Hin Hint. split.
    + apply (extends_In o _ _ (writeExamples_extends apiItem o)). now apply Hm.
    + now apply writeApiItemPage_internal.
Qed.

Lemma class_and_interface_pages_witness :
  kind widgetClass = KClass /\
  (exists page,
      writeApiItemPage writeApiItem acmeWidget widgetClass
      = Done [mkOutputFile (getFilenameForApiItem acmeWidget) page] tt
      /\ forall m,
          In m (members widgetClass) -> isInternalKind (kind m) = true ->
          In (DocHeading (displayName m) (Some 3%nat)) page
          /\ writeApiItemPage writeApiItem (acmeWidget ++ [hierarchyItem m]) m
             = Done [] tt).
Proof.
  split; [reflexivity|].
  exact (proj1 (proj2 (class_and_interface_pages acmeWidget widgetClass
                         (or_introl eq_refl)))).
Defined.

(** The methods and the property of the class [Widget] get no file, and the
    heading of [render] stands on the page of the class. *)
Lemma class_member_gets_no_file :
  kind widgetClass = KClass /\
  In (callableItem KMethod "render" 0) (members widgetClass) /\
  map filename (writtenBy (generateFiles acmeModel))
  = ["acme/Widget.md"; "acme/Shape.md"; "acme/make.md"; "acme/make_1.md"; "acme.md"] /\
  writeApiItemPage writeApiItem
    (acmeWidget ++ [hierarchyItem (callableItem KMethod "render" 0)])
    (callableItem KMethod "render" 0)
  = Done [] tt /\
  pageOf "acme/Widget.md" (writtenBy (generateFiles acmeModel))
  = Some
      [DocParagraph
         [DocLinkTag "Home" (Literal "/"); DocPlainText " > ";
          DocLinkTag "acme" (Relative "acme/Widget.md" "acme.md");
          DocPlainText " > ";
          DocLinkTag "Widget" (Relative "acme/Widget.md" "acme/Widget.md")];
       DocHeading "Widget class" None;
       DocHeading "Properties" None;
       DocTable ["Property"; "Type"; "Description"]
         [[[DocParagraph
              [DocLinkTag "size" (Relative "acme/Widget.md" "acme/Widget.md#size")]];
           []; []]];
       DocHeading "size" (Some 3%nat);
       DocHeading "Methods" None;
       DocTable ["Method"; "Description"]
         [[[DocParagraph
              [DocLinkTag "render()"
                 (Relative "acme/Widget.md" "acme/Widget.md#render")]];
           []];
          [[DocParagraph
              [DocLinkTag "render()"
                 (Relative "acme/Widget.md" "acme/Widget.md#render")]];
           []]];
       DocHeading "render" (Some 3%nat);
       DocParagraph [DocEmphasisSpan true false [DocPlainText "Signature:"]];
       DocFencedCode "render(): void" "typescript";
       DocParagraph [DocEmphasisSpan true false [DocPlainText "Returns:"]];
       DocParagraph [DocCodeSpan "void"];
       DocHeading "render" (Some 3%nat);
       DocParagraph [DocEmphasisSpan true false [DocPlainText "Signature:"]];
       DocFencedCode "render(): void" "typescript";
       DocParagraph [DocEmphasisSpan true false [DocPlainText "Returns:"]];
       DocParagraph [DocCodeSpan "void"]].
Proof.
  split; [reflexivity|]. split; [right; now left|].
  split; [reflexivity|]. split; reflexivity.
Qed.

(** * Kinds outside the supported set *)

Lemma packageMembersLoop_skip containerHierarchy parents before m after :
  isSupportedKind (kind m) = false ->
  forall t,
    packageMembersLoop writeApiItem containerHierarchy parents (before ++ m :: after) t
    = packageMembersLoop writeApiItem containerHierarchy parents (before ++ after) t.
Proof.
  intros Hk. induction before as [|a before IH]; intros t.
  - cbn [app packageMembersLoop]. destruct (kind m); try discriminate Hk; reflexivity.
  - cbn [app packageMembersLoop].
    destruct (kind a); try apply IH;
      destruct (writeApiItemPage writeApiItem (parents ++ [hierarchyItem a]) a);
      cbn [bind]; try reflexivity; now rewrite IH.
Qed.

Lemma interfaceMembersLoop_skip classHierarchy before m after :
  isInternalKind (kind m) = false ->
  forall t,
    interfaceMembersLoop writeApiItem classHierarchy (before ++ m :: after) t
    = interfaceMembersLoop writeApiItem classHierarchy (before ++ after) t.
Proof.
  intros Hk. induction before as [|a before IH]; intros t.
  - cbn [app interfaceMembersLoop]. destruct (kind m); try discriminate Hk; reflexivity.
  - cbn [app interfaceMembersLoop].
    destruct (kind a); try apply IH;
      destruct (writeApiItemPage writeApiItem (classHierarchy ++ [hierarchyItem a]) a);
      cbn [bind]; try reflexivity; now rewrite IH.
Qed.

Lemma inlineLoop_skip pushed classHierarchy before m after :
  pushed m = false ->
  forall output,
    inlineLoop writeApiItem pushed classHierarchy (before ++ m :: after) output
    = inlineLoop writeApiItem pushed classHierarchy (before ++ after) output.
Proof.
  intros Hp. induction before as [|a before IH]; intros output.
  - cbn [app inlineLoop]. now rewrite Hp.
  - cbn [app inlineLoop]. destruct (pushed a); [|apply IH].
    destruct (writeApiItem (classHierarchy ++ [hierarchyItem a]) a output);
      cbn [bind]; try reflexivity; now rewrite IH.
Qed.

Lemma writeInterfaceTables_skip output hierarchy apiClass before m after :
  isInternalKind (kind m) = false ->
  members apiClass = before ++ m :: after ->
  writeInterfaceTables writeApiItem output hierarchy apiClass
  = writeInterfaceTables writeApiItem output hierarchy
      (withMembers apiClass (before ++ after)).
Proof.
  intros Hk Hm. unfold writeInterfaceTables. cbn [withMembers members]. rewrite Hm.
  assert (He : isEvent m = false).
  { unfold isEvent. destruct (kind m); try discriminate Hk; reflexivity. }
  assert (Hp : isProperty m = false).
  { unfold isProperty. destruct (kind m); try discriminate Hk; reflexivity. }
  assert (Hme : isMethod m = false).
  { unfold isMethod. destruct (kind m); try discriminate Hk; reflexivity. }
  rewrite (interfaceMembersLoop_skip hierarchy before m after Hk).
  destruct (interfaceMembersLoop writeApiItem hierarchy (before ++ after) _)
    as [w t|w e]; [|reflexivity].
  cbn [bind].
  rewrite (inlineLoop_skip isEvent hierarchy before m after He).
  destruct (if (0 <? length (eventsTable t))%nat then _ else _) as [w1 o1|w1 e1];
    [|reflexivity].
  cbn [bind].
  rewrite (inlineLoop_skip isProperty hierarchy before m after Hp).
  destruct (if (0 <? length (propertiesTable t))%nat then _ else _) as [w2 o2|w2 e2];
    [|reflexivity].
  cbn [bind].
  now rewrite (inlineLoop_skip isMethod hierarchy before m after Hme).
Qed.

(** C5, as the code has it.  [_writeApiItem], and with it
    [_writeApiItemPage], throws for an item whose kind is outside the
    supported set, before anything is written, with a message that names the
    kind.  The loops over the members of a package, a namespace, a class or
    an interface never hand such an item to it: their [switch] has no
    default branch, and a member of such a kind gets no row and no page.
    The page of a class, an interface or a namespace, and the run on a
    package, are those of the same model without that member; so the run on
    the example model, whose class has a constructor, ends without an
    exception. *)
Theorem unsupported_kind_throws_or_is_skipped :
  (forall hierarchy apiItem output,
      isSupportedKind (kind apiItem) = false ->
      writeApiItem hierarchy apiItem output
      = Thrown [] ("Unsupported API item kind: " +:+ kindName (kind apiItem))) /\
  (forall hierarchy apiItem,
      isSupportedKind (kind apiItem) = false ->
      writeApiItemPage writeApiItem hierarchy apiItem
      = Thrown [] ("Unsupported API item kind: " +:+ kindName (kind apiItem))) /\
  (forall hierarchy apiItem before m after output,
      isSupportedKind (kind m) = false ->
      kind apiItem = KClass \/ kind apiItem = KInterface \/ kind apiItem = KNamespace ->
      members apiItem = before ++ m :: after ->
      writeApiItem hierarchy apiItem output
      = writeApiItem hierarchy (withMembers apiItem (before ++ after)) output) /\
  (forall hierarchy apiPackage entryPoint others before m after output,
      isSupportedKind (kind m) = false ->
      kind apiPackage = KPackage ->
      members apiPackage = entryPoint :: others ->
      members entryPoint = before ++ m :: after ->
      writeApiItem hierarchy apiPackage output
      = writeApiItem hierarchy
          (withMembers apiPackage (withMembers entryPoint (before ++ after) :: others))
          output) /\
  generateFiles acmeModel
  = Done (writtenBy (generateFiles acmeModel)) tt.
Proof.
  assert (Hthrow : forall hierarchy apiItem output,
             isSupportedKind (kind apiItem) = false ->
             writeApiItem hierarchy apiItem output
             = Thrown [] ("Unsupported API item kind: " +:+ kindName (kind apiItem))).
  { intros hierarchy apiItem output Hk. rewrite writeApiItem_eq. unfold writeHeading.
    destruct (kind apiItem); try discriminate Hk; reflexivity. }
  split; [exact Hthrow|]. split; [|split; [|split; [|reflexivity]]].
  - intros hierarchy apiItem Hk. unfold writeApiItemPage.
    now rewrite (Hthrow hierarchy apiItem _ Hk).
  - intros hierarchy apiItem before m after output Hk Hkind Hm.
    assert (Hint : isInternalKind (kind m) = false).
    { destruct (kind m); try discriminate Hk; reflexivity. }
    rewrite !writeApiItem_eq.
    change (writeHeading (withMembers apiItem (before ++ after)))
      with (writeHeading apiItem).
    destruct (writeHeading apiItem output) as [w o|w e]; [|reflexivity].
    cbn [bind].
    change (writeDescription (withMembers apiItem (before ++ after)))
      with (writeDescription apiItem).
    change (writeExamples (withMembers apiItem (before ++ after)))
      with (writeExamples apiItem).
    replace (writeTables writeApiItem hierarchy (withMembers apiItem (before ++ after))
               (writeDescription apiItem o))
      with (writeTables writeApiItem hierarchy apiItem (writeDescription apiItem o));
      [reflexivity|].
    unfold writeTables. cbn [withMembers kind].
    destruct Hkind as [Ek|[Ek|Ek]]; rewrite Ek.
    + now apply (writeInterfaceTables_skip _ hierarchy apiItem before m after).
    + now apply (writeInterfaceTables_skip _ hierarchy apiItem before m after).
    + unfold writePackageOrNamespaceTables. cbn [withMembers kind members].
      rewrite Ek, Hm. now rewrite (packageMembersLoop_skip hierarchy hierarchy before m after Hk).
  - intros hierarchy apiPackage entryPoint others before m after output Hk Ek Hm Hep.
    rewrite !writeApiItem_eq.
    change (writeHeading (withMembers apiPackage
                            (withMembers entryPoint (before ++ after) :: others)))
      with (writeHeading apiPackage).
    destruct (writeHeading apiPackage output) as [w o|w e]; [|reflexivity].
    cbn [bind].
    change (writeDescription (withMembers apiPackage
                                (withMembers entryPoint (before ++ after) :: others)))
      with (writeDescription apiPackage).
    change (writeExamples (withMembers apiPackage
                             (withMembers entryPoint (before ++ after) :: others)))
      with (writeExamples apiPackage).
    replace (writeTables writeApiItem hierarchy
               (withMembers apiPackage
                  (withMembers entryPoint (before ++ after) :: others))
               (writeDescription apiPackage o))
      with (writeTables writeApiItem hierarchy apiPackage (writeDescription apiPackage o));
      [reflexivity|].
    unfold writeTables. cbn [withMembers kind]. rewrite Ek.
    unfold writePackageOrNamespaceTables. cbn [withMembers kind members].
    rewrite Ek, Hm, Hep.
    change (hierarchyItem (withMembers entryPoint (before ++ after)))
      with (hierarchyItem entryPoint).
    now rewrite (packageMembersLoop_skip hierarchy _ before m after Hk).
Qed.

Lemma unsupported_kind_throws_or_is_skipped_witness :
  let constructor := callableItem KConstructor "(constructor)" 0 in
  let enumMember := plainItem KEnumMember "Red" [] in
  let entryPoint := plainItem KEntryPoint "" [enumMember; widgetClass] in
  let package := plainItem KPackage "acme" [entryPoint] in
  isSupportedKind (kind constructor) = false /\
  writeApiItem (acmeWidget ++ [hierarchyItem constructor]) constructor []
  = Thrown [] "Unsupported API item kind: Constructor" /\
  writeApiItemPage writeApiItem (acmeWidget ++ [hierarchyItem constructor]) constructor
  = Thrown [] "Unsupported API item kind: Constructor" /\
  kind widgetClass = KClass /\
  members widgetClass = [] ++ constructor :: tl (members widgetClass) /\
  writeApiItem acmeWidget widgetClass []
  = writeApiItem acmeWidget (withMembers widgetClass ([] ++ tl (members widgetClass))) [] /\
  isSupportedKind (kind enumMember) = false /\
  kind package = KPackage /\
  members package = entryPoint :: [] /\
  members entryPoint = [] ++ enumMember :: [widgetClass] /\
  writeApiItem (firstn 2 acmeWidget) package []
  = writeApiItem (firstn 2 acmeWidget)
      (withMembers package (withMembers entryPoint ([] ++ [widgetClass]) :: [])) [].
Proof.
  intros constructor enumMember entryPoint package.
  destruct unsupported_kind_throws_or_is_skipped as [Hthrow [Hpage [Hskip [Hpkg _]]]].
  split; [reflexivity|].
  split; [exact (Hthrow (acmeWidget ++ [hierarchyItem constructor]) constructor []
                   eq_refl)|].
  split; [exact (Hpage (acmeWidget ++ [hierarchyItem constructor]) constructor
                   eq_refl)|].
  split; [reflexivity|]. split; [reflexivity|].
  split; [exact (Hskip acmeWidget widgetClass [] constructor (tl (members widgetClass)) []
                   eq_refl (or_introl eq_refl) eq_refl)|].
  split; [reflexivity|]. split; [reflexivity|]. split; [reflexivity|].
  split; [reflexivity|].
  exact (Hpkg (firstn 2 acmeWidget) package entryPoint [] [] enumMember [widgetClass] []
           eq_refl eq_refl eq_refl eq_refl).
Defined.

(** The constructor of the class [Widget] is of a kind outside the supported
    set; the run ends without an exception, and writes what it writes for
    the model without the constructor. *)
Lemma constructor_is_skipped_silently :
  let constructor := callableItem KConstructor "(constructor)" 0 in
  let widgetWithout := withMembers widgetClass (tl (members widgetClass)) in
  let modelWithout :=
    plainItem KModel ""
      [plainItem KPackage "acme"
         [plainItem KEntryPoint ""
            [widgetWithout;
             plainItem KInterface "Shape" [callableItem KMethodSignature "area" 0];
             callableItem KFunction "make" 0;
             callableItem KFunction "make" 1]]] in
  isSupportedKind (kind constructor) = false /\
  In constructor (members widgetClass) /\
  (exists files,
      generateFiles acmeModel = Done files tt /\
      map filename files
      = ["acme/Widget.md"; "acme/Shape.md"; "acme/make.md"; "acme/make_1.md"; "acme.md"]) /\
  generateFiles acmeModel = generateFiles modelWithout.
Proof.
  split; [reflexivity|]. split; [now left|]. split; [|reflexivity].
  eexists. split; reflexivity.
Qed.

(** * The scenario of the sidebar, and the earlier generator *)

(** The sidebar of [1-Guides/intro.md], the empty [2-API] and [notes.md]:
    the lines of the root's children carry the indent of two spaces. *)
Example sidebar_scenario :
  AutoSidebar.main
    (Dir [("1-Guides", Dir [("intro.md", File)]); ("2-API", Dir []); ("notes.md", File)])
  = Some ("  - Guides" +:+ nl +:+ "    - [intro](/1-Guides/intro.md)" +:+ nl
          +:+ "  - [notes](/notes.md)").
Proof. reflexivity. Qed.

(** The earlier generator has no test on the children of a directory: a
    directory without documents stays in its tree as an empty container. *)
Example Index_keeps_empty_directory :
  Index.buildTree (fun _ => Some true) (Dir [("2-API", Dir [])]) "" ""
  = Some (mkEntry "" "" (Some [mkEntry "2-API" "/2-API" (Some [])])).
Proof. reflexivity. Qed.

(** The earlier generator labels a leaf with the name up to its first dot,
    without normalisation. *)
Example Index_leaf_label :
  Index.renderToMd (mkEntry "1-a.b.md" "/1-a.b.md" None) = "- [1-a](/1-a.b.md)" /\
  AutoSidebar.renderToMd (mkEntry "1-a.b.md" "/1-a.b.md" None) false
  = "- [a.b](/1-a.b.md)".
Proof. split; reflexivity. Qed.

(** * Further properties of the tree builder *)

Lemma forItems_invariant (R : Entry -> Prop) tPath items :
  (forall item, In (item, File) items ->
      AutoSidebar.ignores item = false -> AutoSidebar.isDoc item = true ->
      R (mkEntry item (tPath +:+ "/" +:+ item) None)) ->
  (forall item sub cs, In (item, Dir sub) items ->
      AutoSidebar.ignores item = false ->
      AutoSidebar.buildTree (Dir sub) item (tPath +:+ "/" +:+ item)
      = Some (mkEntry item (tPath +:+ "/" +:+ item) (Some cs)) ->
      cs <> [] ->
      R (mkEntry item (tPath +:+ "/" +:+ item) (Some cs))) ->
  forall acc cs,
    Forall R acc ->
    AutoSidebar.forItems AutoSidebar.buildTree tPath items acc = Some cs ->
    Forall R cs.
Proof.
  induction items as [|[item loc] items IH]; intros HF HD acc cs Hacc E.
  - cbn in E. now injection E as <-.
  - assert (IH' : forall acc cs, Forall R acc ->
              AutoSidebar.forItems AutoSidebar.buildTree tPath items acc = Some cs ->
              Forall R cs).
    { apply IH.
      - intros i Hi. apply HF. now right.
      - intros i s c Hi. apply HD. now right. }
    clear IH. cbn [AutoSidebar.forItems] in E.
    destruct (AutoSidebar.ignores item) eqn:Ei; [now apply (IH' acc)|].
    destruct loc as [|sub].
    + destruct (AutoSidebar.isDoc item) eqn:Ed; [|now apply (IH' acc)].
      apply (IH' _ cs) in E; [exact E|].
      apply Forall_app. split; [exact Hacc|]. constructor; [|constructor].
      apply HF; [now left | exact Ei | exact Ed].
    + destruct (buildTree_builds (Dir sub) item (tPath +:+ "/" +:+ item))
        as [sc [Eb _]].
      rewrite Eb in E. cbn [children] in E.
      destruct sc as [|c sc]; [now apply (IH' acc)|].
      cbn [length Nat.eqb negb] in E.
      apply (IH' _ cs) in E; [exact E|].
      apply Forall_app. split; [exact Hacc|]. constructor; [|constructor].
      apply (HD item sub (c :: sc)); [now left | exact Ei | exact Eb | discriminate].
Qed.

Lemma buildTree_Dir listing n p root :
  AutoSidebar.buildTree (Dir listing) n p = Some root ->
  exists cs, root = mkEntry n p (Some cs) /\
             AutoSidebar.forItems AutoSidebar.buildTree p listing [] = Some cs.
Proof.
  cbn [AutoSidebar.buildTree].
  destruct (AutoSidebar.forItems AutoSidebar.buildTree p listing []) as [cs|];
    [|discriminate].
  intros E. injection E as <-. now exists cs.
Qed.

Lemma Forall_descendants (S : Entry -> Prop) n p cs :
  Forall (fun c => S c /\ Forall S (descendants c)) cs ->
  Forall S (descendants (mkEntry n p (Some cs))).
Proof.
  cbn [descendants children].
  induction 1 as [|c cs [Hc Hd] _ IH]; cbn [flat_map]; [constructor|].
  constructor; [exact Hc|]. apply Forall_app. split; [exact Hd | exact IH].
Qed.

Lemma In_Forall {A} (P : A -> Prop) l x : Forall P l -> In x l -> P x.
Proof. intros H Hx. rewrite Forall_forall in H. apply H. now apply list_elem_of_In. Qed.

Lemma buildTree_joined location :
  forall n p root,
    AutoSidebar.buildTree location n p = Some root ->
    joined root /\ Forall joined (descendants root).
Proof.
  induction location as [|listing IH] using fsnode_nested_ind;
    intros n p root E; [discriminate|].
  apply buildTree_Dir in E as [cs [-> Ef]].
  assert (H : Forall (fun c => path c = p +:+ "/" +:+ name c
                               /\ joined c /\ Forall joined (descendants c)) cs).
  { apply (forItems_invariant _ p listing) with (acc := []);
      [| |constructor|exact Ef].
    - intros item _ _ _. split; [reflexivity|]. split; [|constructor].
      intros cs' c Hc. discriminate.
    - intros item sub sc Hin _ Eb _. split; [reflexivity|].
      apply (In_Forall _ _ _ IH Hin _ _ _ Eb). }
  split.
  - intros cs' c Hcs Hc. cbn [children] in Hcs. injection Hcs as <-.
    apply (In_Forall _ _ _ H Hc).
  - apply Forall_descendants. eapply Forall_impl; [exact H|].
    intros c [_ Hc]. exact Hc.
Qed.

(** X1.  The root of a built tree carries the name and the path that
    [buildTree] was given.  At the root and at every node below it, the path
    of a child is the path of its parent, a [/] and the name of the child. *)
Theorem buildTree_paths location rootName tPath root :
  AutoSidebar.buildTree location rootName tPath = Some root ->
  name root = rootName /\ path root = tPath /\
  forall n, n = root \/ In n (descendants root) -> joined n.
Proof.
  intros E. destruct (buildTree_joined location _ _ _ E) as [Hr Hd].
  destruct location as [|listing]; [discriminate|].
  apply buildTree_Dir in E as [cs [-> _]].
  split; [reflexivity|]. split; [reflexivity|].
  intros n [->|Hn]; [exact Hr|]. apply (In_Forall _ _ _ Hd Hn).
Qed.

Lemma buildTree_paths_witness :
  let root :=
    mkEntry "" "/docs"
      (Some [mkEntry "1-Guides" "/docs/1-Guides"
               (Some [mkEntry "intro.md" "/docs/1-Guides/intro.md" None])]) in
  AutoSidebar.buildTree (Dir [("1-Guides", Dir [("intro.md", File)])]) "" "/docs"
  = Some root /\
  name root = "" /\ path root = "/docs" /\
  forall n, n = root \/ In n (descendants root) -> joined n.
Proof.
  split; [reflexivity|].
  apply (buildTree_paths (Dir [("1-Guides", Dir [("intro.md", File)])]) "" "/docs").
  reflexivity.
Defined.

Lemma buildTree_names location :
  forall n p root,
    AutoSidebar.buildTree location n p = Some root ->
    Forall (fun d => AutoSidebar.ignores (name d) = false) (descendants root).
Proof.
  induction location as [|listing IH] using fsnode_nested_ind;
    intros n p root E; [discriminate|].
  apply buildTree_Dir in E as [cs [-> Ef]].
  apply Forall_descendants.
  apply (forItems_invariant _ p listing) with (acc := []);
    [| |constructor|exact Ef].
  - intros item _ Hi _. split; [exact Hi | constructor].
  - intros item sub sc Hin Hi Eb _. split; [exact Hi|].
    apply (In_Forall _ _ _ IH Hin _ _ _ Eb).
Qed.

(** X2.  An ignored entry leaves no trace, whatever lies at it, a file
    or a directory with documents at any depth: the tree is the one built
    without the entry.  And no node below the root of a built tree has an
    ignored name. *)
Theorem ignored_entry_leaves_no_trace :
  (forall before item location after rootName tPath,
      AutoSidebar.ignores item = true ->
      AutoSidebar.buildTree (Dir (before ++ (item, location) :: after)) rootName tPath
      = AutoSidebar.buildTree (Dir (before ++ after)) rootName tPath) /\
  (forall location rootName tPath root d,
      AutoSidebar.buildTree location rootName tPath = Some root ->
      In d (descendants root) -> AutoSidebar.ignores (name d) = false).
Proof.
  split.
  - intros before item location after rootName tPath Hi.
    cbn [AutoSidebar.buildTree]. now rewrite forItems_ignored.
  - intros location rootName tPath root d E Hd.
    apply (In_Forall _ _ _ (buildTree_names location _ _ _ E) Hd).
Qed.

Lemma ignored_entry_leaves_no_trace_witness :
  AutoSidebar.ignores "my_sidebar_notes" = true /\
  AutoSidebar.buildTree
    (Dir ([("a.md", File)]
          ++ ("my_sidebar_notes", Dir [("deep", Dir [("b.md", File)])]) :: [("c.md", File)]))
    "" ""
  = AutoSidebar.buildTree (Dir ([("a.md", File)] ++ [("c.md", File)])) "" "" /\
  AutoSidebar.ignores (name (mkEntry "b.md" "/x/b.md" None)) = false.
Proof.
  split; [reflexivity|]. split.
  - exact (proj1 ignored_entry_leaves_no_trace [("a.md", File)] "my_sidebar_notes"
             (Dir [("deep", Dir [("b.md", File)])]) [("c.md", File)] "" "" eq_refl).
  - apply (proj2 ignored_entry_leaves_no_trace (Dir [("x", Dir [("b.md", File)])]) "" ""
             (mkEntry "" "" (Some [mkEntry "x" "/x" (Some [mkEntry "b.md" "/x/b.md" None])]))
             (mkEntry "b.md" "/x/b.md" None) eq_refl).
    right. now left.
Defined.

Lemma buildTree_leadsToDoc location :
  forall n p root,
    AutoSidebar.buildTree location n p = Some root ->
    Forall leadsToDoc (descendants root).
Proof.
  induction location as [|listing IH] using fsnode_nested_ind;
    intros n p root E; [discriminate|].
  apply buildTree_Dir in E as [cs [-> Ef]].
  apply Forall_descendants.
  apply (forItems_invariant _ p listing) with (acc := []);
    [| |constructor|exact Ef].
  - intros item _ _ Hd. split; [|constructor].
    eexists. split; [now left|]. now split.
  - intros item sub sc Hin _ Eb Hne.
    pose proof (In_Forall _ _ _ IH Hin _ _ _ Eb) as Hsub. split; [|exact Hsub].
    destruct sc as [|c sc]; [contradiction|].
    assert (Hc : In c (descendants (mkEntry item (p +:+ "/" +:+ item) (Some (c :: sc)))))
      by (cbn [descendants children flat_map]; now left).
    destruct (In_Forall _ _ _ Hsub Hc) as [l [Hl Hdoc]].
    exists l. split; [|exact Hdoc]. right.
    destruct Hl as [->|Hl]; [exact Hc|].
    cbn [descendants children flat_map]. right. apply in_or_app. now left.
Qed.

(** X4.  Every node below the root of a built tree is a document or
    has a document somewhere below it: a leaf whose name passes [isDoc]. *)
Theorem every_node_leads_to_a_document location rootName tPath root d :
  AutoSidebar.buildTree location rootName tPath = Some root ->
  In d (descendants root) ->
  exists l, (l = d \/ In l (descendants d)) /\
            isLeaf l = true /\ AutoSidebar.isDoc (name l) = true.
Proof.
  intros E Hd. apply (In_Forall _ _ _ (buildTree_leadsToDoc location _ _ _ E) Hd).
Qed.

Lemma every_node_leads_to_a_document_witness :
  let guides := mkEntry "g" "/g" (Some [mkEntry "h" "/g/h" (Some [mkEntry "i.md" "/g/h/i.md" None])]) in
  exists l, (l = guides \/ In l (descendants guides)) /\
            isLeaf l = true /\ AutoSidebar.isDoc (name l) = true.
Proof.
  apply (every_node_leads_to_a_document
           (Dir [("g", Dir [("h", Dir [("i.md", File)]); ("empty", Dir [])])]) "" ""
           (mkEntry "" "" (Some [mkEntry "g" "/g" (Some [mkEntry "h" "/g/h" (Some [mkEntry "i.md" "/g/h/i.md" None])])]))).
  - reflexivity.
  - now left.
Defined.

Lemma forItems_children tPath items :
  forall acc, exists added,
    AutoSidebar.forItems AutoSidebar.buildTree tPath items acc = Some (acc ++ added)
    /\ Forall2 (childOf tPath) (List.filter qualifies items) added.
Proof.
  induction items as [|[item loc] items IH]; intros acc.
  - exists []. rewrite app_nil_r. split; [reflexivity | constructor].
  - cbn [AutoSidebar.forItems List.filter]. unfold qualifies at 1. cbn [fst snd].
    destruct (AutoSidebar.ignores item); cbn [negb andb]; [apply IH|].
    destruct loc as [|listing].
    + destruct (AutoSidebar.isDoc item); [|apply IH].
      destruct (IH (acc ++ [mkEntry item (tPath +:+ "/" +:+ item) None]))
        as [added [E F]].
      exists (mkEntry item (tPath +:+ "/" +:+ item) None :: added).
      rewrite E, <- app_assoc. split; [reflexivity|].
      constructor; [reflexivity | exact F].
    + destruct (buildTree_builds (Dir listing) item (tPath +:+ "/" +:+ item))
        as [cs [E [Hnil _]]].
      rewrite E. cbn [children].
      destruct cs as [|c cs].
      * cbn [length Nat.eqb negb]. destruct Hnil as [Hnil _].
        rewrite (Hnil eq_refl). apply IH.
      * cbn [length Nat.eqb negb].
        destruct (hasDocs (Dir listing)) eqn:Ed.
        2:{ destruct Hnil as [_ Hnil]. discriminate (Hnil eq_refl). }
        destruct (IH (acc ++ [mkEntry item (tPath +:+ "/" +:+ item) (Some (c :: cs))]))
          as [added [E' F]].
        exists (mkEntry item (tPath +:+ "/" +:+ item) (Some (c :: cs)) :: added).
        rewrite E', <- app_assoc. split; [reflexivity|].
        constructor; [exact E | exact F].
Qed.

Lemma childOf_name tPath e c : childOf tPath e c -> name c = e.1.
Proof.
  destruct e as [item [|sub]]; unfold childOf; cbn [fst snd].
  - now intros ->.
  - intros E. now apply buildTree_Dir in E as [cs [-> _]].
Qed.

(** X3.  [buildTree] gives a directory a root whose children are made
    of the qualifying entries of the listing, one child each, in the order
    of the listing: for a file the leaf with the name of the entry, for a
    directory the tree built at the entry.  So the names of the children are
    the names of the qualifying entries, in their order. *)
Theorem buildTree_children_follow_the_listing listing rootName tPath :
  exists cs,
    AutoSidebar.buildTree (Dir listing) rootName tPath
    = Some (mkEntry rootName tPath (Some cs)) /\
    Forall2 (childOf tPath) (List.filter qualifies listing) cs /\
    map name cs = map fst (List.filter qualifies listing).
Proof.
  destruct (forItems_children tPath listing []) as [cs [E F]].
  exists cs. cbn [AutoSidebar.buildTree]. rewrite E. cbn [app].
  split; [reflexivity|]. split; [exact F|].
  clear E. induction F as [|e c es cs Hc _ IH]; [reflexivity|].
  cbn [map]. now rewrite IH, (childOf_name _ _ _ Hc).
Qed.

(** * The two patterns on names *)

Lemma prefix_spec p s : String.prefix p s = true <-> exists b, s = p +:+ b.
Proof.
  revert s. induction p as [|a p IH]; intros s.
  - split; [intros _; now exists s | intros _; now destruct s].
  - destruct s as [|c s]; cbn [String.prefix].
    + split; [discriminate | intros [b E]; discriminate E].
    + destruct (Ascii.ascii_dec a c) as [->|Hne].
      * rewrite IH. split; intros [b E].
        -- exists b. now rewrite E.
        -- exists b. now injection E.
      * split; [discriminate|]. intros [b E]. injection E as E _. congruence.
Qed.

Lemma includes_spec p s :
  includes p s = true <-> exists a b, s = a +:+ p +:+ b.
Proof.
  induction s as [|c s IH]; cbn [includes]; rewrite orb_true_iff, prefix_spec.
  - split.
    + intros [[b E]|H]; [|discriminate]. now exists "", b.
    + intros [a [b E]]. left. destruct a; [|discriminate E]. now exists b.
  - rewrite IH. split.
    + intros [[b E]|[a [b E]]]; [now exists "", b|].
      exists (String c a), b. now rewrite E.
    + intros [[|x a] [b E]].
      * left. now exists b.
      * right. exists a, b. now injection E.
Qed.

(** X5.  [ignores] holds of a name exactly when the name holds
    [node_modules], [_sidebar] or [_docsify] anywhere, or starts with a dot.
    The three words are not anchored. *)
Theorem ignores_spec item :
  AutoSidebar.ignores item = true <->
  (exists a b, item = a +:+ "node_modules" +:+ b) \/
  (exists b, item = "." +:+ b) \/
  (exists a b, item = a +:+ "_sidebar" +:+ b) \/
  (exists a b, item = a +:+ "_docsify" +:+ b).
Proof.
  unfold AutoSidebar.ignores, startsWith.
  rewrite !orb_true_iff, !includes_spec, prefix_spec. tauto.
Qed.

Lemma ignores_spec_witness :
  AutoSidebar.ignores "my_sidebar_notes.md" = true /\ AutoSidebar.ignores ".git" = true.
Proof.
  split.
  - apply (proj2 (ignores_spec "my_sidebar_notes.md")). right. right. left.
    now exists "my", "_notes.md".
  - apply (proj2 (ignores_spec ".git")). right. left. now exists "git".
Defined.

(** X6.  [isDoc] holds of a name exactly when the name ends in [md]
    after one more character that is not a line terminator; that character
    need not be a dot. *)
Theorem isDoc_spec item :
  AutoSidebar.isDoc item = true <->
  exists pre c, item = pre +:+ String c "md" /\ isLineTerminator c = false.
Proof.
  unfold AutoSidebar.isDoc. split.
  - intros H.
    destruct (rev (list_ascii_of_string item)) as [|c3 [|c2 [|c1 rest]]] eqn:E;
      try discriminate.
    apply andb_true_iff in H as [H H3]. apply andb_true_iff in H as [H1 H2].
    apply Ascii.eqb_eq in H2, H3. subst c2 c3.
    exists (string_of_list_ascii (rev rest)), c1.
    split; [|now apply negb_true_iff].
    apply (f_equal (@rev ascii)) in E. rewrite rev_involutive in E.
    apply (f_equal string_of_list_ascii) in E.
    rewrite string_of_list_ascii_of_string in E. rewrite E.
    cbn [rev]. rewrite <- !app_assoc. cbn [app].
    now rewrite string_of_list_ascii_app.
  - intros [pre [c [-> Hc]]]. rewrite list_ascii_of_string_app.
    cbn [list_ascii_of_string]. rewrite rev_app_distr. cbn. now rewrite Hc.
Qed.

Lemma isDoc_spec_witness :
  AutoSidebar.isDoc "readme.md" = true /\ AutoSidebar.isDoc "cmd" = true.
Proof.
  split.
  - apply (proj2 (isDoc_spec "readme.md")). now exists "readme", "."%char.
  - apply (proj2 (isDoc_spec "cmd")). now exists "", "c"%char.
Defined.

(** * The lines of the rendering and the targets of its links *)

Lemma split_segments_lack sep s :
  Forall (fun x => lacks sep x = true) (split sep s).
Proof.
  induction s as [|a s IH]; cbn [split]; [now repeat constructor|].
  destruct (Ascii.eqb a sep) eqn:E; [now constructor|].
  destruct (split sep s) as [|x l]; [repeat constructor; cbn; now rewrite E|].
  apply Forall_cons in IH as [Hx Hl]. constructor; [|exact Hl].
  cbn. now rewrite E.
Qed.

Lemma split_join sep l :
  l <> [] -> Forall (fun x => lacks sep x = true) l ->
  split sep (join (String sep "") l) = l.
Proof.
  intros Hne H. induction H as [|x l Hx Hl IH]; [contradiction|].
  destruct l as [|y l].
  - cbn [join]. now apply split_lacks.
  - change (join (String sep "") (x :: y :: l))
      with (x +:+ String sep (join (String sep "") (y :: l))).
    rewrite (split_first _ _ _ Hx). f_equal. now apply IH.
Qed.

Lemma indent_lines rendered :
  split "010" (AutoSidebar.indent rendered)
  = map (fun line => "  " +:+ line) (split "010" (join nl rendered)).
Proof.
  unfold AutoSidebar.indent, nl. apply split_join.
  - pose proof (split_not_nil "010" (join (String "010" "") rendered)).
    destruct (split _ _); [contradiction | discriminate].
  - apply Forall_map. eapply Forall_impl; [apply split_segments_lack|].
    intros x Hx. exact Hx.
Qed.

(** X7.  The lines of the rendering of a container whose name holds no
    line feed, rendered without a link to the directory: the heading line
    [- label], left out when the name is empty, then every line of the
    rendered children, each moved two spaces to the right. *)
Theorem renderToMd_lines tree cs :
  children tree = Some cs ->
  lacks "010" (name tree) = true ->
  split "010" (AutoSidebar.renderToMd tree false)
  = (if String.eqb (name tree) "" then []
     else ["- " +:+ AutoSidebar.niceName (name tree)])
    ++ map (fun line => "  " +:+ line)
         (split "010"
            (join nl (map (fun c => AutoSidebar.renderToMd c (AutoSidebar.linked cs c))
                          (List.filter (AutoSidebar.kept cs) cs)))).
Proof.
  intros Hcs Hn. rewrite (renderToMd_container _ _ _ Hcs).
  unfold content, AutoSidebar.prefix.
  destruct (String.eqb (name tree) "").
  - cbn [app]. change ("" +:+ ?x) with x. apply indent_lines.
  - rewrite !append_assoc.
    change (nl +:+ ?x) with (String "010" x).
    rewrite <- append_assoc, split_first.
    + cbn [app]. f_equal. apply indent_lines.
    + cbn [lacks append]. apply lacks_niceName; [reflexivity | exact Hn].
Qed.

Lemma renderToMd_lines_witness :
  let tree :=
    mkEntry "1-Guides" "/1-Guides"
      (Some [mkEntry "a.md" "/1-Guides/a.md" None; mkEntry "b.md" "/1-Guides/b.md" None]) in
  split "010" (AutoSidebar.renderToMd tree false)
  = ["- Guides"; "  - [a](/1-Guides/a.md)"; "  - [b](/1-Guides/b.md)"].
Proof.
  exact (renderToMd_lines
           (mkEntry "1-Guides" "/1-Guides"
              (Some [mkEntry "a.md" "/1-Guides/a.md" None;
                     mkEntry "b.md" "/1-Guides/b.md" None]))
           _ eq_refl eq_refl).
Defined.

Lemma replaceAll_lacks c by_ s : lacks c s = true -> replaceAll c by_ s = s.
Proof.
  induction s as [|a s IH]; cbn [lacks replaceAll]; [reflexivity|].
  intros H. apply andb_true_iff in H as [Ha Hs]. apply negb_true_iff in Ha.
  now rewrite Ha, (IH Hs).
Qed.

Lemma replaceAll_removes c by_ s :
  lacks c by_ = true -> lacks c (replaceAll c by_ s) = true.
Proof.
  intros Hb. induction s as [|a s IH]; cbn [replaceAll]; [reflexivity|].
  destruct (Ascii.eqb a c) eqn:E.
  - now rewrite lacks_app, Hb.
  - cbn [lacks]. now rewrite E.
Qed.

Lemma replaceAll_keeps c d by_ s :
  Ascii.eqb d c = false -> lacks c by_ = true ->
  lacks c (replaceAll d by_ s) = lacks c s.
Proof.
  intros Hne Hb. induction s as [|a s IH]; cbn [replaceAll lacks]; [reflexivity|].
  destruct (Ascii.eqb a d) eqn:E.
  - apply Ascii.eqb_eq in E. subst a. rewrite lacks_app, Hb, Hne. exact IH.
  - cbn [lacks]. now rewrite IH.
Qed.

(** X8.  The target of a link holds no space, and encoding it again
    changes nothing: a path with a space and the same path with [%20] in its
    place have one target.  Every character other than the space, [%], [2]
    and [0] is in the target exactly when it is in the path: nothing else is
    encoded. *)
Theorem target_encodes_spaces_only n p ch :
  lacks " " (AutoSidebar.target (mkEntry n p ch)) = true /\
  AutoSidebar.target (mkEntry n (AutoSidebar.target (mkEntry n p ch)) ch)
  = AutoSidebar.target (mkEntry n p ch) /\
  (forall c, Ascii.eqb " " c = false -> lacks c "%20" = true ->
     lacks c (AutoSidebar.target (mkEntry n p ch)) = lacks c p).
Proof.
  unfold AutoSidebar.target. cbn [path]. split; [|split].
  - now apply replaceAll_removes.
  - apply replaceAll_lacks. now apply replaceAll_removes.
  - intros c Hc Hb. now apply replaceAll_keeps.
Qed.

Lemma target_encodes_spaces_only_witness :
  lacks ")" (AutoSidebar.target (mkEntry "a (b).md" "/a (b).md" None)) = false /\
  AutoSidebar.target (mkEntry "a (b).md" "/a%20(b).md" None)
  = AutoSidebar.target (mkEntry "a (b).md" "/a (b).md" None).
Proof.
  split.
  - rewrite (proj2 (proj2 (target_encodes_spaces_only "a (b).md" "/a (b).md" None))
               ")"%char eq_refl eq_refl).
    reflexivity.
  - exact (proj1 (proj2 (target_encodes_spaces_only "a (b).md" "/a (b).md" None))).
Defined.

Lemma split_app sep a b :
  split sep (a +:+ String sep b) = split sep a ++ split sep b.
Proof.
  induction a as [|x a IH].
  - change (split sep (String sep b) = [""] ++ split sep b).
    cbn [split]. now rewrite Ascii.eqb_refl.
  - change (split sep (String x (a +:+ String sep b))
            = split sep (String x a) ++ split sep b).
    cbn [split]. destruct (Ascii.eqb x sep); [now rewrite IH|].
    rewrite IH. pose proof (split_not_nil sep a) as Hn.
    destruct (split sep a) as [|seg rest]; [contradiction | reflexivity].
Qed.

Lemma split_join_lines sep l :
  l <> [] -> split sep (join (String sep "") l) = flat_map (split sep) l.
Proof.
  intros Hne. induction l as [|x l IH]; [contradiction|].
  destruct l as [|y l].
  - cbn [join flat_map]. now rewrite app_nil_r.
  - change (join (String sep "") (x :: y :: l))
      with (x +:+ String sep (join (String sep "") (y :: l))).
    rewrite split_app, IH by discriminate. reflexivity.
Qed.

Lemma lines_of_container tree cs c line linkDir :
  children tree = Some cs -> In c cs -> AutoSidebar.kept cs c = true ->
  In line (split "010" (AutoSidebar.renderToMd c (AutoSidebar.linked cs c))) ->
  In ("  " +:+ line) (split "010" (AutoSidebar.renderToMd tree linkDir)).
Proof.
  intros Hcs Hc Hk Hl. rewrite (renderToMd_container _ _ _ Hcs).
  assert (Hin : In ("  " +:+ line) (split "010" (content cs))).
  { unfold content. rewrite indent_lines. apply in_map. unfold nl.
    rewrite split_join_lines.
    - apply in_flat_map. exists (AutoSidebar.renderToMd c (AutoSidebar.linked cs c)).
      split; [|exact Hl].
      apply (in_map (fun c => AutoSidebar.renderToMd c (AutoSidebar.linked cs c))).
      apply filter_In. now split.
    - intros E. apply map_eq_nil in E.
      assert (Hf : In c (List.filter (AutoSidebar.kept cs) cs)) by (apply filter_In; now split).
      rewrite E in Hf. contradiction. }
  unfold AutoSidebar.prefix.
  destruct (String.eqb (name tree) ""); [exact Hin|].
  destruct linkDir.
  - rewrite !append_assoc. change (nl +:+ ?x) with (String "010" x).
    rewrite <- !append_assoc, split_app. apply in_or_app. now right.
  - rewrite !append_assoc. change (nl +:+ ?x) with (String "010" x).
    rewrite <- !append_assoc, split_app. apply in_or_app. now right.
Qed.

Lemma leaf_line leafName leafPath linkDir :
  lacks "/" leafName = true -> lacks "010" leafName = true -> lacks "010" leafPath = true ->
  split "010" (AutoSidebar.renderToMd (mkEntry leafName leafPath None) linkDir)
  = ["- [" +:+ AutoSidebar.label (mkEntry leafName leafPath None) +:+ "]("
     +:+ AutoSidebar.target (mkEntry leafName leafPath None) +:+ ")"].
Proof.
  intros Hs Hn Hp. cbn [AutoSidebar.renderToMd children]. apply split_lacks.
  unfold AutoSidebar.label, AutoSidebar.target. cbn [name path].
  rewrite (basename_md_noslash leafName Hs). rewrite !lacks_app.
  rewrite lacks_niceName by (try reflexivity; now apply lacks_stripMd).
  rewrite lacks_replaceAll by (try reflexivity; exact Hp).
  reflexivity.
Qed.

Lemma shownAt_lines k tree d :
  shownAt k tree d ->
  forall line,
    (forall linkDir, In line (split "010" (AutoSidebar.renderToMd d linkDir))) ->
    forall linkDir,
      In (indentation k +:+ line) (split "010" (AutoSidebar.renderToMd tree linkDir)).
Proof.
  induction 1 as [tree cs c Hcs Hc Hk | k tree cs c d Hcs Hc Hk _ IH];
    intros line Hl linkDir.
  - change (indentation 1 +:+ line) with ("  " +:+ line).
    apply (lines_of_container tree cs c line linkDir Hcs Hc Hk), Hl.
  - change (indentation (S k) +:+ line) with ("  " +:+ (indentation k +:+ line)).
    apply (lines_of_container tree cs c _ linkDir Hcs Hc Hk), IH, Hl.
Qed.

(** X26.  A leaf that lies [k] levels below a container, every node on the
    way to it passing the filter of its parent, has its line in the rendering
    of the container: [- [label](target)] behind [k] levels of indentation.
    The name of the leaf holds no [/], and neither its name nor its path a
    line feed. *)
Theorem every_shown_leaf_has_its_line k tree d linkDir :
  shownAt k tree d ->
  children d = None ->
  lacks "/" (name d) = true -> lacks "010" (name d) = true -> lacks "010" (path d) = true ->
  In (indentation k +:+ "- [" +:+ AutoSidebar.label d +:+ "](" +:+ AutoSidebar.target d +:+ ")")
     (split "010" (AutoSidebar.renderToMd tree linkDir)).
Proof.
  intros Hs Hd H1 H2 H3. apply (shownAt_lines k tree d Hs).
  intros b. destruct d as [n p ch]. cbn [children] in Hd. subst ch.
  rewrite (leaf_line n p b H1 H2 H3). now left.
Qed.

Lemma every_shown_leaf_has_its_line_witness :
  In ("    - [intro](/1-Guides/intro.md)")
     (split "010"
        (AutoSidebar.renderToMd
           (mkEntry "" ""
              (Some [mkEntry "1-Guides" "/1-Guides"
                       (Some [mkEntry "intro.md" "/1-Guides/intro.md" None]);
                     mkEntry "notes.md" "/notes.md" None]))
           false)).
Proof.
  apply (every_shown_leaf_has_its_line 2
           (mkEntry "" ""
              (Some [mkEntry "1-Guides" "/1-Guides"
                       (Some [mkEntry "intro.md" "/1-Guides/intro.md" None]);
                     mkEntry "notes.md" "/notes.md" None]))
           (mkEntry "intro.md" "/1-Guides/intro.md" None) false);
    try reflexivity.
  eapply shown_below; [reflexivity | now left | reflexivity |].
  eapply shown_child; [reflexivity | now left | reflexivity].
Defined.

(** * The earlier generator and the later one *)

Lemma Index_forItems_app stat p l1 l2 :
  forall acc,
    Index.forItems stat (Index.buildTree stat) p (l1 ++ l2) acc
    = match Index.forItems stat (Index.buildTree stat) p l1 acc with
      | None => None
      | Some acc' => Index.forItems stat (Index.buildTree stat) p l2 acc'
      end.
Proof.
  induction l1 as [|[item loc] l1 IH]; intros acc; [reflexivity|].
  cbn [app Index.forItems].
  destruct (Index.ignores item); [apply IH|].
  destruct (stat (p +:+ "/" +:+ item)) as [[|]|]; [| |reflexivity].
  - destruct (Index.buildTree stat loc item (p +:+ "/" +:+ item)); [apply IH | reflexivity].
  - destruct (Index.isDoc item); apply IH.
Qed.

(** X9.  The earlier generator asks [statSync] about the path below the
    root of the tree.  When the call throws for an entry that is not ignored,
    or answers that a file is a directory, [buildTree] gives no tree,
    whatever the other entries are. *)
Theorem Index_buildTree_fails_with_statSync stat before item location after rootName tPath :
  Index.ignores item = false ->
  stat (tPath +:+ "/" +:+ item) = None
  \/ (stat (tPath +:+ "/" +:+ item) = Some true /\ location = File) ->
  Index.buildTree stat (Dir (before ++ (item, location) :: after)) rootName tPath = None.
Proof.
  intros Hi Hs. cbn [Index.buildTree]. rewrite Index_forItems_app.
  destruct (Index.forItems stat (Index.buildTree stat) tPath before []) as [acc|];
    [|reflexivity].
  cbn [Index.forItems]. rewrite Hi.
  destruct Hs as [->|[-> ->]]; reflexivity.
Qed.

Lemma Index_buildTree_fails_with_statSync_witness :
  Index.buildTree (fun _ => None)
    (Dir ([("_sidebar.md", File)] ++ ("intro.md", File) :: [])) "" "" = None.
Proof.
  apply (Index_buildTree_fails_with_statSync (fun _ => None) [("_sidebar.md", File)]
           "intro.md" File [] "" "").
  - reflexivity.
  - left. reflexivity.
Defined.

Lemma both_forItems stat tPath items :
  Forall (fun e => forall n p, agrees stat e.2 p = true ->
            match e.2 with
            | File => True
            | Dir _ =>
                exists t, Index.buildTree stat e.2 n p = Some t /\
                          AutoSidebar.buildTree e.2 n p = Some (prune t)
            end) items ->
  forallb (fun e => Index.ignores e.1 ||
             (bool_decide (stat (tPath +:+ "/" +:+ e.1) = Some (isDirectory e.2))
              && agrees stat e.2 (tPath +:+ "/" +:+ e.1))) items = true ->
  forall acc acc', exists added,
    Index.forItems stat (Index.buildTree stat) tPath items acc = Some (acc ++ added) /\
    AutoSidebar.forItems AutoSidebar.buildTree tPath items acc'
    = Some (acc' ++ List.filter keepsChild (map prune added)).
Proof.
  induction 1 as [|[item loc] items Hloc _ IH]; intros Ha acc acc'.
  - exists []. now rewrite !app_nil_r.
  - cbn [forallb fst snd] in Ha. apply andb_true_iff in Ha as [Ha Hrest].
    specialize (IH Hrest).
    cbn [Index.forItems AutoSidebar.forItems]. unfold Index.ignores in *.
    destruct (AutoSidebar.ignores item); [apply IH|].
    cbn [orb] in Ha. apply andb_true_iff in Ha as [Hs Hag].
    apply bool_decide_eq_true in Hs. rewrite Hs.
    destruct loc as [|sub]; cbn [isDirectory].
    + unfold Index.isDoc. destruct (AutoSidebar.isDoc item); [|apply IH].
      destruct (IH (acc ++ [mkEntry item (tPath +:+ "/" +:+ item) None])
                   (acc' ++ [mkEntry item (tPath +:+ "/" +:+ item) None]))
        as [added [E1 E2]].
      exists (mkEntry item (tPath +:+ "/" +:+ item) None :: added).
      rewrite E1, E2, <- !app_assoc. split; reflexivity.
    + cbn [snd] in Hloc.
      destruct (Hloc item (tPath +:+ "/" +:+ item) Hag) as [t [Et Ep]].
      rewrite Et, Ep.
      destruct (IH (acc ++ [t]) (acc' ++ [prune t])) as [added [E1 E2]].
      destruct (IH (acc ++ [t]) acc') as [added' [E1' E2']].
      assert (added' = added) as ->.
      { rewrite E1 in E1'. injection E1' as E1'. now apply app_inv_head in E1'. }
      exists (t :: added). rewrite E1, <- app_assoc. split; [reflexivity|].
      cbn [map List.filter].
      assert (Hk : match children (prune t) with
                   | Some l => negb (length l =? 0)
                   | None => false
                   end = keepsChild (prune t)).
      { cbn [Index.buildTree] in Et.
        destruct (Index.forItems _ _ _ _ _) as [cs|]; [|discriminate].
        injection Et as <-. cbn [prune children keepsChild].
        now destruct (List.filter keepsChild (map prune cs)). }
      rewrite Hk. destruct (keepsChild (prune t)).
      * rewrite E2, <- app_assoc. reflexivity.
      * exact E2'.
Qed.

Lemma both_buildTree stat location :
  forall n p, agrees stat location p = true ->
    match location with
    | File => True
    | Dir _ =>
        exists t, Index.buildTree stat location n p = Some t /\
                  AutoSidebar.buildTree location n p = Some (prune t)
    end.
Proof.
  induction location as [|listing IH] using fsnode_nested_ind;
    intros n p Ha; [exact I|].
  cbn [agrees] in Ha.
  destruct (both_forItems stat p listing IH Ha [] []) as [added [E1 E2]].
  cbn [Index.buildTree AutoSidebar.buildTree]. rewrite E1, E2. cbn [app].
  eexists. split; reflexivity.
Qed.

(** X10.  Where [statSync] answers as the listing has it, the earlier
    generator builds a tree, and the tree of [docsify-auto-sidebar] for the
    same directory is that tree without its empty containers, pruned from the
    leaves up. *)
Theorem AutoSidebar_prunes_the_tree_of_Index stat listing rootName tPath :
  agrees stat (Dir listing) tPath = true ->
  exists t,
    Index.buildTree stat (Dir listing) rootName tPath = Some t /\
    AutoSidebar.buildTree (Dir listing) rootName tPath = Some (prune t).
Proof.
  intros Ha. cbn [agrees] in Ha.
  assert (IH : Forall (fun e => forall n p, agrees stat e.2 p = true ->
                         match e.2 with
                         | File => True
                         | Dir _ =>
                             exists t, Index.buildTree stat e.2 n p = Some t /\
                                       AutoSidebar.buildTree e.2 n p = Some (prune t)
                         end) listing).
  { apply List.Forall_forall. intros e _ n p. apply both_buildTree. }
  destruct (both_forItems stat tPath listing IH Ha [] []) as [added [E1 E2]].
  cbn [Index.buildTree AutoSidebar.buildTree]. rewrite E1, E2. cbn [app].
  eexists. split; reflexivity.
Qed.

Lemma AutoSidebar_prunes_the_tree_of_Index_witness :
  let stat := fun p => Some (String.eqb p "/api" || String.eqb p "/guides") in
  let listing := [("api", Dir []); ("guides", Dir [("intro.md", File)])] in
  exists t,
    Index.buildTree stat (Dir listing) "" "" = Some t /\
    AutoSidebar.buildTree (Dir listing) "" "" = Some (prune t).
Proof.
  apply (AutoSidebar_prunes_the_tree_of_Index
           (fun p => Some (String.eqb p "/api" || String.eqb p "/guides"))
           [("api", Dir []); ("guides", Dir [("intro.md", File)])] "" "").
  reflexivity.
Defined.

(** * Further properties of the documenter *)

Lemma appendNodeInParagraph_snoc section nodes node :
  appendNodeInParagraph (section ++ [DocParagraph nodes]) node
  = section ++ [DocParagraph (nodes ++ [node])].
Proof.
  unfold appendNodeInParagraph. rewrite last_snoc, removelast_last. reflexivity.
Qed.

Lemma appendNodesInParagraph_snoc section nodes more :
  appendNodesInParagraph (section ++ [DocParagraph nodes]) more
  = section ++ [DocParagraph (nodes ++ more)].
Proof.
  unfold appendNodesInParagraph. revert nodes.
  induction more as [|x more IH]; intros nodes; cbn [fold_left].
  - now rewrite app_nil_r.
  - rewrite appendNodeInParagraph_snoc, IH, <- app_assoc. reflexivity.
Qed.

Lemma appendNodesInParagraph_nil x more :
  appendNodesInParagraph [] (x :: more) = [DocParagraph (x :: more)].
Proof.
  unfold appendNodesInParagraph. cbn [fold_left].
  change (appendNodeInParagraph [] x) with ([] ++ [DocParagraph [x]]).
  exact (appendNodesInParagraph_snoc [] [x] more).
Qed.

Lemma crumb_at before h rest :
  crumb (before ++ h :: rest) (length before)
  = if isRootKind (hKind h) then []
    else [DocPlainText " > ";
          DocLinkTag (hDisplayName h)
            (getLinkFilenameForApiItem (before ++ [h]) (before ++ h :: rest))].
Proof.
  unfold crumb, getLinkFilenameForApiItem.
  rewrite nth_error_app2 by lia. rewrite Nat.sub_diag. cbn [nth_error].
  replace (firstn (S (length before)) (before ++ h :: rest)) with (before ++ [h]);
    [reflexivity|].
  rewrite firstn_app. replace (S (length before) - length before) with 1 by lia.
  rewrite firstn_all2 by lia. reflexivity.
Qed.

Lemma breadcrumbLoop_spec before rest :
  forall section nodes,
    breadcrumbLoop (before ++ rest) before rest (section ++ [DocParagraph nodes])
    = section
      ++ [DocParagraph
            (nodes ++ flat_map (crumb (before ++ rest)) (seq (length before) (length rest)))].
Proof.
  revert before. induction rest as [|h rest IH]; intros before section nodes.
  - cbn. now rewrite app_nil_r.
  - cbn [breadcrumbLoop length seq flat_map]. rewrite crumb_at.
    pose proof (IH (before ++ [h])) as IH'.
    rewrite <- app_assoc, length_app in IH'. cbn [app length] in IH'.
    replace (length before + 1) with (S (length before)) in IH' by lia.
    destruct (hKind h) eqn:K; cbn [isRootKind app];
      try (rewrite appendNodesInParagraph_snoc, IH', <- app_assoc; reflexivity);
      apply IH'.
Qed.

(** X11.  The breadcrumb of a page is one paragraph: the link [Home] to
    [/], then, for every item of the hierarchy other than the model and an
    entry point, the separator [ > ] and a link with the display name of the
    item to the file of the item, relative to the file of the page. *)
Theorem writeBreadcrumb_spec hierarchy :
  writeBreadcrumb [] hierarchy
  = [DocParagraph
       (DocLinkTag "Home" (Literal "/")
        :: flat_map (crumb hierarchy) (seq 0 (length hierarchy)))].
Proof.
  unfold writeBreadcrumb.
  change (appendNodeInParagraph [] (DocLinkTag "Home" (Literal "/")))
    with ([] ++ [DocParagraph [DocLinkTag "Home" (Literal "/")]]).
  exact (breadcrumbLoop_spec [] hierarchy [] [DocLinkTag "Home" (Literal "/")]).
Qed.

(** X12.  The description cell of an item with a comment.  When the
    summary starts with a paragraph, the nodes of that paragraph join the
    [(BETA)] mark in one paragraph; without the mark the paragraph stays, and
    an empty one is dropped.  When the summary does not start with a
    paragraph, it follows the mark unchanged. *)
Theorem createDescriptionCell_merges apiItem comment :
  tsdocComment apiItem = Some comment ->
  (forall childNodes rest,
      summarySection comment = DocParagraph childNodes :: rest ->
      createDescriptionCell apiItem
      = if isBeta apiItem
        then DocParagraph (betaMark ++ childNodes) :: rest
        else match childNodes with
             | [] => rest
             | _ :: _ => DocParagraph childNodes :: rest
             end) /\
  ((forall childNodes rest, summarySection comment <> DocParagraph childNodes :: rest) ->
   createDescriptionCell apiItem
   = if isBeta apiItem
     then DocParagraph betaMark :: summarySection comment
     else summarySection comment).
Proof.
  intros Hc. unfold createDescriptionCell, isBeta. rewrite Hc. split.
  - intros childNodes rest Hs. rewrite Hs. cbn [appendAndMergeSection].
    destruct (releaseTag apiItem) as [[| | | |]|];
      try (destruct childNodes; [reflexivity | now rewrite appendNodesInParagraph_nil]).
    rewrite appendNodesInParagraph_nil.
    exact (f_equal (fun s => s ++ rest) (appendNodesInParagraph_snoc [] betaMark childNodes)).
  - intros Hs.
    assert (E : forall output, appendAndMergeSection output (summarySection comment)
                               = output ++ summarySection comment).
    { intros output. unfold appendAndMergeSection.
      destruct (summarySection comment) as [|[] rest] eqn:Es; try reflexivity.
      now destruct (Hs nodes rest). }
    rewrite E.
    destruct (releaseTag apiItem) as [[| | | |]|]; reflexivity.
Qed.

Lemma createDescriptionCell_merges_witness :
  let summary := [DocParagraph [DocPlainText "Draws."]; DocFencedCode "draw()" "ts"] in
  let apiItem :=
    mkApiItem KClass "Widget" [] None [] None (Some RBeta)
      (Some (mkDocComment summary None None None [])) None "" None false None
      "Widget" "Widget" in
  createDescriptionCell apiItem
  = [DocParagraph
       [DocEmphasisSpan true true [DocPlainText "(BETA)"]; DocPlainText " ";
        DocPlainText "Draws."];
     DocFencedCode "draw()" "ts"].
Proof.
  exact (proj1 (createDescriptionCell_merges
                  (mkApiItem KClass "Widget" [] None [] None (Some RBeta)
                     (Some (mkDocComment
                              [DocParagraph [DocPlainText "Draws."];
                               DocFencedCode "draw()" "ts"] None None None []))
                     None "" None false None "Widget" "Widget")
                  _ eq_refl)
           [DocPlainText "Draws."] [DocFencedCode "draw()" "ts"] eq_refl).
Defined.

Lemma exampleLoop_spec count blocks :
  forall number output,
    exampleLoop (1 <? count)%nat blocks number output
    = output ++ flat_map (exampleSection count) (combine (seq number (length blocks)) blocks).
Proof.
  induction blocks as [|b blocks IH]; intros number output.
  - cbn. now rewrite app_nil_r.
  - cbn [exampleLoop length seq combine flat_map]. rewrite IH.
    unfold exampleSection at 2. cbn [fst snd].
    rewrite <- !app_assoc. reflexivity.
Qed.

(** X13.  The example blocks of a comment are appended in their order,
    each under a heading of level 4: [Example] when the comment has one
    example block, [Example 1], [Example 2], ... when it has more.  The other
    custom blocks are left out. *)
Theorem writeExamples_numbers_the_examples apiItem comment output :
  tsdocComment apiItem = Some comment ->
  let blocks := List.filter isExample (customBlocks comment) in
  writeExamples apiItem output
  = output
    ++ flat_map (exampleSection (length blocks)) (combine (seq 1 (length blocks)) blocks).
Proof.
  intros Hc. cbv zeta. unfold writeExamples. rewrite Hc. apply exampleLoop_spec.
Qed.

Lemma writeExamples_numbers_the_examples_witness :
  let blocks :=
    [mkDocBlock "@EXAMPLE" [DocPlainText "one"]; mkDocBlock "@SEE" [DocPlainText "other"];
     mkDocBlock "@EXAMPLE" [DocPlainText "two"]] in
  let apiItem :=
    mkApiItem KFunction "make" [] None [] None None
      (Some (mkDocComment [] None None None blocks)) None "" None false None
      "make" "make" in
  writeExamples apiItem []
  = [DocHeading "Example 1" (Some 4%nat); DocPlainText "one";
     DocHeading "Example 2" (Some 4%nat); DocPlainText "two"].
Proof.
  exact (writeExamples_numbers_the_examples
           (mkApiItem KFunction "make" [] None [] None None
              (Some (mkDocComment [] None None None
                       [mkDocBlock "@EXAMPLE" [DocPlainText "one"];
                        mkDocBlock "@SEE" [DocPlainText "other"];
                        mkDocBlock "@EXAMPLE" [DocPlainText "two"]]))
              None "" None false None "make" "make")
           _ [] eq_refl).
Defined.

Lemma trim_blank text :
  forallb isStrWhiteSpaceChar (list_ascii_of_string text) = true -> trim text = "".
Proof.
  intros H. unfold trim, trimWhiteSpace.
  assert (E : forall l, forallb isStrWhiteSpaceChar l = true ->
                        dropWhile isStrWhiteSpaceChar l = []).
  { induction l as [|a l IH]; cbn [forallb dropWhile]; [reflexivity|].
    intros Hl. apply andb_true_iff in Hl as [Ha Hl]. rewrite Ha. now apply IH. }
  rewrite (E _ H). reflexivity.
Qed.

(** X14.  A return type that is empty or white space only is written as
    [(not declared)] below [Returns:]. *)
Theorem blank_return_type_is_not_declared output apiItem text :
  returnTypeExcerpt apiItem = Some text ->
  forallb isStrWhiteSpaceChar (list_ascii_of_string text) = true ->
  exists before after,
    writeParameterTables output apiItem
    = before
      ++ [DocParagraph [DocEmphasisSpan true false [DocPlainText "Returns:"]];
          DocParagraph [DocCodeSpan "(not declared)"]]
      ++ after.
Proof.
  intros Hr Hb. unfold writeParameterTables. rewrite Hr, (trim_blank _ Hb).
  cbn [String.eqb].
  set (o := if (0 <? length (map parameterRow (parameters apiItem)))%nat then _ else _).
  exists o.
  destruct (tsdocComment apiItem) as [c|]; [destruct (returnsBlock c) as [nodes|]|].
  - exists nodes. now rewrite <- !app_assoc.
  - exists []. now rewrite <- !app_assoc.
  - exists []. now rewrite <- !app_assoc.
Qed.

Lemma blank_return_type_is_not_declared_witness :
  exists before after,
    writeParameterTables []
      (mkApiItem KFunction "make" [] (Some 0%nat) [] (Some "  ") None None None ""
         None false None "make" "make()")
    = before
      ++ [DocParagraph [DocEmphasisSpan true false [DocPlainText "Returns:"]];
          DocParagraph [DocCodeSpan "(not declared)"]]
      ++ after.
Proof.
  apply (blank_return_type_is_not_declared []
           (mkApiItem KFunction "make" [] (Some 0%nat) [] (Some "  ") None None None ""
              None false None "make" "make()") "  ");
    reflexivity.
Defined.

Lemma bind_Done {A B} (m : result A) (k : A -> result B) w b :
  bind m k = Done w b ->
  exists w1 a w2, m = Done w1 a /\ k a = Done w2 b /\ w = w1 ++ w2.
Proof.
  destruct m as [w1 a|w1 e]; cbn [bind]; [|discriminate].
  destruct (k a) as [w2 b'|w2 e] eqn:E; [|discriminate].
  intros H. injection H as <- <-. now exists w1, a, w2.
Qed.

Lemma packageMembersLoop_tables containerHierarchy parents apiMembers :
  forall t w t',
    packageMembersLoop writeApiItem containerHierarchy parents apiMembers t = Done w t' ->
    classesTable t'
    = classesTable t ++ map (packageRow containerHierarchy parents) (ofKind KClass apiMembers) /\
    enumerationsTable t'
    = enumerationsTable t ++ map (packageRow containerHierarchy parents) (ofKind KEnum apiMembers) /\
    functionsTable t'
    = functionsTable t ++ map (packageRow containerHierarchy parents) (ofKind KFunction apiMembers) /\
    interfacesTable t'
    = interfacesTable t ++ map (packageRow containerHierarchy parents) (ofKind KInterface apiMembers) /\
    namespacesTable t'
    = namespacesTable t ++ map (packageRow containerHierarchy parents) (ofKind KNamespace apiMembers) /\
    variablesTable t'
    = variablesTable t ++ map (packageRow containerHierarchy parents) (ofKind KVariable apiMembers) /\
    typeAliasesTable t'
    = typeAliasesTable t ++ map (packageRow containerHierarchy parents) (ofKind KTypeAlias apiMembers) /\
    w = flat_map
          (fun m => writtenBy (writeApiItemPage writeApiItem (parents ++ [hierarchyItem m]) m))
          (List.filter hasOwnPage apiMembers).
Proof.
  induction apiMembers as [|m ms IH]; intros t w t' E.
  - cbn in E. injection E as <- <-. cbn. now rewrite !app_nil_r.
  - cbn [packageMembersLoop] in E. unfold ofKind, hasOwnPage in *.
    cbn [List.filter flat_map]. unfold kindEqb at 1 3 5 7 9 11 13.
    destruct (kind m) eqn:K;
      cbn [kindName String.eqb Ascii.eqb Bool.eqb andb List.filter flat_map map];
      try (apply IH in E; exact E);
      apply bind_Done in E as [w1 [[] [w2 [E1 [E2 ->]]]]];
      apply IH in E2; cbn [classesTable enumerationsTable functionsTable interfacesTable
                            namespacesTable variablesTable typeAliasesTable] in E2;
      destruct E2 as (-> & -> & -> & -> & -> & -> & -> & ->);
      rewrite E1; cbn [writtenBy]; unfold packageRow at 1;
      rewrite <- ?app_assoc; repeat split; reflexivity.
Qed.

(** X16.  When the loop over the members of a package or a namespace
    ends, each of the seven tables holds the rows of the members of its kind,
    in the order of the members, and the files written are the pages of the
    members of these seven kinds, in the order of the members.  A member of
    another kind has no row and no page. *)
Theorem package_tables_follow_the_members containerHierarchy parents apiMembers w t :
  packageMembersLoop writeApiItem containerHierarchy parents apiMembers noPackageTables
  = Done w t ->
  t = mkPackageTables
        (map (packageRow containerHierarchy parents) (ofKind KClass apiMembers))
        (map (packageRow containerHierarchy parents) (ofKind KEnum apiMembers))
        (map (packageRow containerHierarchy parents) (ofKind KFunction apiMembers))
        (map (packageRow containerHierarchy parents) (ofKind KInterface apiMembers))
        (map (packageRow containerHierarchy parents) (ofKind KNamespace apiMembers))
        (map (packageRow containerHierarchy parents) (ofKind KVariable apiMembers))
        (map (packageRow containerHierarchy parents) (ofKind KTypeAlias apiMembers)) /\
  w = flat_map
        (fun m => writtenBy (writeApiItemPage writeApiItem (parents ++ [hierarchyItem m]) m))
        (List.filter hasOwnPage apiMembers).
Proof.
  intros E. apply packageMembersLoop_tables in E.
  destruct E as (E1 & E2 & E3 & E4 & E5 & E6 & E7 & E8).
  split; [|exact E8]. destruct t. cbn in *. congruence.
Qed.

Lemma package_tables_follow_the_members_witness :
  exists w t,
    packageMembersLoop writeApiItem (firstn 2 acmeWidget) (firstn 3 acmeWidget)
      (members acmeEntryPoint) noPackageTables = Done w t /\
    length (classesTable t) = 1 /\ length (interfacesTable t) = 1 /\
    length (functionsTable t) = 2 /\
    map filename w = ["acme/Widget.md"; "acme/Shape.md"; "acme/make.md"; "acme/make_1.md"].
Proof.
  destruct (packageMembersLoop writeApiItem (firstn 2 acmeWidget) (firstn 3 acmeWidget)
              (members acmeEntryPoint) noPackageTables) as [w t|w e] eqn:E;
    [|discriminate E].
  exists w, t. split; [reflexivity|].
  destruct (package_tables_follow_the_members _ _ _ _ _ E) as [-> ->].
  repeat split.
Defined.

Lemma packagesLoop_app modelHierarchy ps1 ps2 :
  packagesLoop modelHierarchy (ps1 ++ ps2)
  = bind (packagesLoop modelHierarchy ps1) (fun _ => packagesLoop modelHierarchy ps2).
Proof.
  induction ps1 as [|p ps1 IH]; cbn [app packagesLoop].
  - unfold ret. now rewrite bind_Done_nil.
  - destruct (writeApiItemPage writeApiItem (modelHierarchy ++ [hierarchyItem p]) p)
      as [w []|w e]; cbn [bind]; [|reflexivity].
    rewrite IH.
    destruct (packagesLoop modelHierarchy ps1) as [w1 []|w1 e1]; cbn [bind]; [|reflexivity].
    destruct (packagesLoop modelHierarchy ps2); now rewrite app_assoc.
Qed.

(** X17.  [generateFiles] stops at the first package whose page fails:
    the exception is that of the page, and the files written before it, those
    of the earlier packages and of the members of the failing package, stay.
    A package without an entry point fails with a [TypeError] before anything
    is written for it. *)
Theorem generateFiles_stops_at_the_first_failure :
  (forall apiModel before apiPackage after w1 w e,
      members apiModel = before ++ apiPackage :: after ->
      packagesLoop [hierarchyItem apiModel] before = Done w1 tt ->
      writeApiItemPage writeApiItem [hierarchyItem apiModel; hierarchyItem apiPackage]
        apiPackage = Thrown w e ->
      generateFiles apiModel = Thrown (w1 ++ w) e) /\
  (forall hierarchy apiPackage,
      kind apiPackage = KPackage -> members apiPackage = [] ->
      writeApiItemPage writeApiItem hierarchy apiPackage
      = Thrown [] (TypeError "members")).
Proof.
  split.
  - intros apiModel before apiPackage after w1 w e Hm H1 H2.
    unfold generateFiles. rewrite Hm, packagesLoop_app, H1.
    cbn [bind packagesLoop app]. rewrite H2. reflexivity.
  - intros hierarchy apiPackage Hk Hm.
    unfold writeApiItemPage. rewrite writeApiItem_eq.
    unfold writeHeading, writeTables, writePackageOrNamespaceTables.
    rewrite Hk, Hm. reflexivity.
Qed.

Lemma generateFiles_stops_at_the_first_failure_witness :
  let broken := plainItem KPackage "broken" [] in
  let apiModel := plainItem KModel "" (members acmeModel ++ broken :: members acmeModel) in
  generateFiles apiModel = Thrown (writtenBy (generateFiles acmeModel) ++ []) (TypeError "members") /\
  map filename (writtenBy (generateFiles apiModel))
  = ["acme/Widget.md"; "acme/Shape.md"; "acme/make.md"; "acme/make_1.md"; "acme.md"].
Proof.
  cbv zeta. split; [|reflexivity].
  apply (proj1 generateFiles_stops_at_the_first_failure
           (plainItem KModel "" (members acmeModel ++ plainItem KPackage "broken" []
                                   :: members acmeModel))
           (members acmeModel) (plainItem KPackage "broken" []) (members acmeModel)).
  - reflexivity.
  - reflexivity.
  - apply (proj2 generateFiles_stops_at_the_first_failure); reflexivity.
Defined.

Lemma enumMembersLoop_done apiMembers :
  forallb hasInitializer apiMembers = true ->
  forall rows, exists added,
    enumMembersLoop apiMembers rows = Done [] (rows ++ added)
    /\ length added = length apiMembers
    /\ Forall (fun row => length row = 3) added.
Proof.
  induction apiMembers as [|m ms IH]; cbn [forallb enumMembersLoop]; intros H rows.
  - exists []. rewrite app_nil_r. repeat split. constructor.
  - apply andb_true_iff in H as [Hm Hms]. unfold hasInitializer in Hm.
    destruct (initializerExcerpt m) as [text|]; [|discriminate].
    destruct (IH Hms (rows ++ [[ [DocParagraph [DocPlainText (conciseSignature m)]];
                                 [DocParagraph [DocCodeSpan text]];
                                 createDescriptionCell m ]])) as [added [E [L F]]].
    eexists (_ :: added). rewrite E, <- app_assoc. split; [reflexivity|].
    split; [cbn [length]; now rewrite L|]. constructor; [reflexivity | exact F].
Qed.

Lemma enumMembersLoop_throws apiMembers :
  forallb hasInitializer apiMembers = false ->
  forall rows, enumMembersLoop apiMembers rows = Thrown [] (TypeError "text").
Proof.
  induction apiMembers as [|m ms IH]; cbn [forallb enumMembersLoop]; intros H rows;
    [discriminate|].
  unfold hasInitializer in H at 1.
  destruct (initializerExcerpt m) as [text|]; [|reflexivity].
  cbn [andb] in H. now apply IH.
Qed.

(** X15.  The page of an enumeration.  When every member has an
    initializer, one file is written, the page of the enumeration, and no
    page for a member; with a member, the page holds the table [Member, Value,
    Description] with one row per member.  When a member has no initializer,
    the page fails with a [TypeError] and nothing is written. *)
Theorem enum_page hierarchy apiEnum :
  kind apiEnum = KEnum ->
  (forallb hasInitializer (members apiEnum) = true ->
   exists page,
     writeApiItemPage writeApiItem hierarchy apiEnum
     = Done [mkOutputFile (getFilenameForApiItem hierarchy) page] tt /\
     (members apiEnum <> [] ->
      exists rows,
        In (DocTable ["Member"; "Value"; "Description"] rows) page /\
        length rows = length (members apiEnum))) /\
  (forallb hasInitializer (members apiEnum) = false ->
   writeApiItemPage writeApiItem hierarchy apiEnum = Thrown [] (TypeError "text")).
Proof.
  intros Hk. unfold writeApiItemPage. rewrite writeApiItem_eq.
  unfold writeHeading, writeTables, writeEnumTables. rewrite Hk.
  unfold ret at 1. rewrite bind_Done_nil. cbv zeta. split.
  - intros H.
    destruct (enumMembersLoop_done _ H []) as [rows [E [L _]]]. cbn [app] in E.
    rewrite E, bind_Done_nil.
    destruct rows as [|row rows].
    + cbn [length Nat.ltb Nat.leb]. unfold ret. rewrite !bind_Done_nil.
      cbn [isInternalKind negb writeFile]. eexists. split; [reflexivity|].
      intros Hne. destruct (members apiEnum); [contradiction | discriminate].
    + change (0 <? length (row :: rows))%nat with true. cbv iota.
      unfold ret. rewrite !bind_Done_nil.
      cbn [isInternalKind negb writeFile]. eexists. split; [reflexivity|].
      intros _. exists (row :: rows). split; [|exact L].
      eapply extends_In; [apply writeExamples_extends|].
      apply in_or_app. right. now left.
  - intros H. rewrite (enumMembersLoop_throws _ H). reflexivity.
Qed.

Lemma enum_page_witness :
  let red := mkApiItem KEnumMember "Red" [] None [] None None None None "" None false
               (Some "0") "Color.Red" "Red" in
  let blue := plainItem KEnumMember "Blue" [] in
  let hierarchy := firstn 3 acmeWidget ++ [mkHierarchyItem KEnum "Color" None] in
  (exists page,
      writeApiItemPage writeApiItem hierarchy (plainItem KEnum "Color" [red])
      = Done [mkOutputFile "acme/Color.md" page] tt) /\
  writeApiItemPage writeApiItem hierarchy (plainItem KEnum "Color" [red; blue])
  = Thrown [] (TypeError "text").
Proof.
  cbv zeta. split.
  - destruct (proj1 (enum_page
                       (firstn 3 acmeWidget ++ [mkHierarchyItem KEnum "Color" None])
                       (plainItem KEnum "Color"
                          [mkApiItem KEnumMember "Red" [] None [] None None None None ""
                             None false (Some "0") "Color.Red" "Red"]) eq_refl) eq_refl)
      as [page [E _]].
    exists page. exact E.
  - apply (proj2 (enum_page
                    (firstn 3 acmeWidget ++ [mkHierarchyItem KEnum "Color" None])
                    (plainItem KEnum "Color"
                       [mkApiItem KEnumMember "Red" [] None [] None None None None ""
                          None false (Some "0") "Color.Red" "Red";
                        plainItem KEnumMember "Blue" []]) eq_refl)).
    reflexivity.
Defined.

Lemma ApiItem_nested_ind (P : ApiItem -> Prop) :
  (forall apiItem, Forall P (members apiItem) -> P apiItem) ->
  forall apiItem, P apiItem.
Proof.
  intros H. fix IH 1. intros apiItem. apply H.
  destruct apiItem as [k n ms oi ps rt tag c e em pt ev ie sn cs]. cbn [members].
  induction ms as [|m ms IHms]; constructor; [apply IH | exact IHms].
Qed.

Lemma ApiItem_strong_ind (P : ApiItem -> Prop) :
  (forall apiItem,
      (forall d, In d (flat_map subItems (members apiItem)) -> P d) -> P apiItem) ->
  forall apiItem, P apiItem.
Proof.
  intros H apiItem.
  enough (Hall : forall d, In d (subItems apiItem) -> P d).
  { apply Hall. destruct apiItem; now left. }
  induction apiItem as [apiItem IH] using ApiItem_nested_ind.
  assert (Hbelow : forall d, In d (flat_map subItems (members apiItem)) -> P d).
  { intros d Hd. apply in_flat_map in Hd as [m [Hm Hd]].
    rewrite Forall_forall in IH. apply (IH m); [now apply list_elem_of_In | exact Hd]. }
  intros d Hd. destruct apiItem as [k n ms oi ps rt tag c e em pt ev ie sn cs].
  cbn [subItems members] in Hd. destruct Hd as [<-|Hd]; [|now apply Hbelow].
  apply H. exact Hbelow.
Qed.

Lemma subItems_unfold apiItem :
  subItems apiItem = apiItem :: flat_map subItems (members apiItem).
Proof. now destruct apiItem. Qed.

Lemma subItems_self apiItem : In apiItem (subItems apiItem).
Proof. destruct apiItem; now left. Qed.

Lemma subItems_member m apiItem :
  In m (members apiItem) -> In m (flat_map subItems (members apiItem)).
Proof. intros H. apply in_flat_map. exists m. split; [exact H | apply subItems_self]. Qed.

Lemma subItems_below d m apiItem :
  In m (members apiItem) -> In d (flat_map subItems (members m)) ->
  In d (flat_map subItems (members apiItem)).
Proof.
  intros Hm Hd. apply in_flat_map. exists m. split; [exact Hm|].
  destruct m. cbn [subItems members] in *. now right.
Qed.

Lemma writtenBy_bind {A B} (m : result A) (k : A -> result B) :
  writtenBy (bind m k)
  = writtenBy m ++ match m with Done _ a => writtenBy (k a) | Thrown _ _ => [] end.
Proof.
  destruct m as [w a|w e]; cbn [bind writtenBy]; [|now rewrite app_nil_r].
  now destruct (k a).
Qed.

Lemma enumMembersLoop_writes_nothing apiMembers :
  forall rows, writtenBy (enumMembersLoop apiMembers rows) = [].
Proof.
  induction apiMembers as [|m ms IH]; intros rows; cbn [enumMembersLoop]; [reflexivity|].
  destruct (initializerExcerpt m); [apply IH | reflexivity].
Qed.

Lemma packageMembersLoop_files (good : OutputFile -> Prop) containerHierarchy parents
    apiMembers :
  (forall m, In m apiMembers -> hasOwnPage m = true ->
     Forall good (writtenBy (writeApiItemPage writeApiItem
                               (parents ++ [hierarchyItem m]) m))) ->
  forall t,
    Forall good (writtenBy (packageMembersLoop writeApiItem containerHierarchy parents
                              apiMembers t)).
Proof.
  induction apiMembers as [|m ms IH]; intros H t; [constructor|].
  assert (IH' : forall t, Forall good (writtenBy (packageMembersLoop writeApiItem
                 containerHierarchy parents ms t))).
  { apply IH. intros m' Hm'. apply H. now right. }
  pose proof (H m (or_introl eq_refl)) as Hm. unfold hasOwnPage in Hm.
  cbn [packageMembersLoop].
  destruct (kind m); try apply IH';
    rewrite writtenBy_bind; apply Forall_app; (split; [now apply Hm|]);
    destruct (writeApiItemPage _ _ _); try constructor; apply IH'.
Qed.

Lemma writeApiItem_files (good : OutputFile -> Prop) hierarchy apiItem output :
  (kind apiItem = KNamespace ->
   forall m, In m (members apiItem) -> hasOwnPage m = true ->
     Forall good (writtenBy (writeApiItemPage writeApiItem
                               (hierarchy ++ [hierarchyItem m]) m))) ->
  (kind apiItem = KPackage ->
   forall entryPoint others m,
     members apiItem = entryPoint :: others ->
     In m (members entryPoint) -> hasOwnPage m = true ->
     Forall good (writtenBy (writeApiItemPage writeApiItem
                               ((hierarchy ++ [hierarchyItem entryPoint])
                                ++ [hierarchyItem m]) m))) ->
  Forall good (writtenBy (writeApiItem hierarchy apiItem output)).
Proof.
  intros Hns Hpk. rewrite writeApiItem_eq, writtenBy_bind.
  assert (Hh : writtenBy (writeHeading apiItem output) = []).
  { unfold writeHeading. now destruct (kind apiItem). }
  rewrite Hh. cbn [app].
  destruct (writeHeading apiItem output) as [w o|w e]; [|constructor].
  cbv zeta. rewrite writtenBy_bind.
  apply Forall_app. split.
  2:{ destruct (writeTables _ _ _ _); constructor. }
  unfold writeTables.
  destruct (kind apiItem) eqn:K; try constructor.
  - destruct (writeInterfaceTables_done (writeDescription apiItem o) hierarchy apiItem)
      as [o' [E _]]. rewrite E. constructor.
  - unfold writeEnumTables. rewrite writtenBy_bind, enumMembersLoop_writes_nothing.
    destruct (enumMembersLoop _ _) as [w' rows|w' e]; [|constructor].
    destruct (0 <? length rows)%nat; constructor.
  - destruct (writeInterfaceTables_done (writeDescription apiItem o) hierarchy apiItem)
      as [o' [E _]]. rewrite E. constructor.
  - unfold writePackageOrNamespaceTables. rewrite K, writtenBy_bind.
    apply Forall_app. split.
    + apply packageMembersLoop_files. now apply Hns.
    + destruct (packageMembersLoop _ _ _ _ _); constructor.
  - unfold writePackageOrNamespaceTables. rewrite K.
    destruct (members apiItem) as [|entryPoint others] eqn:M; [constructor|].
    rewrite writtenBy_bind. apply Forall_app. split.
    + apply packageMembersLoop_files. intros m. now apply (Hpk eq_refl entryPoint others).
    + destruct (packageMembersLoop _ _ _ _ _); constructor.
Qed.

Lemma writeApiItemPage_files apiModel :
  forall apiItem hierarchy,
    pageAt apiModel hierarchy apiItem ->
    Forall (isPageOf apiModel)
      (writtenBy (writeApiItemPage writeApiItem hierarchy apiItem)).
Proof.
  induction apiItem as [apiItem IH] using ApiItem_strong_ind. intros hierarchy Hp.
  unfold writeApiItemPage. rewrite writtenBy_bind. apply Forall_app. split.
  - apply writeApiItem_files.
    + intros K m Hm Ho. apply IH; [now apply subItems_member|].
      now apply (pageAt_namespace apiModel hierarchy apiItem).
    + intros K entryPoint others m M Hm Ho. apply IH.
      * apply (subItems_below m entryPoint); [rewrite M; now left|].
        now apply subItems_member.
      * now apply (pageAt_entryPoint apiModel hierarchy apiItem entryPoint others).
  - destruct (writeApiItem hierarchy apiItem (writeBreadcrumb [] hierarchy))
      as [w output|w e] eqn:E; [|constructor].
    destruct (isInternalKind (kind apiItem)) eqn:K; cbn [negb]; [constructor|].
    repeat constructor. exists hierarchy, apiItem, w. auto.
Qed.

Lemma generateFiles_files apiModel :
  Forall (isPageOf apiModel) (writtenBy (generateFiles apiModel)).
Proof.
  unfold generateFiles.
  assert (H : forall packages, (forall p, In p packages -> In p (members apiModel)) ->
            Forall (isPageOf apiModel)
              (writtenBy (packagesLoop [hierarchyItem apiModel] packages))).
  { induction packages as [|p ps IH]; intros Hin; [constructor|].
    cbn [packagesLoop]. rewrite writtenBy_bind. apply Forall_app. split.
    - apply writeApiItemPage_files. apply pageAt_package. apply Hin. now left.
    - destruct (writeApiItemPage _ _ _); [|constructor].
      apply IH. intros p' Hp'. apply Hin. now right. }
  apply H. auto.
Qed.

Lemma subItems_trans c :
  forall a b, In a (subItems b) -> In b (subItems c) -> In a (subItems c).
Proof.
  induction c as [c IH] using ApiItem_nested_ind. intros a b Ha Hb.
  destruct c as [k n ms oi ps rt tag cm e em pt ev ie sn cs].
  cbn [subItems members] in *. destruct Hb as [<-|Hb]; [exact Ha|].
  right. apply in_flat_map in Hb as [m [Hm Hb]]. apply in_flat_map. exists m.
  split; [exact Hm|]. rewrite Forall_forall in IH.
  apply (IH m (proj2 (list_elem_of_In _ _) Hm) a b Ha Hb).
Qed.

Lemma subItems_step m b c : In m (members b) -> In b (subItems c) -> In m (subItems c).
Proof.
  intros Hm Hb. apply (subItems_trans c m b); [|exact Hb].
  rewrite subItems_unfold. right. now apply subItems_member.
Qed.

Lemma pageAt_hierarchy apiModel hierarchy apiItem :
  isInternalKind (kind apiModel) = false ->
  Forall fitForFileNames (subItems apiModel) ->
  pageAt apiModel hierarchy apiItem ->
  In apiItem (subItems apiModel) /\
  exists parents, hierarchy = parents ++ [hierarchyItem apiItem] /\ hierarchyOk parents.
Proof.
  intros Hk Hfit Hp.
  assert (Hname : forall i, In i (subItems apiModel) -> fitForFileNames i)
    by (intros i Hi; apply (In_Forall _ _ _ Hfit Hi)).
  induction Hp as [p Hin | hierarchy ns m Hp [Hns [parents [-> Hok]]] K Hm Ho
                  | hierarchy p entryPoint others m Hp [Hpk [parents [-> Hok]]] K M Hm Ho].
  - split; [apply (subItems_step p apiModel); [exact Hin | apply subItems_self]|].
    exists [hierarchyItem apiModel]. split; [reflexivity|].
    repeat constructor; [exact Hk|]. apply Hname, subItems_self.
  - split; [now apply (subItems_step m ns)|].
    exists (parents ++ [hierarchyItem ns]). split; [reflexivity|].
    apply Forall_app. split; [exact Hok|]. repeat constructor.
    + cbn [hKind hierarchyItem]. now rewrite K.
    + apply (Hname ns Hns).
  - assert (Hep : In entryPoint (subItems apiModel)).
    { apply (subItems_step entryPoint p); [rewrite M; now left | exact Hpk]. }
    split; [now apply (subItems_step m entryPoint)|].
    exists ((parents ++ [hierarchyItem p]) ++ [hierarchyItem entryPoint]).
    split; [reflexivity|].
    apply Forall_app. split; [apply Forall_app; split; [exact Hok|]|]; repeat constructor.
    + cbn [hKind hierarchyItem]. now rewrite K.
    + apply (Hname p Hpk).
    + cbn [hKind hierarchyItem]. destruct (Hname p Hpk) as [_ H]. specialize (H K).
      now rewrite M in H.
    + apply (Hname entryPoint Hep).
Qed.

(** X19.  Where no name of the model holds a [#] and neither the model
    nor the entry point of a package is of a kind that is rendered on its
    parent's page, every file that [generateFiles] writes has a name without
    [#] that ends in [.md]. *)
Theorem written_files_are_markdown_files apiModel :
  isInternalKind (kind apiModel) = false ->
  Forall fitForFileNames (subItems apiModel) ->
  Forall (fun f => lacks "#" (filename f) = true
                   /\ exists base, filename f = base +:+ ".md")
    (writtenBy (generateFiles apiModel)).
Proof.
  intros Hk Hfit. eapply Forall_impl; [apply generateFiles_files|].
  intros f (hierarchy & apiItem & w & Hp & Hi & Hf & _).
  destruct (pageAt_hierarchy _ _ _ Hk Hfit Hp) as [Hin [parents [-> Hok]]].
  assert (Hl : lacks "#" (baseNameOf (parents ++ [hierarchyItem apiItem])) = true).
  { apply lacks_baseNameOf. apply Forall_app. split; [exact Hok|].
    repeat constructor; [exact Hi|]. apply (In_Forall _ _ _ Hfit Hin). }
  unfold getFilenameForApiItem in Hf. rewrite Hl in Hf. rewrite Hf. split.
  - rewrite lacks_app, Hl. reflexivity.
  - eauto.
Qed.

Lemma written_files_are_markdown_files_witness :
  Forall (fun f => lacks "#" (filename f) = true
                   /\ exists base, filename f = base +:+ ".md")
    (writtenBy (generateFiles acmeModel)).
Proof.
  apply written_files_are_markdown_files; [reflexivity|].
  repeat constructor; intros; try discriminate.
Defined.

Lemma packageMembersLoop_pages containerHierarchy parents apiMembers :
  forall t w t',
    packageMembersLoop writeApiItem containerHierarchy parents apiMembers t = Done w t' ->
    forall m, In m apiMembers -> hasOwnPage m = true ->
      exists w', writeApiItemPage writeApiItem (parents ++ [hierarchyItem m]) m = Done w' tt
                 /\ incl w' w.
Proof.
  induction apiMembers as [|a ms IH]; intros t w t' E m Hm Ho; [contradiction|].
  cbn [packageMembersLoop] in E.
  assert (Hrest : forall t2 w2, In m ms ->
            packageMembersLoop writeApiItem containerHierarchy parents ms t2 = Done w2 t' ->
            incl w2 w ->
            exists w', writeApiItemPage writeApiItem (parents ++ [hierarchyItem m]) m
                       = Done w' tt /\ incl w' w).
  { intros t2 w2 Hin E2 Hincl. destruct (IH t2 w2 t' E2 m Hin Ho) as [w' [Ew Hw]].
    exists w'. split; [exact Ew|]. intros x Hx. apply Hincl, Hw, Hx. }
  destruct Hm as [->|Hm].
  - unfold hasOwnPage in Ho.
    destruct (kind m); try discriminate Ho;
      apply bind_Done in E as [w1 [[] [w2 [E1 [_ ->]]]]];
      exists w1; (split; [exact E1 | apply incl_appl, incl_refl]).
  - destruct (kind a);
      try (apply (Hrest t w Hm E), incl_refl);
      apply bind_Done in E as [w1 [[] [w2 [_ [E2 ->]]]]];
      apply (Hrest _ w2 Hm E2), incl_appr, incl_refl.
Qed.

Lemma writeApiItemPage_Done hierarchy apiItem w :
  writeApiItemPage writeApiItem hierarchy apiItem = Done w tt ->
  exists w1 output wt before after,
    writeApiItem hierarchy apiItem (writeBreadcrumb [] hierarchy) = Done w1 output /\
    writeTables writeApiItem hierarchy apiItem before = Done wt after /\
    incl wt w /\
    (isInternalKind (kind apiItem) = false ->
     In (mkOutputFile (getFilenameForApiItem hierarchy) output) w).
Proof.
  unfold writeApiItemPage. intros E.
  apply bind_Done in E as [w1 [output [w2 [E1 [E2 ->]]]]].
  pose proof E1 as E1'. rewrite writeApiItem_eq in E1'.
  apply bind_Done in E1' as [wh [oh [w3 [Eh [E3 ->]]]]]. cbv zeta in E3.
  apply bind_Done in E3 as [wt [ot [w4 [Et [_ ->]]]]].
  exists (wh ++ wt ++ w4), output, wt, (writeDescription apiItem oh), ot.
  split; [exact E1|]. split; [exact Et|]. split.
  - apply incl_appl, incl_appr, incl_appl, incl_refl.
  - intros K. rewrite K in E2. cbn [negb writeFile] in E2. injection E2 as <-.
    apply in_or_app. right. now left.
Qed.

Lemma pageAt_Done apiModel files :
  generateFiles apiModel = Done files tt ->
  forall hierarchy apiItem,
    pageAt apiModel hierarchy apiItem ->
    exists w, writeApiItemPage writeApiItem hierarchy apiItem = Done w tt /\ incl w files.
Proof.
  intros E hierarchy apiItem Hp.
  induction Hp as [p Hin | hierarchy ns m Hp [w [Ew Hw]] K Hm Ho
                  | hierarchy p entryPoint others m Hp [w [Ew Hw]] K M Hm Ho].
  - unfold generateFiles in E. revert files E Hin.
    generalize (members apiModel) as packages.
    induction packages as [|a ps IH]; intros files E Hin; [contradiction|].
    cbn [packagesLoop] in E. apply bind_Done in E as [w1 [[] [w2 [E1 [E2 ->]]]]].
    destruct Hin as [->|Hin].
    + exists w1. split; [exact E1 | apply incl_appl, incl_refl].
    + destruct (IH w2 E2 Hin) as [w [Ew Hw]]. exists w. split; [exact Ew|].
      apply incl_appr, Hw.
  - apply writeApiItemPage_Done in Ew as (w1 & o & wt & o' & o'' & _ & Et & Hwt & _).
    unfold writeTables, writePackageOrNamespaceTables in Et. rewrite K in Et.
    apply bind_Done in Et as [wl [t [w2 [El [_ ->]]]]].
    destruct (packageMembersLoop_pages _ _ _ _ _ _ El m Hm Ho) as [w' [Ew' Hw']].
    exists w'. split; [exact Ew'|].
    intros x Hx. apply Hw, Hwt, in_or_app. left. apply Hw', Hx.
  - apply writeApiItemPage_Done in Ew as (w1 & o & wt & o' & o'' & _ & Et & Hwt & _).
    unfold writeTables, writePackageOrNamespaceTables in Et. rewrite K, M in Et.
    apply bind_Done in Et as [wl [t [w2 [El [_ ->]]]]].
    destruct (packageMembersLoop_pages _ _ _ _ _ _ El m Hm Ho) as [w' [Ew' Hw']].
    exists w'. split; [exact Ew'|].
    intros x Hx. apply Hw, Hwt, in_or_app. left. apply Hw', Hx.
Qed.

(** X18.  Every file that [generateFiles] writes, also when it fails, is
    the page of an item that it visits, of a kind that is not rendered on its
    parent's page, under the file name of that item.  And when [generateFiles]
    ends without an exception, every such item has its file. *)
Theorem generateFiles_writes_the_pages_of_the_items_it_visits apiModel :
  Forall (isPageOf apiModel) (writtenBy (generateFiles apiModel)) /\
  (forall files hierarchy apiItem,
      generateFiles apiModel = Done files tt ->
      pageAt apiModel hierarchy apiItem ->
      isInternalKind (kind apiItem) = false ->
      exists f w,
        In f files /\ filename f = getFilenameForApiItem hierarchy /\
        writeApiItem hierarchy apiItem (writeBreadcrumb [] hierarchy) = Done w (page f)).
Proof.
  split; [apply generateFiles_files|].
  intros files hierarchy apiItem E Hp K.
  destruct (pageAt_Done _ _ E _ _ Hp) as [w [Ew Hw]].
  apply writeApiItemPage_Done in Ew as (w1 & o & _ & _ & _ & E1 & _ & _ & Hown).
  exists (mkOutputFile (getFilenameForApiItem hierarchy) o), w1.
  split; [apply Hw, Hown, K|]. split; [reflexivity | exact E1].
Qed.

Lemma generateFiles_writes_the_pages_of_the_items_it_visits_witness :
  exists f w,
    In f (writtenBy (generateFiles acmeModel)) /\
    filename f = getFilenameForApiItem acmeWidget /\
    writeApiItem acmeWidget widgetClass (writeBreadcrumb [] acmeWidget) = Done w (page f).
Proof.
  apply (proj2 (generateFiles_writes_the_pages_of_the_items_it_visits acmeModel)
           (writtenBy (generateFiles acmeModel)) acmeWidget widgetClass);
    [reflexivity | | reflexivity].
  apply (pageAt_entryPoint acmeModel
           [hierarchyItem acmeModel; hierarchyItem acmePackage]
           acmePackage acmeEntryPoint [] widgetClass);
    [apply pageAt_package; now left | reflexivity | reflexivity | now left | reflexivity].
Defined.

Lemma wellFormed_app a b : wellFormed (a ++ b) <-> wellFormed a /\ wellFormed b.
Proof. apply Forall_app. Qed.

Lemma wellFormed_snoc a node : wellFormed a -> wellFormedNode node -> wellFormed (a ++ [node]).
Proof. intros Ha Hn. apply Forall_app. split; [exact Ha | now repeat constructor]. Qed.

Lemma wellFormed_writeHeading apiItem output w output' :
  writeHeading apiItem output = Done w output' -> wellFormed output -> wellFormed output'.
Proof.
  unfold writeHeading. intros E H.
  destruct (kind apiItem); try discriminate E; injection E as _ <-;
    now apply wellFormed_snoc.
Qed.

Lemma wellFormed_writeDescription apiItem output :
  wellFormedComment apiItem -> wellFormed output ->
  wellFormed (writeDescription apiItem output).
Proof.
  unfold writeDescription, wellFormedComment, writeBetaWarning. intros Hc H.
  assert (H1 : wellFormed (match releaseTag apiItem with
                           | Some RBeta => output ++ [DocNoteBox [DocParagraph [DocPlainText betaWarning]]]
                           | _ => output end)).
  { destruct (releaseTag apiItem) as [[]|]; try exact H. now apply wellFormed_snoc. }
  revert H1. generalize (match releaseTag apiItem with
                         | Some RBeta => output ++ [DocNoteBox [DocParagraph [DocPlainText betaWarning]]]
                         | _ => output end) as o1.
  intros o1 H1.
  destruct (tsdocComment apiItem) as [c|].
  - destruct Hc as (Hs & Hr & _ & _).
    assert (H2 : wellFormed (match deprecatedBlock c with
                             | Some nodes => o1 ++ [DocNoteBox (DocParagraph [DocPlainText "Warning: This API is now obsolete. "] :: nodes)]
                             | None => o1 end ++ summarySection c)).
    { apply wellFormed_app. split; [|exact Hs].
      destruct (deprecatedBlock c); [now apply wellFormed_snoc | exact H1]. }
    revert H2. generalize (match deprecatedBlock c with
                             | Some nodes => o1 ++ [DocNoteBox (DocParagraph [DocPlainText "Warning: This API is now obsolete. "] :: nodes)]
                             | None => o1 end ++ summarySection c) as o2.
    intros o2 H2.
    assert (H3 : wellFormed (match remarksBlock c with
                             | Some nodes => (o2 ++ [DocHeading "Remarks" (Some 4)]) ++ nodes
                             | None => o2 end)).
    { destruct (remarksBlock c) as [nodes|]; [|exact H2].
      apply wellFormed_app. split; [now apply wellFormed_snoc | exact Hr]. }
    destruct (excerpt apiItem) as [text|]; [|exact H3].
    destruct (0 <? String.length text)%nat; [|exact H3].
    apply wellFormed_app. split; [exact H3 | now repeat constructor].
  - destruct (excerpt apiItem) as [text|]; [|exact H1].
    destruct (0 <? String.length text)%nat; [|exact H1].
    apply wellFormed_app. split; [exact H1 | now repeat constructor].
Qed.

Lemma wellFormed_exampleLoop many blocks :
  Forall (fun block => wellFormed (MarkdownDocumenter.content block)) blocks ->
  forall number output, wellFormed output ->
    wellFormed (exampleLoop many blocks number output).
Proof.
  induction 1 as [|b blocks Hb _ IH]; intros number output H; [exact H|].
  cbn [exampleLoop]. apply IH. apply wellFormed_app. split; [|exact Hb].
  now apply wellFormed_snoc.
Qed.

Lemma wellFormed_writeExamples apiItem output :
  wellFormedComment apiItem -> wellFormed output ->
  wellFormed (writeExamples apiItem output).
Proof.
  unfold writeExamples, wellFormedComment. intros Hc H.
  destruct (tsdocComment apiItem) as [c|]; [|exact H].
  destruct Hc as (_ & _ & _ & Hb).
  apply wellFormed_exampleLoop; [|exact H].
  apply List.Forall_forall. intros b Hin. apply filter_In in Hin as [Hin _].
  apply (In_Forall _ _ _ Hb Hin).
Qed.

Lemma wellFormed_writeParameterTables apiItem output :
  wellFormedComment apiItem -> wellFormed output ->
  wellFormed (writeParameterTables output apiItem).
Proof.
  unfold writeParameterTables, wellFormedComment. intros Hc H. cbv zeta.
  set (o1 := if (0 <? length (map parameterRow (parameters apiItem)))%nat
             then (output ++ [DocHeading "Parameters" (Some 4)])
                  ++ [DocTable ["Parameter"; "Type"; "Description"]
                        (map parameterRow (parameters apiItem))]
             else output).
  assert (H1 : wellFormed o1).
  { subst o1. destruct (0 <? _)%nat; [|exact H].
    apply wellFormed_snoc; [now apply wellFormed_snoc|].
    cbn [wellFormedNode]. apply Forall_map. apply List.Forall_forall. reflexivity. }
  clearbody o1.
  destruct (returnTypeExcerpt apiItem) as [text|]; [|exact H1].
  assert (H2 : forall node1 node2, wellFormedNode node1 -> wellFormedNode node2 ->
               wellFormed ((o1 ++ [node1]) ++ [node2])).
  { intros n1 n2 Hn1 Hn2. apply wellFormed_snoc; [now apply wellFormed_snoc | exact Hn2]. }
  destruct (tsdocComment apiItem) as [c|]; [|now apply H2].
  destruct Hc as (_ & _ & Hr & _).
  destruct (returnsBlock c) as [nodes|]; [|now apply H2].
  apply wellFormed_app. split; [now apply H2 | exact Hr].
Qed.

Lemma wellFormed_writeApiItem_with hierarchy apiItem output w output' :
  (forall o wt o2, wellFormed o ->
     writeTables writeApiItem hierarchy apiItem o = Done wt o2 -> wellFormed o2) ->
  writeApiItem hierarchy apiItem output = Done w output' ->
  wellFormedComment apiItem -> wellFormed output -> wellFormed output'.
Proof.
  intros Ht E Hc H. rewrite writeApiItem_eq in E.
  apply bind_Done in E as [wh [oh [w3 [Eh [E3 ->]]]]]. cbv zeta in E3.
  apply bind_Done in E3 as [wt [ot [w4 [Et [E4 ->]]]]].
  injection E4 as _ <-.
  apply wellFormed_writeExamples; [exact Hc|].
  apply (Ht _ _ _ (wellFormed_writeDescription _ _ Hc (wellFormed_writeHeading _ _ _ _ Eh H)) Et).
Qed.

Lemma wellFormed_internal hierarchy m output w output' :
  isInternalKind (kind m) = true ->
  writeApiItem hierarchy m output = Done w output' ->
  wellFormedComment m -> wellFormed output -> wellFormed output'.
Proof.
  intros K E Hc H. refine (wellFormed_writeApiItem_with _ _ _ _ _ _ E Hc H).
  intros o wt o2 Ho Et. unfold writeTables, ret in Et.
  destruct (kind m); try discriminate K; injection Et as _ <-;
    first [exact Ho | now apply wellFormed_writeParameterTables].
Qed.

Lemma wellFormed_inlineLoop pushed classHierarchy apiMembers :
  (forall m, pushed m = true -> isInternalKind (kind m) = true) ->
  Forall wellFormedComment apiMembers ->
  forall output w output',
    inlineLoop writeApiItem pushed classHierarchy apiMembers output = Done w output' ->
    wellFormed output -> wellFormed output'.
Proof.
  intros Hp. induction 1 as [|m ms Hm _ IH]; intros output w output' E H.
  - cbn in E. now injection E as _ <-.
  - cbn [inlineLoop] in E. destruct (pushed m) eqn:P; [|now apply (IH _ _ _ E)].
    apply bind_Done in E as [w1 [o1 [w2 [E1 [E2 ->]]]]].
    apply (IH _ _ _ E2). apply (wellFormed_internal _ _ _ _ _ (Hp m P) E1 Hm H).
Qed.

Lemma interfaceMembersLoop_widths classHierarchy apiMembers :
  forall t w t',
    interfaceMembersLoop writeApiItem classHierarchy apiMembers t = Done w t' ->
    width 3 (eventsTable t) -> width 3 (propertiesTable t) -> width 2 (methodsTable t) ->
    width 3 (eventsTable t') /\ width 3 (propertiesTable t') /\ width 2 (methodsTable t').
Proof.
  unfold width.
  induction apiMembers as [|m ms IH]; intros t w t' E H1 H2 H3.
  - cbn in E. injection E as _ <-. auto.
  - cbn [interfaceMembersLoop] in E.
    destruct (kind m); try (apply (IH _ _ _ E); assumption);
      apply bind_Done in E as [w1 [[] [w2 [_ [E2 _]]]]];
      apply (IH _ _ _ E2);
      try destruct (isEventProperty m);
      cbn [eventsTable propertiesTable methodsTable];
      try assumption; apply Forall_app; (split; [assumption | now repeat constructor]).
Qed.

Lemma wellFormed_appendTable output title headerTitles rows :
  wellFormed output -> width (length headerTitles) rows ->
  wellFormed (appendTable output title headerTitles rows).
Proof.
  intros H Hr. unfold appendTable. destruct (0 <? length rows)%nat; [|exact H].
  apply wellFormed_snoc; [now apply wellFormed_snoc | exact Hr].
Qed.

Lemma wellFormed_writeInterfaceTables output hierarchy apiClass w output' :
  Forall wellFormedComment (members apiClass) ->
  writeInterfaceTables writeApiItem output hierarchy apiClass = Done w output' ->
  wellFormed output -> wellFormed output'.
Proof.
  intros Hm E H. unfold writeInterfaceTables in E.
  apply bind_Done in E as [w1 [t [w2 [E1 [E2 _]]]]].
  apply interfaceMembersLoop_widths in E1 as (W1 & W2 & W3); try constructor.
  apply bind_Done in E2 as [w3 [o1 [w4 [E3 [E4 _]]]]].
  apply bind_Done in E4 as [w5 [o2 [w6 [E5 [E6 _]]]]].
  assert (Hev : forall m, isEvent m = true -> isInternalKind (kind m) = true)
    by (intros m Hx; apply pushed_internal; auto).
  assert (Hpr : forall m, isProperty m = true -> isInternalKind (kind m) = true)
    by (intros m Hx; apply pushed_internal; auto).
  assert (Hme : forall m, isMethod m = true -> isInternalKind (kind m) = true)
    by (intros m Hx; apply pushed_internal; auto).
  assert (H1 : wellFormed o1).
  { destruct (0 <? length (eventsTable t))%nat.
    - apply (wellFormed_inlineLoop _ _ _ Hev Hm _ _ _ E3).
      apply wellFormed_snoc; [now apply wellFormed_snoc | exact W1].
    - now injection E3 as _ <-. }
  assert (H2 : wellFormed o2).
  { destruct (0 <? length (propertiesTable t))%nat.
    - apply (wellFormed_inlineLoop _ _ _ Hpr Hm _ _ _ E5).
      apply wellFormed_snoc; [now apply wellFormed_snoc | exact W2].
    - now injection E5 as _ <-. }
  destruct (0 <? length (methodsTable t))%nat.
  - apply (wellFormed_inlineLoop _ _ _ Hme Hm _ _ _ E6).
    apply wellFormed_snoc; [now apply wellFormed_snoc | exact W3].
  - now injection E6 as _ <-.
Qed.

Lemma enumMembersLoop_widths apiMembers :
  forall rows w rows',
    enumMembersLoop apiMembers rows = Done w rows' -> width 3 rows -> width 3 rows'.
Proof.
  induction apiMembers as [|m ms IH]; intros rows w rows' E H.
  - cbn in E. now injection E as _ <-.
  - cbn [enumMembersLoop] in E. destruct (initializerExcerpt m); [|discriminate].
    apply (IH _ _ _ E). apply Forall_app. split; [exact H | now repeat constructor].
Qed.

Lemma wellFormed_packageTables containerHierarchy parents apiMembers w t output :
  packageMembersLoop writeApiItem containerHierarchy parents apiMembers noPackageTables
  = Done w t ->
  wellFormed output -> wellFormed (appendPackageTables output t).
Proof.
  intros E H. apply packageMembersLoop_tables in E.
  destruct E as (E1 & E2 & E3 & E4 & E5 & E6 & E7 & _).
  assert (W : forall k, width 2 (map (packageRow containerHierarchy parents)
                                   (ofKind k apiMembers))).
  { intros k. apply Forall_map. apply List.Forall_forall. reflexivity. }
  unfold appendPackageTables.
  repeat apply wellFormed_appendTable; try exact H;
    first [rewrite E1 | rewrite E2 | rewrite E3 | rewrite E4 | rewrite E5 | rewrite E6
          | rewrite E7]; apply W.
Qed.

Lemma wellFormed_writeApiItem hierarchy apiItem output w output' :
  writeApiItem hierarchy apiItem output = Done w output' ->
  wellFormedComment apiItem -> Forall wellFormedComment (members apiItem) ->
  wellFormed output -> wellFormed output'.
Proof.
  intros E Hc Hm H.
  refine (wellFormed_writeApiItem_with _ _ _ _ _ _ E Hc H).
  intros o wt o2 Ho Et. unfold writeTables, ret in Et.
  destruct (kind apiItem) eqn:K; try discriminate Et;
    try (injection Et as _ <-; first [exact Ho | now apply wellFormed_writeParameterTables]);
    try (apply (wellFormed_writeInterfaceTables _ _ _ _ _ Hm Et Ho)).
  - unfold writeEnumTables in Et.
    apply bind_Done in Et as [w1 [rows [w2 [E1 [E2 _]]]]].
    apply enumMembersLoop_widths in E1; [|constructor].
    unfold ret in E2. destruct (0 <? length rows)%nat; injection E2 as _ <-; [|exact Ho].
    apply wellFormed_snoc; [now apply wellFormed_snoc | exact E1].
  - unfold writePackageOrNamespaceTables in Et. rewrite K in Et.
    apply bind_Done in Et as [w1 [t [w2 [E1 [E2 _]]]]]. injection E2 as _ <-.
    apply (wellFormed_packageTables _ _ _ _ _ _ E1 Ho).
  - unfold writePackageOrNamespaceTables in Et. rewrite K in Et.
    destruct (members apiItem) as [|entryPoint others]; [discriminate Et|].
    apply bind_Done in Et as [w1 [t [w2 [E1 [E2 _]]]]]. injection E2 as _ <-.
    apply (wellFormed_packageTables _ _ _ _ _ _ E1 Ho).
Qed.

Lemma pageAt_subItems apiModel hierarchy apiItem :
  pageAt apiModel hierarchy apiItem -> In apiItem (subItems apiModel).
Proof.
  induction 1 as [p Hin | hierarchy ns m _ Hns _ Hm _
                 | hierarchy p entryPoint others m _ Hpk _ M Hm _].
  - apply (subItems_step p apiModel); [exact Hin | apply subItems_self].
  - now apply (subItems_step m ns).
  - apply (subItems_step m entryPoint); [exact Hm|].
    apply (subItems_step entryPoint p); [rewrite M; now left | exact Hpk].
Qed.

Lemma wellFormed_writeBreadcrumb hierarchy : wellFormed (writeBreadcrumb [] hierarchy).
Proof.
  pose proof (breadcrumbLoop_spec [] hierarchy [] [DocLinkTag "Home" (Literal "/")]) as E.
  cbn [app] in E. unfold writeBreadcrumb.
  change (appendNodeInParagraph [] (DocLinkTag "Home" (Literal "/")))
    with [DocParagraph [DocLinkTag "Home" (Literal "/")]].
  rewrite E. now repeat constructor.
Qed.

(** X20.  Where the tables in the comments of the model have rows as
    wide as their headers, so has every table on the top level of every page
    that [generateFiles] writes: the tables the documenter builds are well
    formed. *)
Theorem written_tables_are_well_formed apiModel :
  Forall wellFormedComment (subItems apiModel) ->
  Forall (fun f => wellFormed (page f)) (writtenBy (generateFiles apiModel)).
Proof.
  intros Hc. eapply Forall_impl; [apply generateFiles_files|].
  intros f (hierarchy & apiItem & w & Hp & _ & _ & E).
  apply pageAt_subItems in Hp.
  apply (wellFormed_writeApiItem _ _ _ _ _ E).
  - apply (In_Forall _ _ _ Hc Hp).
  - apply List.Forall_forall. intros m Hm.
    apply (In_Forall _ _ _ Hc). now apply (subItems_step m apiItem).
  - apply wellFormed_writeBreadcrumb.
Qed.

Lemma written_tables_are_well_formed_witness :
  Forall (fun f => wellFormed (page f)) (writtenBy (generateFiles acmeModel)).
Proof.
  apply written_tables_are_well_formed. repeat constructor.
Defined.

Lemma interfaceMembersLoop_tables classHierarchy apiMembers :
  forall t,
    interfaceMembersLoop writeApiItem classHierarchy apiMembers t
    = Done []
        (mkInterfaceTables
           (eventsTable t ++ map (propertyRow classHierarchy) (List.filter isEvent apiMembers))
           (propertiesTable t
            ++ map (propertyRow classHierarchy) (List.filter isProperty apiMembers))
           (methodsTable t ++ map (methodRow classHierarchy) (List.filter isMethod apiMembers))).
Proof.
  induction apiMembers as [|m ms IH]; intros t.
  - cbn. rewrite !app_nil_r. now destruct t.
  - cbn [interfaceMembersLoop List.filter]. unfold isEvent at 1, isProperty at 1, isMethod at 1.
    destruct (kind m) eqn:K; cbn [isPropertyKind isMethodKind andb]; try apply IH;
      rewrite writeApiItemPage_internal by (now rewrite K); rewrite bind_Done_nil;
      try destruct (isEventProperty m); cbn [negb map];
      rewrite IH; cbn [eventsTable propertiesTable methodsTable];
      rewrite <- ?app_assoc; reflexivity.
Qed.

Lemma writeDescription_app apiItem a b :
  writeDescription apiItem (a ++ b) = a ++ writeDescription apiItem b.
Proof.
  unfold writeDescription, writeBetaWarning.
  destruct (releaseTag apiItem) as [[]|]; destruct (tsdocComment apiItem) as [c|];
    try destruct (deprecatedBlock c); try destruct (remarksBlock c);
    destruct (excerpt apiItem) as [text|]; try destruct (0 <? String.length text)%nat;
    rewrite <- ?app_assoc; reflexivity.
Qed.

Lemma writeParameterTables_app apiItem a b :
  writeParameterTables (a ++ b) apiItem = a ++ writeParameterTables b apiItem.
Proof.
  unfold writeParameterTables.
  destruct (0 <? length (map parameterRow (parameters apiItem)))%nat;
    destruct (returnTypeExcerpt apiItem); destruct (tsdocComment apiItem) as [c|];
    try destruct (returnsBlock c); rewrite <- ?app_assoc; reflexivity.
Qed.

Lemma writeExamples_app apiItem a b :
  writeExamples apiItem (a ++ b) = a ++ writeExamples apiItem b.
Proof.
  unfold writeExamples. destruct (tsdocComment apiItem) as [c|]; [|reflexivity].
  rewrite !exampleLoop_spec, <- app_assoc. reflexivity.
Qed.

Lemma writeApiItem_internal_eq hierarchy m output :
  isInternalKind (kind m) = true ->
  writeApiItem hierarchy m output
  = Done []
      (writeExamples m
         (if isMethodKind (kind m)
          then writeParameterTables (writeDescription m (output ++ [memberHeading m])) m
          else writeDescription m (output ++ [memberHeading m]))).
Proof.
  intros K. rewrite writeApiItem_eq. unfold writeHeading, writeTables, ret, memberHeading.
  destruct (kind m); try discriminate K; reflexivity.
Qed.

Lemma writeApiItem_member classHierarchy m output :
  isInternalKind (kind m) = true ->
  writeApiItem (classHierarchy ++ [hierarchyItem m]) m output
  = Done [] (output ++ memberSection classHierarchy m).
Proof.
  intros K. unfold memberSection. rewrite !(writeApiItem_internal_eq _ _ _ K).
  cbn [app]. f_equal.
  rewrite (writeDescription_app m output [memberHeading m]).
  destruct (isMethodKind (kind m)).
  - now rewrite writeParameterTables_app, writeExamples_app.
  - now rewrite writeExamples_app.
Qed.

Lemma inlineLoop_spec pushed classHierarchy apiMembers :
  (forall m, pushed m = true -> isInternalKind (kind m) = true) ->
  forall output,
    inlineLoop writeApiItem pushed classHierarchy apiMembers output
    = Done [] (output ++ flat_map (memberSection classHierarchy)
                           (List.filter pushed apiMembers)).
Proof.
  intros Hp. induction apiMembers as [|m ms IH]; intros output.
  - cbn. now rewrite app_nil_r.
  - cbn [inlineLoop List.filter]. destruct (pushed m) eqn:P; [|apply IH].
    rewrite (writeApiItem_member _ _ _ (Hp m P)), bind_Done_nil, IH.
    cbn [flat_map]. now rewrite <- app_assoc.
Qed.

Lemma memberGroup_spec pushed title headerTitles rowOf classHierarchy apiMembers output :
  (forall m, pushed m = true -> isInternalKind (kind m) = true) ->
  (if (0 <? length (map rowOf (List.filter pushed apiMembers)))%nat
   then inlineLoop writeApiItem pushed classHierarchy apiMembers
          ((output ++ [DocHeading title None])
           ++ [DocTable headerTitles (map rowOf (List.filter pushed apiMembers))])
   else ret output)
  = Done [] (output ++ memberGroup title headerTitles rowOf classHierarchy
                         (List.filter pushed apiMembers)).
Proof.
  intros Hp. rewrite (inlineLoop_spec _ _ _ Hp). unfold memberGroup.
  destruct (List.filter pushed apiMembers) as [|m ms].
  - cbn. now rewrite app_nil_r.
  - cbn [map length Nat.ltb Nat.leb]. rewrite <- !app_assoc. reflexivity.
Qed.

(** X27.  What [_writeInterfaceTables] appends to the page of a class or an
    interface, and it never fails: the events, then the properties, then the
    methods, each group in the order of the members and left out when it is
    empty.  A group is its heading, its table with one row per member, and
    the sections of its members.  A member of another kind is left out. *)
Theorem writeInterfaceTables_groups output hierarchy apiClass :
  writeInterfaceTables writeApiItem output hierarchy apiClass
  = Done []
      (output
       ++ memberGroup "Events" ["Property"; "Type"; "Description"] (propertyRow hierarchy)
            hierarchy (List.filter isEvent (members apiClass))
       ++ memberGroup "Properties" ["Property"; "Type"; "Description"] (propertyRow hierarchy)
            hierarchy (List.filter isProperty (members apiClass))
       ++ memberGroup "Methods" ["Method"; "Description"] (methodRow hierarchy)
            hierarchy (List.filter isMethod (members apiClass))).
Proof.
  assert (Hev : forall m, isEvent m = true -> isInternalKind (kind m) = true)
    by (intros m Hx; apply pushed_internal; auto).
  assert (Hpr : forall m, isProperty m = true -> isInternalKind (kind m) = true)
    by (intros m Hx; apply pushed_internal; auto).
  assert (Hme : forall m, isMethod m = true -> isInternalKind (kind m) = true)
    by (intros m Hx; apply pushed_internal; auto).
  unfold writeInterfaceTables.
  rewrite interfaceMembersLoop_tables, bind_Done_nil.
  cbn [eventsTable propertiesTable methodsTable app].
  rewrite (memberGroup_spec isEvent _ _ _ _ _ _ Hev), bind_Done_nil.
  rewrite (memberGroup_spec isProperty _ _ _ _ _ _ Hpr), bind_Done_nil.
  rewrite (memberGroup_spec isMethod _ _ _ _ _ _ Hme).
  rewrite <- !app_assoc. reflexivity.
Qed.

(** X28.  The file name of an item does not tell its kind: two items with
    a path segment of their own, below the same parents and with the same
    qualified name, have one file name.  A class and a namespace of one name
    share a file name, and so do the second overload of [make] and a function
    named [make_1]; [generateFiles] then writes both pages under it. *)
Theorem file_name_ignores_the_kind parents h1 h2 :
  getsSegment (hKind h1) = true -> getsSegment (hKind h2) = true ->
  qualifiedName h1 = qualifiedName h2 ->
  getFilenameForApiItem (parents ++ [h1]) = getFilenameForApiItem (parents ++ [h2]).
Proof.
  intros K1 K2 Hq. unfold getFilenameForApiItem. rewrite !baseNameOf_snoc.
  assert (E : forall h, getsSegment (hKind h) = true ->
                addHierarchyItem (baseNameOf parents) h
                = baseNameOf parents +:+ "/" +:+ qualifiedName h).
  { intros h K. unfold addHierarchyItem. destruct (hKind h); try discriminate K; reflexivity. }
  now rewrite (E h1 K1), (E h2 K2), Hq.
Qed.

Lemma file_name_ignores_the_kind_witness :
  getFilenameForApiItem (firstn 3 acmeWidget ++ [mkHierarchyItem KClass "Widget" None])
  = getFilenameForApiItem (firstn 3 acmeWidget ++ [mkHierarchyItem KNamespace "Widget" None]) /\
  getFilenameForApiItem (firstn 3 acmeWidget ++ [mkHierarchyItem KFunction "make" (Some 1)])
  = getFilenameForApiItem (firstn 3 acmeWidget ++ [mkHierarchyItem KFunction "make_1" (Some 0)]) /\
  map filename
    (writtenBy
       (generateFiles
          (plainItem KModel ""
             [plainItem KPackage "acme"
                [plainItem KEntryPoint ""
                   [plainItem KClass "Widget" []; plainItem KNamespace "Widget" []]]])))
  = ["acme/Widget.md"; "acme/Widget.md"; "acme.md"].
Proof.
  split; [|split].
  - apply (file_name_ignores_the_kind (firstn 3 acmeWidget)
             (mkHierarchyItem KClass "Widget" None)
             (mkHierarchyItem KNamespace "Widget" None)); reflexivity.
  - apply (file_name_ignores_the_kind (firstn 3 acmeWidget)
             (mkHierarchyItem KFunction "make" (Some 1))
             (mkHierarchyItem KFunction "make_1" (Some 0))); reflexivity.
  - reflexivity.
Defined.

(** * The site initializer *)

Import DocsifyInit.

Lemma replaceFirst_first c by_ a b :
  lacks c a = true -> replaceFirst c by_ (a +:+ String c b) = a +:+ by_ +:+ b.
Proof.
  induction a as [|x a IH]; intros H.
  - change (replaceFirst c by_ (String c b) = by_ +:+ b).
    cbn [replaceFirst]. now rewrite Ascii.eqb_refl.
  - change (replaceFirst c by_ (String x (a +:+ String c b))
            = String x (a +:+ by_ +:+ b)).
    cbn [lacks] in H. apply andb_true_iff in H as [Hx Ha]. apply negb_true_iff in Hx.
    cbn [replaceFirst]. rewrite Hx, (IH Ha). reflexivity.
Qed.

Lemma stripGit_suffix pre c :
  isLineTerminator c = false -> stripGit (pre +:+ String c "git") = pre.
Proof.
  intros Hc. unfold stripGit. rewrite list_ascii_of_string_app.
  cbn [list_ascii_of_string]. rewrite rev_app_distr. cbn. rewrite Hc. cbn.
  rewrite rev_involutive. apply string_of_list_ascii_of_string.
Qed.

Lemma stripGit_other url :
  (forall pre c, url = pre +:+ String c "git" -> isLineTerminator c = true) ->
  stripGit url = url.
Proof.
  intros H. unfold stripGit.
  destruct (rev (list_ascii_of_string url)) as [|c4 [|c3 [|c2 [|c1 rest]]]] eqn:E;
    try reflexivity.
  destruct (negb (isLineTerminator c1) && Ascii.eqb c2 "g" && Ascii.eqb c3 "i"
            && Ascii.eqb c4 "t") eqn:T; [|reflexivity].
  apply andb_true_iff in T as [T H4]. apply andb_true_iff in T as [T H3].
  apply andb_true_iff in T as [H1 H2].
  apply Ascii.eqb_eq in H2, H3, H4. subst c2 c3 c4.
  apply negb_true_iff in H1.
  rewrite (H (string_of_list_ascii (rev rest)) c1) in H1; [discriminate|].
  apply (f_equal (@rev ascii)) in E. rewrite rev_involutive in E.
  apply (f_equal string_of_list_ascii) in E.
  rewrite string_of_list_ascii_of_string in E. rewrite E.
  cbn [rev]. rewrite <- !app_assoc. cbn [app].
  now rewrite string_of_list_ascii_app.
Qed.

Lemma repoName_last pre last :
  lacks "/" last = true -> repoName (pre +:+ String "/" last) = last.
Proof.
  intros H. unfold repoName. rewrite list_ascii_of_string_app.
  cbn [list_ascii_of_string]. rewrite rev_app_distr. cbn [rev].
  rewrite <- app_assoc. cbn [app].
  assert (T : forall l r, Forall (fun a => Ascii.eqb a "/" = false) l ->
            takeWhile (fun c => negb (Ascii.eqb c "/")) (l ++ "/"%char :: r) = l).
  { intros l r Hl. induction Hl as [|a l Ha _ IH]; [reflexivity|].
    cbn [app takeWhile]. now rewrite Ha, IH. }
  rewrite T.
  - rewrite rev_involutive. apply string_of_list_ascii_of_string.
  - apply Forall_rev. now apply lacks_Forall.
Qed.

Lemma repoName_whole s : lacks "/" s = true -> repoName s = s.
Proof.
  intros H. unfold repoName.
  assert (T : forall l, Forall (fun a => Ascii.eqb a "/" = false) l ->
            takeWhile (fun c => negb (Ascii.eqb c "/")) l = l).
  { intros l Hl. induction Hl as [|a l Ha _ IH]; [reflexivity|].
    cbn [takeWhile]. now rewrite Ha, IH. }
  rewrite T.
  - rewrite rev_involutive. apply string_of_list_ascii_of_string.
  - apply Forall_rev. now apply lacks_Forall.
Qed.

(** X21.  The remote [git@host:owner/repo.git], with a host without a
    colon, becomes [https://host/owner/repo]; and when [repo] holds no slash,
    [REPO_NAME] is [repo]. *)
Theorem repoToHttpsUrl_of_ssh_remote host owner repo :
  lacks ":" host = true -> lacks "/" repo = true ->
  let url := repoToHttpsUrl ("git@" +:+ host +:+ ":" +:+ owner +:+ "/" +:+ repo +:+ ".git") in
  url = "https://" +:+ host +:+ "/" +:+ owner +:+ "/" +:+ repo /\
  repoName url = repo.
Proof.
  intros Hh Hr. cbv zeta.
  assert (E : repoToHttpsUrl ("git@" +:+ host +:+ ":" +:+ owner +:+ "/" +:+ repo +:+ ".git")
              = "https://" +:+ host +:+ "/" +:+ owner +:+ "/" +:+ repo).
  { unfold repoToHttpsUrl.
    change (startsWith "git@" ("git@" +:+ ?x)) with (startsWith "" x).
    replace (startsWith "" (host +:+ ":" +:+ owner +:+ "/" +:+ repo +:+ ".git")) with true
      by (now destruct host).
    change ("git@" +:+ host +:+ ":" +:+ owner +:+ "/" +:+ repo +:+ ".git")
      with ("git@" +:+ (host +:+ String ":" (owner +:+ "/" +:+ repo +:+ ".git"))).
    rewrite <- append_assoc, replaceFirst_first.
    2:{ rewrite lacks_app, Hh. reflexivity. }
    unfold replaceGitAt.
    rewrite append_assoc.
    change (startsWith "git@" ("git@" +:+ ?x)) with (startsWith "" x).
    replace (startsWith "" (host +:+ "/" +:+ owner +:+ "/" +:+ repo +:+ ".git")) with true
      by (now destruct host).
    change (dropString 4 ("git@" +:+ ?x)) with x.
    replace ("https://" +:+ host +:+ "/" +:+ owner +:+ "/" +:+ repo +:+ ".git")
      with (("https://" +:+ host +:+ "/" +:+ owner +:+ "/" +:+ repo) +:+ String "." "git").
    - now apply stripGit_suffix.
    - rewrite !append_assoc. reflexivity. }
  rewrite E. split; [reflexivity|].
  replace ("https://" +:+ host +:+ "/" +:+ owner +:+ "/" +:+ repo)
    with (("https://" +:+ host +:+ "/" +:+ owner) +:+ String "/" repo).
  - now apply repoName_last.
  - rewrite !append_assoc. reflexivity.
Qed.

Lemma repoToHttpsUrl_of_ssh_remote_witness :
  repoToHttpsUrl "git@github.com:hfour/docsify-tools.git"
  = "https://github.com/hfour/docsify-tools" /\
  repoName (repoToHttpsUrl "git@github.com:hfour/docsify-tools.git") = "docsify-tools".
Proof.
  exact (repoToHttpsUrl_of_ssh_remote "github.com" "hfour" "docsify-tools" eq_refl eq_refl).
Defined.

(** X22.  A remote that does not start with [git@] loses its last four
    characters when it ends in [git] after a character that is not a line
    terminator, a dot or not; any other remote is returned as it is. *)
Theorem repoToHttpsUrl_of_other_remote url :
  startsWith "git@" url = false ->
  (forall pre c, url = pre +:+ String c "git" -> isLineTerminator c = false ->
     repoToHttpsUrl url = pre) /\
  ((forall pre c, url = pre +:+ String c "git" -> isLineTerminator c = true) ->
     repoToHttpsUrl url = url).
Proof.
  intros Hs. unfold repoToHttpsUrl, replaceGitAt. rewrite Hs, Hs. split.
  - intros pre c -> Hc. now apply stripGit_suffix.
  - apply stripGit_other.
Qed.

Lemma repoToHttpsUrl_of_other_remote_witness :
  repoToHttpsUrl "https://github.com/hfour/docsify-tools.git"
  = "https://github.com/hfour/docsify-tools" /\
  repoToHttpsUrl "https://example.org/team/legit" = "https://example.org/team/l".
Proof.
  split.
  - exact (proj1 (repoToHttpsUrl_of_other_remote
                    "https://github.com/hfour/docsify-tools.git" eq_refl)
             "https://github.com/hfour/docsify-tools" "."%char eq_refl eq_refl).
  - exact (proj1 (repoToHttpsUrl_of_other_remote
                    "https://example.org/team/legit" eq_refl)
             "https://example.org/team/l" "e"%char eq_refl eq_refl).
Defined.

Lemma replacePlaceholders_skip vars l1 l2 :
  replacePlaceholders vars (l1 ++ l2) (length l1) = replacePlaceholders vars l2 0.
Proof.
  induction l1 as [|a l1 IH]; [reflexivity|].
  cbn [app length replacePlaceholders]. exact IH.
Qed.

Lemma replacePlaceholders_plain vars l :
  Forall (fun a => Ascii.eqb a "{" = false) l ->
  forall rest, replacePlaceholders vars (l ++ rest) 0 = l ++ replacePlaceholders vars rest 0.
Proof.
  induction 1 as [|a l Ha _ IH]; intros rest; [reflexivity|].
  cbn [app replacePlaceholders matchPlaceholder].
  destruct (l ++ rest) as [|b l'] eqn:E; [|rewrite Ha; cbn [andb]]; rewrite <- E, IH;
    reflexivity.
Qed.

Lemma takeWhile_run (p : ascii -> bool) l c rest :
  forallb p l = true -> p c = false ->
  takeWhile p (l ++ c :: rest) = l /\ dropWhile p (l ++ c :: rest) = c :: rest.
Proof.
  intros Hl Hc. induction l as [|a l IH]; cbn [app takeWhile dropWhile forallb] in *.
  - now rewrite Hc.
  - apply andb_true_iff in Hl as [Ha Hl]. rewrite Ha.
    destruct (IH Hl) as [-> ->]. now split.
Qed.

Lemma matchPlaceholder_match n name rest :
  forallb isNameChar (n :: name) = true ->
  matchPlaceholder ("{" :: "{" :: (n :: name) ++ "}" :: "}" :: rest)%char
  = Some (n :: name, length (n :: name) + 4).
Proof.
  intros Hn. unfold matchPlaceholder.
  destruct (takeWhile_run isNameChar (n :: name) "}" ("}"%char :: rest) Hn eq_refl)
    as [-> ->].
  reflexivity.
Qed.

Lemma replacePlaceholders_match vars n name rest :
  forallb isNameChar (n :: name) = true ->
  replacePlaceholders vars ("{" :: "{" :: (n :: name) ++ "}" :: "}" :: rest)%char 0
  = list_ascii_of_string (vars (string_of_list_ascii (n :: name)))
    ++ replacePlaceholders vars rest 0.
Proof.
  intros Hn.
  change (replacePlaceholders vars ("{" :: "{" :: (n :: name) ++ "}" :: "}" :: rest)%char 0)
    with (match matchPlaceholder ("{" :: "{" :: (n :: name) ++ "}" :: "}" :: rest)%char with
          | Some (name', k) =>
              list_ascii_of_string (vars (string_of_list_ascii name'))
              ++ replacePlaceholders vars ("{" :: (n :: name) ++ "}" :: "}" :: rest)%char (k - 1)
          | None =>
              "{"%char :: replacePlaceholders vars ("{" :: (n :: name) ++ "}" :: "}" :: rest)%char 0
          end).
  rewrite (matchPlaceholder_match n name rest Hn). f_equal.
  rewrite <- (replacePlaceholders_skip vars ("{"%char :: (n :: name) ++ ["}"; "}"]%char) rest).
  f_equal.
  - cbn [app]. rewrite <- app_assoc. reflexivity.
  - cbn [length]. rewrite length_app. cbn [length]. lia.
Qed.

(** X23.  A template without a brace is initPaths as it is.  The first
    placeholder of a template is replaced by the value of its name, the text
    before it is kept and the text after it is filled in the same way: the
    value that is put in is not read again.  A name other than [REPO_URL] and
    [REPO_NAME] gives the text [undefined]. *)
Theorem html_fills_the_placeholders repo :
  (forall tpl, lacks "{" tpl = true -> html tpl repo = tpl) /\
  (forall before name after,
      lacks "{" before = true -> name <> "" ->
      forallb isNameChar (list_ascii_of_string name) = true ->
      html (before +:+ "{{" +:+ name +:+ "}}" +:+ after) repo
      = before +:+ vars repo name +:+ html after repo) /\
  (forall name, name <> "REPO_URL" -> name <> "REPO_NAME" -> vars repo name = "undefined").
Proof.
  split; [|split].
  - intros tpl H. unfold html.
    rewrite <- (app_nil_r (list_ascii_of_string tpl)).
    rewrite replacePlaceholders_plain by now apply lacks_Forall.
    cbn [replacePlaceholders]. rewrite app_nil_r.
    apply string_of_list_ascii_of_string.
  - intros before name after Hb Hne Hn. unfold html.
    rewrite !list_ascii_of_string_app.
    rewrite replacePlaceholders_plain by now apply lacks_Forall.
    destruct name as [|n name]; [contradiction|].
    change (list_ascii_of_string "{{" ++ list_ascii_of_string (String n name)
            ++ list_ascii_of_string "}}" ++ list_ascii_of_string after)
      with ("{" :: "{" :: (n :: list_ascii_of_string name)
              ++ "}" :: "}" :: list_ascii_of_string after)%char.
    rewrite (replacePlaceholders_match _ n (list_ascii_of_string name) _ Hn).
    rewrite !string_of_list_ascii_app, !string_of_list_ascii_of_string.
    change (string_of_list_ascii (n :: list_ascii_of_string name))
      with (String n (string_of_list_ascii (list_ascii_of_string name))).
    now rewrite string_of_list_ascii_of_string.
  - intros name H1 H2. unfold vars.
    apply String.eqb_neq in H1, H2. now rewrite H1, H2.
Qed.

Lemma html_fills_the_placeholders_witness :
  html ("<a href='" +:+ "{{" +:+ "REPO_URL" +:+ "}}" +:+ "'>{{REPO_NAME}} {{VERSION}}</a>")
    "https://h/o/r"
  = "<a href='" +:+ "https://h/o/r" +:+ html "'>{{REPO_NAME}} {{VERSION}}</a>" "https://h/o/r"
  /\ vars "https://h/o/r" "VERSION" = "undefined".
Proof.
  split.
  - apply (proj1 (proj2 (html_fills_the_placeholders "https://h/o/r"))
             "<a href='" "REPO_URL" "'>{{REPO_NAME}} {{VERSION}}</a>");
      [reflexivity | discriminate | reflexivity].
  - apply (proj2 (proj2 (html_fills_the_placeholders "https://h/o/r")));
      discriminate.
Defined.

Lemma init_README tpl vendor gitOutput docs :
  init tpl vendor gitOutput docs !! "README.md"
  = Some (default welcome (docs !! "README.md")).
Proof.
  unfold init, staticFiles. cbn [foldl].
  rewrite !lookup_insert_ne by discriminate.
  destruct (docs !! "README.md") as [text|] eqn:H; cbn [default].
  - rewrite bool_decide_eq_true_2 by eauto.
    rewrite !lookup_insert_ne by discriminate. exact H.
  - rewrite bool_decide_eq_false_2 by (intros [x Hx]; discriminate).
    now rewrite lookup_insert.
Qed.

Lemma init_written tpl vendor gitOutput docs :
  init tpl vendor gitOutput docs !! "index.html"
  = Some (html tpl (repoToHttpsUrl (trim gitOutput))) /\
  init tpl vendor gitOutput docs !! ".nojekyll" = Some "" /\
  Forall (fun f => init tpl vendor gitOutput docs !! ("_docsify/" +:+ f) = Some (vendor f))
    staticFiles.
Proof.
  unfold init, staticFiles. cbn [foldl].
  split; [|split; [|repeat constructor]];
    destruct (bool_decide _);
    repeat first [rewrite lookup_insert; reflexivity
                 | rewrite lookup_insert_ne by discriminate].
Qed.

Lemma init_others tpl vendor gitOutput docs p :
  ~ In p initPaths -> init tpl vendor gitOutput docs !! p = docs !! p.
Proof.
  intros Hp. unfold initPaths, staticFiles in Hp. cbn [map app In] in Hp.
  unfold init, staticFiles. cbn [foldl].
  rewrite !lookup_insert_ne by (intros <-; apply Hp; tauto).
  destruct (bool_decide _);
    rewrite !lookup_insert_ne by (intros <-; apply Hp; tauto); reflexivity.
Qed.

(** X24.  After [init] the directory holds [index.html] with the filled
    template, an empty [.nojekyll], the four vendor files below [_docsify] and
    a [README.md]: the one that was there, or the welcome page when there was
    none.  Every other file is as it was. *)
Theorem init_writes_its_files_and_keeps_the_others tpl vendor gitOutput docs :
  let docs' := init tpl vendor gitOutput docs in
  docs' !! "index.html" = Some (html tpl (repoToHttpsUrl (trim gitOutput))) /\
  docs' !! ".nojekyll" = Some "" /\
  docs' !! "README.md" = Some (default welcome (docs !! "README.md")) /\
  Forall (fun f => docs' !! ("_docsify/" +:+ f) = Some (vendor f)) staticFiles /\
  (forall p, ~ In p initPaths -> docs' !! p = docs !! p).
Proof.
  cbv zeta. destruct (init_written tpl vendor gitOutput docs) as [H1 [H2 H3]].
  split; [exact H1|]. split; [exact H2|]. split; [apply init_README|].
  split; [exact H3|]. intros p. apply init_others.
Qed.

Lemma init_writes_its_files_and_keeps_the_others_witness :
  let docs : gmap string string :=
    <["README.md" := "# Mine"]> (<["guide.md" := "text"]> ∅) in
  let docs' := init "<title>{{REPO_NAME}}</title>" (fun f => f) "git@h:o/r.git" docs in
  docs' !! "README.md" = Some "# Mine" /\
  docs' !! "guide.md" = Some "text" /\
  docs' !! "index.html" = Some "<title>r</title>".
Proof.
  cbv zeta.
  pose proof (init_writes_its_files_and_keeps_the_others
                "<title>{{REPO_NAME}}</title>" (fun f => f) "git@h:o/r.git"
                (<["README.md" := "# Mine"]> (<["guide.md" := "text"]> ∅)))
    as [H1 [_ [H3 [_ H5]]]].
  split; [exact H3|]. split; [|exact H1].
  rewrite H5; [reflexivity|].
  unfold initPaths, staticFiles. cbn [map app In].
  intros H. repeat destruct H as [H|H]; try discriminate H. exact H.
Defined.

(** X25.  Running [init] again with the same template, vendor files and
    remote changes nothing. *)
Theorem init_twice tpl vendor gitOutput docs :
  init tpl vendor gitOutput (init tpl vendor gitOutput docs)
  = init tpl vendor gitOutput docs.
Proof.
  apply map_eq. intros p.
  destruct (init_written tpl vendor gitOutput docs) as [H1 [H2 H3]].
  destruct (init_written tpl vendor gitOutput (init tpl vendor gitOutput docs))
    as [K1 [K2 K3]].
  pose proof (init_README tpl vendor gitOutput docs) as H4.
  pose proof (init_README tpl vendor gitOutput (init tpl vendor gitOutput docs)) as K4.
  rewrite H4 in K4. unfold default at 1 in K4. cbn [from_option id] in K4. rewrite <- H4 in K4.
  unfold staticFiles in H3, K3.
  repeat match goal with H : Forall _ (_ :: _) |- _ => apply Forall_cons in H as [? H] end.
  destruct (List.in_dec String.string_dec p initPaths) as [Hp|Hp].
  - unfold initPaths, staticFiles in Hp. cbn [map app In] in Hp.
    repeat destruct Hp as [<-|Hp]; try congruence. contradiction.
  - now rewrite !init_others.
Qed.
